(** * ClipLink front end: clip times, wait display, task polling, language detection

    A shallow embedding of the TypeScript of the ClipLink web client
    (components/VideoProcessor.tsx, components/Dashboard.tsx, the
    localisation module and the SQL schema) and the properties of it that
    the pipeline specification relies on.

    Conventions of the embedding:
    - a finite JavaScript [number] is the rational ([Q]) it stands for.  In
      the records of clips the times are these rationals and the difference
      of two of them is taken exactly; in [formatTime], [formatDuration] and
      [getWaitTimeDisplay] the values are those of [Binary64.number], with
      NaN and the infinities: [-], [*] and [/] round to the nearest binary64
      number, while [Math.floor], [Math.ceil], [%], [Math.min] and
      [Math.max] are exact;
    - a JavaScript string is a [string] that holds its UTF-8 encoding;
      language tags, keys and status names are ASCII;
    - an optional property ([x?: T], or a property of a parsed JSON value
      that may be missing) is an [option];
    - [localStorage] is a finite map from keys to strings;
    - React state and closure variables are fields of an explicit state
      record, and one run of the polling callback is one step on it. *)

From Stdlib Require Import QArith Qround Qminmax Qpower Lqa ZArith Lia Ascii String.
From stdpp Require Import gmap strings pretty.

(** ** JavaScript values and built-ins used by the client *)

Module Js.

Local Open Scope string_scope.

(** [x || d] on a possibly missing number: [undefined], [0] (and NaN, which
    [Q] does not have) are falsy. *)
Definition truthy_number (x : Q) : bool := negb (Qeq_bool x 0).

Definition or_number (x : option Q) (d : Q) : Q :=
  match x with
  | Some v => if truthy_number v then v else d
  | None => d
  end.

(** [s || d] on a possibly missing string: [undefined] and [''] are falsy. *)
Definition truthy_string (s : string) : bool :=
  match s with
  | EmptyString => false
  | String _ _ => true
  end.

Definition or_string (s : option string) (d : string) : string :=
  match s with
  | Some v => if truthy_string v then v else d
  | None => d
  end.

(** [Math.floor] of a finite number. *)
Definition Math_floor (x : Q) : Q := inject_Z (Qfloor x).

(** Digits after the decimal point of [r / d], for [0 <= r < d]. *)
Fixpoint frac_digits (fuel : nat) (r d : Z) : string :=
  match fuel with
  | O => ""
  | S fuel' =>
      if (r =? 0)%Z then ""
      else pretty ((10 * r) `div` d)%Z +:+ frac_digits fuel' ((10 * r) `mod` d)%Z d
  end.

(** [Number.prototype.toString] in the address of a clip: an integer
    prints as its decimal numeral, another number as integer part, point and
    decimals.  [Binary64.toString] is the conversion in full. *)
Definition Number_toString (x : Q) : string :=
  let n := Qnum (Qred x) in
  let d := Zpos (Qden (Qred x)) in
  if (d =? 1)%Z then pretty n
  else (if (n <? 0)%Z then "-" else "")
       +:+ pretty (Z.abs n `div` d)%Z +:+ "."
       +:+ frac_digits 17 (Z.abs n `mod` d)%Z d.

(** [s.padStart(n, pad)] *)
Definition padStart (n : nat) (pad s : string) : string :=
  let k := (n - String.length s)%nat in
  match pad with
  | EmptyString => s
  | String _ _ => String.substring 0 k (String.concat "" (repeat pad k)) +:+ s
  end.

(** [s.startsWith(p)] *)
Definition startsWith (s p : string) : bool := String.prefix p s.

(** [s.includes(t)] *)
Fixpoint includes (s t : string) : bool :=
  String.prefix t s ||
  match s with
  | EmptyString => false
  | String _ s' => includes s' t
  end.

(** [c.toLowerCase()] on one ASCII character. *)
Definition lower_ascii (c : ascii) : ascii :=
  let n := nat_of_ascii c in
  if ((65 <=? n) && (n <=? 90))%nat then ascii_of_nat (n + 32) else c.

(** [s.toLowerCase()] *)
Fixpoint toLowerCase (s : string) : string :=
  match s with
  | EmptyString => EmptyString
  | String c s' => String (lower_ascii c) (toLowerCase s')
  end.

(** The white space and line terminators that [trim] removes.  A string
    holds the UTF-8 encoding of the JavaScript string, so that a character
    is one, two or three bytes here.  In one byte: U+0009 to U+000D and
    U+0020. *)
Definition is_space (c : ascii) : bool :=
  let n := nat_of_ascii c in
  ((9 <=? n) && (n <=? 13) || (n =? 32))%nat.

(** In two bytes: U+00A0. *)
Definition is_space2 (c1 c2 : ascii) : bool :=
  ((nat_of_ascii c1 =? 194) && (nat_of_ascii c2 =? 160))%nat.

(** In three bytes: U+1680, U+2000 to U+200A, U+2028, U+2029, U+202F,
    U+205F, U+3000 and U+FEFF. *)
Definition is_space3 (c1 c2 c3 : ascii) : bool :=
  let n1 := nat_of_ascii c1 in
  let n2 := nat_of_ascii c2 in
  let n3 := nat_of_ascii c3 in
  ((n1 =? 225) && (n2 =? 154) && (n3 =? 128)
   || (n1 =? 226) && (n2 =? 128)
      && ((128 <=? n3) && (n3 <=? 138) || (n3 =? 168) || (n3 =? 169) || (n3 =? 175))
   || (n1 =? 226) && (n2 =? 129) && (n3 =? 159)
   || (n1 =? 227) && (n2 =? 128) && (n3 =? 128)
   || (n1 =? 239) && (n2 =? 187) && (n3 =? 191))%nat.

(** The string begins with a character that [trim] removes. *)
Definition startsWithWhiteSpace (s : string) : bool :=
  match s with
  | EmptyString => false
  | String c1 s1 =>
      if is_space c1 then true
      else
        match s1 with
        | EmptyString => false
        | String c2 s2 =>
            if is_space2 c1 c2 then true
            else
              match s2 with
              | EmptyString => false
              | String c3 _ => is_space3 c1 c2 c3
              end
        end
  end.

(** The string consists of characters that [trim] removes. *)
Fixpoint allWhiteSpace (s : string) : bool :=
  match s with
  | EmptyString => true
  | String c1 s1 =>
      if is_space c1 then allWhiteSpace s1
      else
        match s1 with
        | EmptyString => false
        | String c2 s2 =>
            if is_space2 c1 c2 then allWhiteSpace s2
            else
              match s2 with
              | EmptyString => false
              | String c3 s3 => if is_space3 c1 c2 c3 then allWhiteSpace s3 else false
              end
        end
  end.

Fixpoint trimStart (s : string) : string :=
  match s with
  | EmptyString => EmptyString
  | String c1 s1 =>
      if is_space c1 then trimStart s1
      else
        match s1 with
        | EmptyString => s
        | String c2 s2 =>
            if is_space2 c1 c2 then trimStart s2
            else
              match s2 with
              | EmptyString => s
              | String c3 s3 => if is_space3 c1 c2 c3 then trimStart s3 else s
              end
        end
  end.

(** The longest prefix that does not end in white space. *)
Fixpoint trimEnd (s : string) : string :=
  match s with
  | EmptyString => EmptyString
  | String c s' => if allWhiteSpace s then EmptyString else String c (trimEnd s')
  end.

(** [s.trim()] *)
Definition trim (s : string) : string := trimEnd (trimStart s).

(** A value given to [JSON.stringify] in a request body: the object
    literals of the client hold strings, numbers and booleans. *)
Inductive JsonValue : Type :=
| JString (s : string)
| JNumber (x : Q)
| JBool (b : bool).

(** The Web Storage area: [getItem] is lookup, [setItem] insert,
    [removeItem] delete. *)
Definition getItem (k : string) (ls : gmap string string) : option string := ls !! k.
Definition setItem (k v : string) (ls : gmap string string) : gmap string string := <[k:=v]> ls.
Definition removeItem (k : string) (ls : gmap string string) : gmap string string := delete k ls.

End Js.

(** ** JavaScript numbers: IEEE 754 binary64 *)

Module Binary64.

Local Open Scope Q_scope.

Definition pow2 (e : Z) : Q := 2 ^ e.
Definition pow10 (e : Z) : Q := 10 ^ e.

(** For [0 < x], the exponent [e] with [2^e <= x < 2^(e+1)]. *)
Definition ilog2 (x : Q) : Z :=
  let e := (Z.log2 (Qnum x) - Z.log2 (Zpos (Qden x)))%Z in
  if Qle_bool (pow2 e) x then e else (e - 1)%Z.

(** The nearest integer, the even one of two that are equally near. *)
Definition roundNearestEven (y : Q) : Z :=
  let f := Qfloor y in
  match Qcompare (y - inject_Z f) (1 # 2) with
  | Lt => f
  | Gt => (f + 1)%Z
  | Eq => if Z.even f then f else (f + 1)%Z
  end.

(** The distance between the binary64 numbers around [x], for [0 < x]:
    53 significant bits, and 2^-1074 for the numbers below 2^-1022. *)
Definition ulp (x : Q) : Q := pow2 (Z.max (ilog2 x) (-1022) - 52).

Definition roundPos (x : Q) : Q := inject_Z (roundNearestEven (x / ulp x)) * ulp x.

(** The binary64 number nearest to the real [x], ties to even, with an
    unbounded exponent upwards (see [fl] for the overflow). *)
Definition round64 (x : Q) : Q :=
  match Qcompare (Qred x) 0 with
  | Eq => 0
  | Gt => Qred (roundPos (Qred x))
  | Lt => Qred (- roundPos (- Qred x))
  end.

(** The finite binary64 numbers: [m * 2^e] with [|m| < 2^53] and
    [-1074 <= e <= 971]. *)
Definition isBinary64 (x : Q) : Prop :=
  exists m e : Z,
    (Z.abs m < 2 ^ 53)%Z /\ (-1074 <= e <= 971)%Z /\ x == inject_Z m * pow2 e.

(** A value of type [number].  The two zeros are not told apart. *)
Inductive number : Type :=
| Finite (x : Q)
| PosInfinity
| NegInfinity
| NaN.

(** The [number] that an arithmetic operation returns for the exact result
    [x]: the nearest binary64 number, an infinity beyond the largest one. *)
Definition fl (x : Q) : number :=
  let r := round64 x in
  if Qle_bool (pow2 1024) r then PosInfinity
  else if Qle_bool r (- pow2 1024) then NegInfinity
  else Finite r.

Definition infinity (negative : bool) : number :=
  if negative then NegInfinity else PosInfinity.

Definition isNegative (x : Q) : bool := negb (Qle_bool 0 x).

(** [a - b] *)
Definition sub (a b : number) : number :=
  match a, b with
  | NaN, _ | _, NaN => NaN
  | Finite x, Finite y => fl (x - y)
  | PosInfinity, PosInfinity | NegInfinity, NegInfinity => NaN
  | PosInfinity, _ | _, NegInfinity => PosInfinity
  | NegInfinity, _ | _, PosInfinity => NegInfinity
  end.

(** [a * b] *)
Definition mul (a b : number) : number :=
  match a, b with
  | NaN, _ | _, NaN => NaN
  | Finite x, Finite y => fl (x * y)
  | Finite x, PosInfinity | PosInfinity, Finite x =>
      if Qeq_bool x 0 then NaN else infinity (isNegative x)
  | Finite x, NegInfinity | NegInfinity, Finite x =>
      if Qeq_bool x 0 then NaN else infinity (negb (isNegative x))
  | PosInfinity, PosInfinity | NegInfinity, NegInfinity => PosInfinity
  | PosInfinity, NegInfinity | NegInfinity, PosInfinity => NegInfinity
  end.

(** [a / b] *)
Definition div (a b : number) : number :=
  match a, b with
  | NaN, _ | _, NaN => NaN
  | Finite x, Finite y =>
      if Qeq_bool y 0 then
        if Qeq_bool x 0 then NaN else infinity (isNegative x)
      else fl (x / y)
  | Finite _, _ => Finite 0
  | PosInfinity, Finite y => infinity (isNegative y)
  | NegInfinity, Finite y => infinity (negb (isNegative y))
  | _, _ => NaN
  end.

(** Rounding towards zero, as the quotient inside [%] does. *)
Definition Qtrunc (x : Q) : Z := Z.quot (Qnum x) (Zpos (Qden x)).

(** [a % b]: the remainder has the sign of the dividend; it is a binary64
    number, so that no rounding takes place. *)
Definition rem (a b : number) : number :=
  match a, b with
  | Finite x, Finite y =>
      if Qeq_bool y 0 then NaN else Finite (x - y * inject_Z (Qtrunc (x / y)))
  | Finite x, PosInfinity | Finite x, NegInfinity => Finite x
  | _, _ => NaN
  end.

Definition Math_floor (a : number) : number :=
  match a with
  | Finite x => Finite (inject_Z (Qfloor x))
  | _ => a
  end.

Definition Math_ceil (a : number) : number :=
  match a with
  | Finite x => Finite (inject_Z (Qceiling x))
  | _ => a
  end.

(** [a <= b] *)
Definition leb (a b : number) : bool :=
  match a, b with
  | NaN, _ | _, NaN => false
  | Finite x, Finite y => Qle_bool x y
  | NegInfinity, _ | _, PosInfinity => true
  | _, _ => false
  end.

(** [a === b] *)
Definition eqb (a b : number) : bool :=
  match a, b with
  | Finite x, Finite y => Qeq_bool x y
  | PosInfinity, PosInfinity | NegInfinity, NegInfinity => true
  | _, _ => false
  end.

Definition isNaN (a : number) : bool :=
  match a with
  | NaN => true
  | _ => false
  end.

Definition Math_max (a b : number) : number :=
  if isNaN a || isNaN b then NaN else if leb a b then b else a.

Definition Math_min (a b : number) : number :=
  if isNaN a || isNaN b then NaN else if leb a b then a else b.

(** *** [Number.prototype.toString] *)

Local Open Scope string_scope.

(** For [0 < x]: floor(log10 x). *)
Definition ilog10 (x : Q) : Z :=
  let e := ((ilog2 x * 1233) / 4096)%Z in
  if Qle_bool (pow10 (e + 1)) x then (e + 1)%Z
  else if Qle_bool (pow10 e) x then e
  else (e - 1)%Z.

(** The shortest decimal that reads back as [x]: the least number [k] of
    digits for which an integer [c] of [k] digits (or [10^k]) has
    [round64 (c * 10^(n0 - k)) == x], and for that [k] the [c] nearest to
    [x], where [10^(n0 - 1) <= x < 10^n0]. *)
Fixpoint shortest (fuel : nat) (k n0 : Z) (x : Q) : Z * Z :=
  let scale := pow10 (n0 - k) in
  let lo := Qfloor (x / scale) in
  let hi := (lo + 1)%Z in
  let vlo := (inject_Z lo * scale)%Q in
  let vhi := (inject_Z hi * scale)%Q in
  let oklo := Qeq_bool (round64 vlo) x in
  let okhi := Qeq_bool (round64 vhi) x in
  let found :=
    if oklo && okhi then
      match Qcompare (x - vlo) (vhi - x) with
      | Lt => Some lo
      | Gt => Some hi
      | Eq => Some (if Z.even lo then lo else hi)
      end
    else if oklo then Some lo
    else if okhi then Some hi
    else None in
  match found, fuel with
  | Some c, _ => (c, k)
  | None, O => (lo, k)
  | None, S fuel' => shortest fuel' (k + 1)%Z n0 x
  end.

Fixpoint stripZeros (reversed : string) : string :=
  match reversed with
  | String "0" rest => stripZeros rest
  | _ => reversed
  end.

Definition zeros (n : Z) : string := String.concat "" (repeat "0" (Z.to_nat n)).

(** The decimal form of a binary64 number [0 < x]: the digits of the
    shortest decimal, written plainly when the decimal point falls within
    21 digits to the right or 6 to the left, with an exponent otherwise. *)
Definition toStringPos (x : Q) : string :=
  let n0 := (ilog10 x + 1)%Z in
  let '(c, k0) := shortest 17 1 n0 x in
  let all := pretty c in
  let n := (n0 + (Z.of_nat (String.length all) - k0))%Z in
  let digits := String.rev (stripZeros (String.rev all)) in
  let k := Z.of_nat (String.length digits) in
  if ((-5 <=? n) && (n <=? 21))%Z then
    if (k <=? n)%Z then digits +:+ zeros (n - k)
    else if (0 <? n)%Z then
      String.substring 0 (Z.to_nat n) digits +:+ "."
      +:+ String.substring (Z.to_nat n) (Z.to_nat (k - n)) digits
    else "0." +:+ zeros (- n) +:+ digits
  else
    let e := (n - 1)%Z in
    let exponent := (if (0 <=? e)%Z then "+" else "-") +:+ pretty (Z.abs e) in
    if (k =? 1)%Z then digits +:+ "e" +:+ exponent
    else String.substring 0 1 digits +:+ "."
         +:+ String.substring 1 (Z.to_nat (k - 1)) digits +:+ "e" +:+ exponent.

(** The integers that binary64 holds exactly, one by one. *)
Definition isSafeInteger (x : Q) : bool :=
  Qeq_bool x (inject_Z (Qfloor x)) && (Z.abs (Qfloor x) <? 2 ^ 53)%Z.

(** The decimal form of a finite binary64 number. *)
Definition toStringFinite (x : Q) : string :=
  match Qcompare (Qred x) 0 with
  | Eq => "0"
  | Gt => toStringPos (Qred x)
  | Lt => "-" +:+ toStringPos (Qred (- x))
  end.

(** [String(a)], [a.toString()] and [`${a}`].  A safe integer prints as its
    decimal numeral, which is also its shortest decimal. *)
Definition toString (a : number) : string :=
  match a with
  | NaN => "NaN"
  | PosInfinity => "Infinity"
  | NegInfinity => "-Infinity"
  | Finite x => if isSafeInteger x then pretty (Qfloor x) else toStringFinite x
  end.

End Binary64.

(** ** components/VideoProcessor.tsx *)

Module VideoProcessor.
Import Js.
Local Open Scope string_scope.

(** An element of [ProcessingTask.clips]. *)
Record TaskClip : Type := {
  tc_id : string;
  tc_title : string;
  tc_start : Q;
  tc_end : Q;
  tc_duration : Q;
  tc_url : option string
}.

(** [interface ProcessingTask].  The declared type of [status] is the union
    ['pending' | 'processing' | 'done' | 'failed']; the value is whatever
    the status endpoint sent, and the code compares it with string
    literals, so the field is a string here. *)
Record ProcessingTask : Type := {
  task_id : string;
  status : string;
  progress : Q;
  stage : string;
  current_step : option string;
  message : string;
  clips : option (list TaskClip);
  error : option string
}.

(** The literals of the declared union type of [status]. *)
Definition ProcessingTask_status_values : list string :=
  ["pending"; "processing"; "done"; "failed"].

(** The shape of a TypeScript interface: a property has a name, may be
    optional, and its type is a string, a number, a union of string
    literals, or an array of objects. *)
Inductive TsType : Type :=
| TsString
| TsNumber
| TsLiterals (values : list string)
| TsArrayOf (element : list TsProperty)
with TsProperty : Type :=
| TsProp (name : string) (optional : bool) (type : TsType).

Definition propName (p : TsProperty) : string :=
  match p with TsProp name _ _ => name end.

Definition propType (p : TsProperty) : TsType :=
  match p with TsProp _ _ type => type end.

(** [interface ProcessingTask] as declared. *)
Definition ProcessingTask_interface : list TsProperty :=
  [ TsProp "task_id" false TsString;
    TsProp "status" false (TsLiterals ProcessingTask_status_values);
    TsProp "progress" false TsNumber;
    TsProp "stage" false TsString;
    TsProp "current_step" true TsString;
    TsProp "message" false TsString;
    TsProp "clips" true
      (TsArrayOf [ TsProp "id" false TsString;
                   TsProp "title" false TsString;
                   TsProp "start" false TsNumber;
                   TsProp "end" false TsNumber;
                   TsProp "duration" false TsNumber;
                   TsProp "url" true TsString ]);
    TsProp "error" true TsString ].

(** [interface Clip] *)
Record Clip : Type := {
  id : string;
  title : string;
  start_time : Q;
  end_time : Q;
  duration : Q;
  blob_url : string;
  thumbnail_url : option string;
  clip_id : option string
}.

(** [formatTime] *)
Definition formatTime (seconds : Binary64.number) : string :=
  let mins := Binary64.Math_floor (Binary64.div seconds (Binary64.Finite 60)) in
  let secs := Binary64.Math_floor (Binary64.rem seconds (Binary64.Finite 60)) in
  Binary64.toString mins +:+ ":" +:+ padStart 2 "0" (Binary64.toString secs).

(** [stageTimeMap] of [getWaitTimeDisplay]: estimated minutes per stage.
    The map holds the own keys of the object literal. *)
Definition stageTimeMap : gmap string Q :=
  list_to_map
    [ ("queued", 8%Q);
      ("init", 8%Q);
      ("video_info", 7.5%Q);
      ("download", 7%Q);
      ("transcript", 6%Q);
      ("analysis", 5%Q);
      ("parallel_processing", 3%Q);
      ("finalizing", 1%Q);
      ("azure_upload", 2%Q);
      ("processing", 6%Q);
      ("pending", 8%Q) ].

(** [task.stage || task.current_step || 'processing'] *)
Definition currentStage (task : ProcessingTask) : string :=
  or_string
    (if truthy_string (stage task) then Some (stage task) else current_step task)
    "processing".

(** The names that every object literal inherits from
    [Object.prototype]. *)
Definition objectPrototypeKeys : list string :=
  [ "constructor"; "__defineGetter__"; "__defineSetter__"; "hasOwnProperty";
    "__lookupGetter__"; "__lookupSetter__"; "isPrototypeOf";
    "propertyIsEnumerable"; "toString"; "valueOf"; "__proto__";
    "toLocaleString" ].

(** What [stageTimeMap[key]] evaluates to: the number of an own key, the
    function or object that an inherited name stands for, or
    [undefined]. *)
Inductive StageTime : Type :=
| OwnMinutes (minutes : Q)
| InheritedMember
| Undefined.

(** [key] is one of the inherited names. *)
Definition inheritsKey (key : string) : bool :=
  existsb (String.eqb key) objectPrototypeKeys.

Definition stageTimeLookup (key : string) : StageTime :=
  match stageTimeMap !! key with
  | Some minutes => OwnMinutes minutes
  | None => if inheritsKey key then InheritedMember else Undefined
  end.

(** [stageTimeMap[currentStage] || 6], as the number that the arithmetic
    below makes of it: a function or an object is truthy, and the
    multiplication converts it to NaN. *)
Definition estimatedTotalTime (task : ProcessingTask) : Binary64.number :=
  match stageTimeLookup (currentStage task) with
  | OwnMinutes minutes => Binary64.Finite (if truthy_number minutes then minutes else 6)
  | InheritedMember => Binary64.NaN
  | Undefined => Binary64.Finite 6
  end.

(** The local [displayMinutes] of [getWaitTimeDisplay]. *)
Definition displayMinutes (task : ProcessingTask) : Binary64.number :=
  let progressPercent := Binary64.Finite (or_number (Some (progress task)) 0) in
  let remainingPercent :=
    Binary64.Math_max (Binary64.Finite 0)
      (Binary64.sub (Binary64.Finite 100) progressPercent) in
  let remainingMinutes :=
    Binary64.Math_ceil
      (Binary64.div (Binary64.mul (estimatedTotalTime task) remainingPercent)
         (Binary64.Finite 100)) in
  Binary64.Math_max (Binary64.Finite 1)
    (Binary64.Math_min remainingMinutes (estimatedTotalTime task)).

(** [getWaitTimeDisplay] *)
Definition getWaitTimeDisplay (task : ProcessingTask) : string :=
  if String.eqb (status task) "done" then "Ready! 🎉"
  else if String.eqb (status task) "failed" then "Failed ❌"
  else
    let m := displayMinutes task in
    if Binary64.eqb m (Binary64.Finite 1) then "Almost done! 1 min ⏳"
    else if Binary64.leb m (Binary64.Finite 2)
    then "Wait: " +:+ Binary64.toString m +:+ " min ⏳"
    else if Binary64.leb m (Binary64.Finite 3)
    then "Wait: " +:+ Binary64.toString m +:+ " min ⏳"
    else if Binary64.leb (Binary64.Finite 7) m
    then "Wait: " +:+ Binary64.toString m +:+ " min ⏳"
    else "Wait: " +:+ Binary64.toString m +:+ " min ⏳".


(** *** Starting a task *)

(** The body of the POST to [/api/workflow/process-comprehensive-async],
    with the keys in the order of the object literal. *)
Definition processRequestBody (youtubeUrl : string) : list (string * JsonValue) :=
  [ ("youtube_url", JString (trim youtubeUrl));
    ("quality", JString "best");
    ("create_vertical", JBool true);
    ("smoothing_strength", JString "very_high");
    ("burn_subtitles", JBool true);
    ("font_size", JNumber 15);
    ("export_codec", JString "h264") ].

(** [await getToken({ template: 'cliplink' })]: the token for the
    [Authorization] header is obtained, or the promise rejects ([err] is the
    message of the [Error] thrown, if it is one). *)
Inductive TokenResult : Type :=
| TokenObtained
| TokenRejected (err : option string).

Inductive StartOutcome : Type :=
| StartRejected (err : string)
| StartFailed (err : string)
| StartRequest (endpoint : string) (body : list (string * JsonValue)).

(** [startVideoProcessing], up to the request it issues: the two guards,
    then, inside the [try], the token and the POST; a rejected [getToken]
    goes to the [catch], which shows the error and issues no request. *)
Definition startVideoProcessing (youtubeUrl : string) (hasActive : bool)
    (token : TokenResult) : StartOutcome :=
  if negb (truthy_string (trim youtubeUrl)) then
    StartRejected "Please enter a YouTube URL"
  else if hasActive then
    StartRejected "You already have a video being processed. Please wait for it to complete."
  else
    match token with
    | TokenRejected err => StartFailed (default "Failed to start processing" err)
    | TokenObtained =>
        StartRequest "/api/workflow/process-comprehensive-async"
          (processRequestBody youtubeUrl)
    end.

(** *** Restoring the clips of a finished task ([checkForActiveTask]) *)

(** An element of [result.analysis_results.segments]: parsed JSON, any
    property may be missing. *)
Record Segment : Type := {
  seg_start : option Q;
  seg_end : option Q;
  seg_duration : option Q;
  seg_title : option string
}.

(** [{}] *)
Definition emptySegment : Segment :=
  {| seg_start := None; seg_end := None; seg_duration := None; seg_title := None |}.

(** An element of [result.files_created.thumbnails]. *)
Record Thumbnail : Type := {
  clip_path : option string;
  th_clip_id : option string;
  thumbnail_path : option string
}.

(** The predicate given to [thumbnails.find]. *)
Definition thumbnailMatches (path : string) (index : nat) (t : Thumbnail) : bool :=
  match clip_path t with
  | Some p => String.eqb p path
  | None => false
  end
  || match th_clip_id t with
     | Some c => includes c (pretty (index + 1)%nat)
     | None => false
     end.

(** The callback of [clipPaths.map]. *)
Definition generatedClip (API_BASE_URL : string) (segments : list Segment)
    (thumbnails : list Thumbnail) (index : nat) (path : string) : Clip :=
  let segment := default emptySegment (segments !! index) in
  let startTime := or_number (seg_start segment) 0 in
  let endTime := or_number (seg_end segment) 60 in
  let duration := or_number (seg_duration segment) (endTime - startTime) in
  let thumbnail := List.find (thumbnailMatches path index) thumbnails in
  {| id := "clip-" +:+ pretty index;
     title := or_string (seg_title segment) ("Clip " +:+ pretty (index + 1)%nat);
     start_time := startTime;
     end_time := endTime;
     duration := duration;
     blob_url := path;
     thumbnail_url :=
       match thumbnail with
       | Some t =>
           match thumbnail_path t with
           | Some tp => if truthy_string tp then Some (API_BASE_URL +:+ "/" +:+ tp) else None
           | None => None
           end
       | None => None
       end;
     clip_id := match thumbnail with Some t => th_clip_id t | None => None end |}.

Definition generatedClips (API_BASE_URL : string) (segments : list Segment)
    (thumbnails : list Thumbnail) (clipPaths : list string) : list Clip :=
  imap (generatedClip API_BASE_URL segments thumbnails) clipPaths.

(** The clip card shows the badge "With subtitles" exactly when
    [clip.blob_url.includes('subtitled_')]. *)
Definition showsSubtitleBadge (clip : Clip) : bool :=
  includes (blob_url clip) "subtitled_".

(** *** Polling the status endpoint ([pollTaskProgress]) *)

(** The component state the polling callback reads and writes, with the
    two variables of the closure ([retryCount], and [polling]: the
    interval has not been cleared). *)
Record PollState : Type := {
  taskId : string;
  retryCount : nat;
  polling : bool;
  currentTask : option ProcessingTask;
  isProcessing : bool;
  hasActiveTask : bool;
  errorState : option string;
  localStorage : gmap string string;
  scheduledVideoFetches : nat
}.

Definition maxRetries : nat := 5.

(** What one execution of the callback meets.  The request can fail: the
    response is not ok, or [fetch] or [response.json()] rejects
    ([FetchThrows]; [err] is the message of the [Error] thrown, if it is
    one).  Otherwise the body parses and the count is reset; the handling
    that follows can still throw: reading [taskData.status] throws a
    [TypeError] when the body is [null] ([ResponseNull]), and
    [localStorage.setItem] throws when the storage area refuses the write
    ([StorageThrows]; [taskData] is [None] for the body [null]). *)
Inductive PollResponse : Type :=
| ResponseOk (taskData : ProcessingTask)
| ResponseNotOk (code : nat) (statusText : string)
| FetchThrows (err : option string)
| ResponseNull (typeError : string)
| StorageThrows (taskData : option ProcessingTask) (err : option string).

(** The polls whose request fails: they reach the [catch] block before
    [retryCount] is reset. *)
Definition isPollFailure (r : PollResponse) : bool :=
  match r with
  | ResponseNotOk _ _ => true
  | FetchThrows _ => true
  | _ => false
  end.

(** The polls whose handling throws after [retryCount] was reset. *)
Definition throwsAfterReset (r : PollResponse) : bool :=
  match r with
  | ResponseNull _ => true
  | StorageThrows _ _ => true
  | _ => false
  end.


(** [err instanceof Error ? err.message : 'Unknown error'] for the value
    caught by the [catch] block. *)
Definition caughtMessage (r : PollResponse) : string :=
  match r with
  | ResponseOk _ => ""
  | ResponseNotOk code statusText =>
      "Status check failed: " +:+ pretty code +:+ " " +:+ statusText
  | FetchThrows (Some m) => m
  | FetchThrows None => "Unknown error"
  | ResponseNull typeError => typeError
  | StorageThrows _ (Some m) => m
  | StorageThrows _ None => "Unknown error"
  end.

Definition escalationMessage (API_BASE_URL : string) (r : PollResponse) : string :=
  "Failed to check processing status: " +:+ caughtMessage r
  +:+ ". Please check if the backend is running at " +:+ API_BASE_URL.

Definition clearActiveTask (ls : gmap string string) : gmap string string :=
  removeItem "cliplink_active_task_data" (removeItem "cliplink_active_task_id" ls).

Section Poll.
Context (API_BASE_URL : string) (JSON_stringify : ProcessingTask -> string).

(** The [try] branch after a response that is ok and parses. *)
Definition onTaskData (taskData : ProcessingTask) (st : PollState) : PollState :=
  let ls := setItem "cliplink_active_task_data" (JSON_stringify taskData) (localStorage st) in
  if String.eqb (status taskData) "done" then
    {| taskId := taskId st; retryCount := 0; polling := false;
       currentTask := Some taskData; isProcessing := false; hasActiveTask := false;
       errorState := errorState st; localStorage := clearActiveTask ls;
       scheduledVideoFetches := S (scheduledVideoFetches st) |}
  else if String.eqb (status taskData) "failed" then
    {| taskId := taskId st; retryCount := 0; polling := false;
       currentTask := Some taskData; isProcessing := false; hasActiveTask := false;
       errorState := Some (or_string (error taskData) "Processing failed");
       localStorage := clearActiveTask ls;
       scheduledVideoFetches := scheduledVideoFetches st |}
  else
    {| taskId := taskId st; retryCount := 0; polling := polling st;
       currentTask := Some taskData; isProcessing := isProcessing st;
       hasActiveTask := hasActiveTask st;
       errorState := errorState st; localStorage := ls;
       scheduledVideoFetches := scheduledVideoFetches st |}.

(** The [catch] branch. *)
Definition onPollError (r : PollResponse) (st : PollState) : PollState :=
  let retryCount' := S (retryCount st) in
  if (maxRetries <=? retryCount')%nat then
    {| taskId := taskId st; retryCount := retryCount'; polling := false;
       currentTask := currentTask st; isProcessing := false; hasActiveTask := false;
       errorState := Some (escalationMessage API_BASE_URL r);
       localStorage := clearActiveTask (localStorage st);
       scheduledVideoFetches := scheduledVideoFetches st |}
  else
    {| taskId := taskId st; retryCount := retryCount'; polling := polling st;
       currentTask := currentTask st; isProcessing := isProcessing st;
       hasActiveTask := hasActiveTask st;
       errorState := errorState st; localStorage := localStorage st;
       scheduledVideoFetches := scheduledVideoFetches st |}.

(** The [try] branch up to the statement that throws, when the handling
    of an ok response throws: [retryCount] is reset and [setCurrentTask] has
    run; for the body [null] the copy in [localStorage] is written too
    ([JSON.stringify(null)] is ['null']). *)
Definition beforeHandlingError (r : PollResponse) (st : PollState) : PollState :=
  match r with
  | ResponseNull _ =>
      {| taskId := taskId st; retryCount := 0; polling := polling st;
         currentTask := None; isProcessing := isProcessing st;
         hasActiveTask := hasActiveTask st; errorState := errorState st;
         localStorage := setItem "cliplink_active_task_data" "null" (localStorage st);
         scheduledVideoFetches := scheduledVideoFetches st |}
  | StorageThrows taskData _ =>
      {| taskId := taskId st; retryCount := 0; polling := polling st;
         currentTask := taskData; isProcessing := isProcessing st;
         hasActiveTask := hasActiveTask st; errorState := errorState st;
         localStorage := localStorage st;
         scheduledVideoFetches := scheduledVideoFetches st |}
  | _ => st
  end.

(** One execution of the interval callback; executions do not overlap.
    Once the interval is cleared the callback does not run any more. *)
Definition pollTick (r : PollResponse) (st : PollState) : PollState :=
  if polling st then
    match r with
    | ResponseOk taskData => onTaskData taskData st
    | ResponseNotOk _ _ | FetchThrows _ => onPollError r st
    | ResponseNull _ | StorageThrows _ _ => onPollError r (beforeHandlingError r st)
    end
  else st.

(** The executions of the callback, one every two seconds. *)
Definition pollRun (rs : list PollResponse) (st : PollState) : PollState :=
  fold_left (fun acc r => pollTick r acc) rs st.

End Poll.

(** The state in which [startVideoProcessing] calls [pollTaskProgress]:
    the task announced by the server and a fresh closure. *)
Definition pollStart (task_id : string) (ls : gmap string string) : PollState :=
  {| taskId := task_id; retryCount := 0; polling := true;
     currentTask :=
       Some {| VideoProcessor.task_id := task_id; status := "processing"; progress := 0;
               stage := "initializing"; current_step := None;
               message := "Starting video processing...";
               clips := None; error := None |};
     isProcessing := true; hasActiveTask := true; errorState := None;
     localStorage := ls; scheduledVideoFetches := 0 |}.

End VideoProcessor.

(** ** components/Dashboard.tsx, FolderDetail *)

Module FolderDetail.
Import Js.
Local Open Scope string_scope.

(** [formatDuration] *)
Definition formatDuration (seconds : Binary64.number) : string :=
  let mins := Binary64.Math_floor (Binary64.div seconds (Binary64.Finite 60)) in
  let secs := Binary64.Math_floor (Binary64.rem seconds (Binary64.Finite 60)) in
  Binary64.toString mins +:+ ":" +:+ padStart 2 "0" (Binary64.toString secs).

End FolderDetail.


(** ** The database schema (schema.sql) *)

Module Schema.

(** [CREATE TYPE video_status AS ENUM ('pending', 'processing', 'done', 'failed')] *)
Inductive video_status : Type := pending | processing | done | failed.


(** A row of the table [clips], the columns that carry times. *)
Record clips_row : Type := {
  s3_url : string;
  start_time : Q;
  end_time : Q;
  duration : Q
}.

(** [CHECK (start_time >= 0 AND end_time > start_time AND duration > 0)] *)
Definition check_clip_times (r : clips_row) : bool :=
  Qle_bool 0 (start_time r)
  && negb (Qle_bool (end_time r) (start_time r))
  && negb (Qle_bool (duration r) 0).

End Schema.

(** ** The localisation module *)

Module I18n.
Import Js.
Local Open Scope string_scope.

Inductive Language : Type := en | ru.

(** What [detectLanguage] reads: the storage area, [navigator.language],
    [navigator.languages] (may be missing) and the resolved time zone
    ([None] when [Intl] throws). *)
Record Environment : Type := {
  localStorage : gmap string string;
  language : string;
  languages : option (list string);
  timeZone : option string
}.

Definition russianTimezones : list string :=
  [ "Europe/Moscow"; "Europe/Kaliningrad"; "Europe/Samara"; "Europe/Volgograd";
    "Asia/Yekaterinburg"; "Asia/Omsk"; "Asia/Krasnoyarsk"; "Asia/Irkutsk";
    "Asia/Yakutsk"; "Asia/Vladivostok"; "Asia/Magadan"; "Asia/Kamchatka";
    "Asia/Almaty"; "Asia/Bishkek"; "Asia/Tashkent"; "Asia/Dushanbe";
    "Europe/Kiev"; "Europe/Minsk" ].

(** The condition of the [if] inside the loop over the browser languages. *)
Definition looksRussian (lang : string) : bool :=
  let normalizedLang := toLowerCase lang in
  startsWith normalizedLang "ru"
  || includes normalizedLang "ru-"
  || String.eqb normalizedLang "be"
  || String.eqb normalizedLang "kk"
  || String.eqb normalizedLang "ky"
  || String.eqb normalizedLang "uz"
  || String.eqb normalizedLang "uk".

(** The [for ... of] loop: it returns from the function at the first
    language that looks Russian. *)
Fixpoint scanLanguages (browserLangs : list string) : option Language :=
  match browserLangs with
  | [] => None
  | lang :: rest => if looksRussian lang then Some ru else scanLanguages rest
  end.

(** [navigator.languages || [navigator.language]] *)
Definition browserLangs (env : Environment) : list string :=
  match languages env with
  | Some l => l
  | None => [language env]
  end.

(** [detectLanguage]: the language returned and the storage area as the
    call leaves it. *)
Definition detectLanguage (env : Environment) : Language * gmap string string :=
  let ls := localStorage env in
  let savedLang := getItem "cliplink_language" ls in
  match savedLang with
  | Some "en" => (en, ls)
  | Some "ru" => (ru, ls)
  | _ =>
      match scanLanguages (browserLangs env) with
      | Some l => (l, ls)
      | None =>
          match timeZone env with
          | Some tz =>
              if existsb (String.eqb tz) russianTimezones
              then (en, setItem "cliplink_timezone_suggests_ru" "true" ls)
              else (en, ls)
          | None => (en, ls)
          end
      end
  end.

End I18n.

(** ** The statements of the specification, in its own words *)

Module Spec.
Import Js.
Local Open Scope string_scope.

(** The decimal digit [d], for [0 <= d <= 9]. *)
Definition digit_char (d : Z) : ascii := ascii_of_nat (48 + Z.to_nat d).

(** A number below 100 written with two digits. *)
Definition two_digits (n : Z) : string :=
  String (digit_char (n `div` 10)) (String (digit_char (n `mod` 10)) EmptyString).

(** [s mod m], the remainder of the division rounded down. *)
Definition Qmod (s m : Q) : Q := (s - m * inject_Z (Qfloor (s / m)))%Q.

(** "floor(s/60) followed by ':' followed by floor(s mod 60) left-padded
    with '0' to two digits" *)
Definition clock (s : Q) : string :=
  pretty (Qfloor (s / 60)) +:+ ":" +:+ two_digits (Qfloor (Qmod s 60)).

(** "max(1, min(ceil(estimatedTotalTime × (100 − progress) / 100),
    estimatedTotalTime))" *)
Definition waitMinutes (estimatedTotalTime progress : Q) : Q :=
  Qmax 1 (Qmin (inject_Z (Qceiling (estimatedTotalTime * (100 - progress) / 100)))
               estimatedTotalTime).

(** The same formula in the arithmetic of the client: [-], [*] and [/]
    each round to the nearest binary64 number. *)
Definition waitMinutes64 (estimatedTotalTime progress : Q) : Binary64.number :=
  Binary64.Math_max (Binary64.Finite 1)
    (Binary64.Math_min
       (Binary64.Math_ceil
          (Binary64.div
             (Binary64.mul (Binary64.Finite estimatedTotalTime)
                (Binary64.sub (Binary64.Finite 100) (Binary64.Finite progress)))
             (Binary64.Finite 100)))
       (Binary64.Finite estimatedTotalTime)).

(** "the Russian-family set (prefix 'ru', or exactly 'be', 'kk', 'ky',
    'uz', 'uk')" *)
Definition russianFamily (lang : string) : Prop :=
  (exists rest, lang = "ru" +:+ rest)
  \/ lang = "be" \/ lang = "kk" \/ lang = "ky" \/ lang = "uz" \/ lang = "uk".

(** "when no valid saved value exists, it returns 'ru' if and only if some
    browser language is in the Russian-family set", the languages taken in
    lower case as the code compares them. *)
Definition detectsByFamily (env : I18n.Environment) : Prop :=
  fst (I18n.detectLanguage env) = I18n.ru
  <-> exists lang, In lang (I18n.browserLangs env) /\ russianFamily (toLowerCase lang).

(** The set the code tests: the one above, and the tags that contain
    ['ru-'] anywhere. *)
Definition russianFamilyOrRegion (lang : string) : Prop :=
  russianFamily lang \/ exists before after, lang = before +:+ "ru-" +:+ after.


(** "a task with some failed segments and some successful ones is reported
    as 'partially completed', not 'failed'": the task record [d] that ends
    the polling carries clips and an error detail, and its status is
    'partially completed'. *)
Definition reportedPartiallyCompleted (API_BASE_URL : string)
    (JSON_stringify : VideoProcessor.ProcessingTask -> string)
    (st : VideoProcessor.PollState) (d : VideoProcessor.ProcessingTask) : Prop :=
  VideoProcessor.polling
    (VideoProcessor.pollTick API_BASE_URL JSON_stringify (VideoProcessor.ResponseOk d) st)
    = false ->
  (exists c cs, VideoProcessor.clips d = Some (c :: cs)) ->
  (exists e, VideoProcessor.error d = Some e) ->
  VideoProcessor.status d = "partially completed"
  /\ VideoProcessor.status d <> "failed".

(** "recognized options" of the configuration object. *)
Definition recognizedOptions : list string :=
  [ "quality"; "create_vertical"; "smoothing_strength"; "burn_subtitles";
    "font_size"; "export_codec"; "subtitle_style" ].

(** The "value of the stated type" of each recognized option. *)
Definition optionWellTyped (k : string) (v : JsonValue) : Prop :=
  match v with
  | JString x =>
      k = "quality" \/ k = "export_codec"
      \/ (k = "smoothing_strength" /\ In x ["low"; "medium"; "high"; "very_high"])
      \/ (k = "subtitle_style" /\ In x ["traditional"; "short-form"])
  | JBool _ => k = "create_vertical" \/ k = "burn_subtitles"
  | JNumber x => k = "font_size" /\ (x == inject_Z (Qfloor x))%Q
  end.

(** "the configuration object it sends contains exactly the recognized
    options ..., each with a value of the stated type": every recognized
    option is a key of the body, and every key of the body apart from the
    video address is a recognized option with a well-typed value. *)
Definition configurationAsSpecified (body : list (string * JsonValue)) : Prop :=
  (forall k, In k recognizedOptions -> exists v, In (k, v) body)
  /\ (forall k v, In (k, v) body -> k <> "youtube_url" ->
        In k recognizedOptions /\ optionWellTyped k v).

(** Two clip records with the same value in every field. *)
Definition sameClipFields (c c' : VideoProcessor.Clip) : Prop :=
  VideoProcessor.id c = VideoProcessor.id c'
  /\ VideoProcessor.title c = VideoProcessor.title c'
  /\ VideoProcessor.start_time c = VideoProcessor.start_time c'
  /\ VideoProcessor.end_time c = VideoProcessor.end_time c'
  /\ VideoProcessor.duration c = VideoProcessor.duration c'
  /\ VideoProcessor.blob_url c = VideoProcessor.blob_url c'
  /\ VideoProcessor.thumbnail_url c = VideoProcessor.thumbnail_url c'
  /\ VideoProcessor.clip_id c = VideoProcessor.clip_id c'.

(** "the burn failure changes only the has_subtitles flag on the
    ClipArtifact, no other field of the result": the clip without subtitles
    has every field of the subtitled clip [c], and is shown without them. *)
Definition burnFailureChangesOnlyFlag (c : VideoProcessor.Clip) : Prop :=
  exists c', sameClipFields c c' /\ VideoProcessor.showsSubtitleBadge c' = false.

(** "0 ≤ start < end ≤ SourceVideo.duration, and its derived duration equals
    end − start", for a clip record. *)
Definition clipInvariant (sourceDuration : Q) (c : VideoProcessor.Clip) : Prop :=
  (0 <= VideoProcessor.start_time c
   /\ VideoProcessor.start_time c < VideoProcessor.end_time c
   /\ VideoProcessor.end_time c <= sourceDuration
   /\ VideoProcessor.duration c == VideoProcessor.end_time c - VideoProcessor.start_time c)%Q.


(** The row of the table [clips] that stores a clip record. *)
Definition rowOfClip (c : VideoProcessor.Clip) : Schema.clips_row :=
  {| Schema.s3_url := VideoProcessor.blob_url c;
     Schema.start_time := VideoProcessor.start_time c;
     Schema.end_time := VideoProcessor.end_time c;
     Schema.duration := VideoProcessor.duration c |}.

(** A property that carries a state: an enumerated value, or a property
    named [status] or [state]. *)
Definition isStateProperty (prop : VideoProcessor.TsProperty) : Prop :=
  (exists values, VideoProcessor.propType prop = VideoProcessor.TsLiterals values)
  \/ VideoProcessor.propName prop = "status"
  \/ VideoProcessor.propName prop = "state".

(** "per-segment state" in the status record: a property that holds one
    object per segment, each with a state. *)
Definition hasPerSegmentState (iface : list VideoProcessor.TsProperty) : Prop :=
  exists name opt element prop,
    In (VideoProcessor.TsProp name opt (VideoProcessor.TsArrayOf element)) iface
    /\ In prop element /\ isStateProperty prop.

End Spec.

(** ** Sample inputs *)

Module Examples.
Import VideoProcessor.
Local Open Scope string_scope.

(** A task half way through the [video_info] stage. *)
Definition halfwayTask : ProcessingTask :=
  {| task_id := "comprehensive_ab12cd34"; status := "processing"; progress := 50;
     stage := "video_info"; current_step := None;
     message := "Fetching video information"; clips := None; error := None |}.

(** A task four sevenths of the way through the download: the progress is
    the binary64 number that [57.14285714285714] denotes. *)
Definition downloadingTask : ProcessingTask :=
  {| task_id := "comprehensive_ab12cd34"; status := "processing";
     progress := 2010535547933257 # 35184372088832;
     stage := "download"; current_step := None;
     message := "Downloading video"; clips := None; error := None |}.

(** A task whose stage has the name of a member of [Object.prototype]. *)
Definition constructorTask : ProcessingTask :=
  {| task_id := "comprehensive_ab12cd34"; status := "processing"; progress := 50;
     stage := "constructor"; current_step := None;
     message := "Building clips"; clips := None; error := None |}.

(** A browser whose only language is Kurukh as spoken in India, and no
    saved language. *)
Definition kurukhBrowser : I18n.Environment :=
  {| I18n.localStorage := ∅; I18n.language := "kru-IN";
     I18n.languages := Some ["kru-IN"]; I18n.timeZone := Some "Asia/Kolkata" |}.

(** A Belarusian browser in Minsk, no saved language. *)
Definition minskBrowser : I18n.Environment :=
  {| I18n.localStorage := ∅; I18n.language := "be";
     I18n.languages := Some ["en-US"; "be"]; I18n.timeZone := Some "Europe/Minsk" |}.

(** A finished task that has produced one clip and reports the failure of
    another segment. *)
Definition mixedTask : ProcessingTask :=
  {| task_id := "comprehensive_ab12cd34"; status := "done"; progress := 100;
     stage := "finalizing"; current_step := None;
     message := "Processing complete";
     clips := Some [ {| tc_id := "clip-0"; tc_title := "Intro"; tc_start := 10;
                        tc_end := 40; tc_duration := 30;
                        tc_url := Some "clips/subtitled_segment1_vertical.mp4" |} ];
     error := Some "Segment 2: vertical crop failed" |}.

(** The same result under the status the specification names. *)
Definition partialTask : ProcessingTask :=
  {| task_id := "comprehensive_ab12cd34"; status := "partially completed";
     progress := 100; stage := "finalizing"; current_step := None;
     message := "Processing complete";
     clips := clips mixedTask; error := error mixedTask |}.

Definition sampleUrl : string := "https://www.youtube.com/watch?v=dQw4w9WgXcQ".

(** A no-break space (U+00A0) and an ideographic space (U+3000), in UTF-8. *)
Definition noBreakSpace : string := String "194" (String "160" EmptyString).
Definition ideographicSpace : string :=
  String "227" (String "128" (String "128" EmptyString)).

(** An address field that holds white space only. *)
Definition whiteSpaceOnly : string := "  " +:+ noBreakSpace +:+ ideographicSpace.

(** The sample address as pasted, with white space around it. *)
Definition paddedUrl : string :=
  noBreakSpace +:+ " " +:+ sampleUrl +:+ " " +:+ ideographicSpace.

(** A clip with burned-in subtitles. *)
Definition subtitledClip : Clip :=
  {| id := "clip-0"; title := "Intro"; start_time := 10; end_time := 40;
     duration := 30; blob_url := "clips/subtitled_segment1_vertical.mp4";
     thumbnail_url := None; clip_id := None |}.

(** A segment inside a 100-second video that states a duration of its own. *)
Definition shortenedSegment : Segment :=
  {| seg_start := Some 10%Q; seg_end := Some 40%Q; seg_duration := Some 25%Q;
     seg_title := Some "Intro" |}.

(** A segment of a 100-second video with start and end only. *)
Definition plainSegment : Segment :=
  {| seg_start := Some 10%Q; seg_end := Some 40%Q; seg_duration := None;
     seg_title := Some "Intro" |}.

(** A stand-in for [JSON.stringify] on task records. *)
Definition stringifyTask (t : ProcessingTask) : string :=
  "{task_id:'" +:+ task_id t +:+ "',status:'" +:+ status t +:+ "'}".

Definition localhost : string := "http://localhost:8000".

(** The state in which polling of the sample task starts. *)
Definition startedPolling : PollState :=
  pollStart "comprehensive_ab12cd34"
    {[ "cliplink_active_task_id" := "comprehensive_ab12cd34" ]}.

Definition gatewayTimeout : PollResponse := ResponseNotOk 504 "Gateway Timeout".


(** The storage area is full when the copy of the record is written. *)
Definition quotaExceeded : PollResponse :=
  StorageThrows (Some halfwayTask) (Some "The quota has been exceeded.").

End Examples.

(** ** More JavaScript string operations *)

Module JsString.
Import Js.
Local Open Scope string_scope.

Definition slash : ascii := ascii_of_nat 47.
Definition backslash : ascii := ascii_of_nat 92.

(** [s] does not contain the character [c]. *)
Fixpoint lacksChar (c : ascii) (s : string) : bool :=
  match s with
  | EmptyString => true
  | String d s' => negb (Ascii.eqb d c) && lacksChar c s'
  end.

(** Every character of [s] satisfies [p]. *)
Fixpoint allChars (p : ascii -> bool) (s : string) : bool :=
  match s with
  | EmptyString => true
  | String c s' => p c && allChars p s'
  end.

(** [s.replace(/x/g, y)] for a class of single characters: every character
    that satisfies [p] is replaced by [y]. *)
Fixpoint replaceChars (p : ascii -> bool) (y : ascii) (s : string) : string :=
  match s with
  | EmptyString => EmptyString
  | String c s' => String (if p c then y else c) (replaceChars p y s')
  end.

(** [s.split(sep)] for a separator of one character: never empty. *)
Fixpoint split (sep : ascii) (s : string) : list string :=
  match s with
  | EmptyString => [EmptyString]
  | String c s' =>
      if Ascii.eqb c sep then EmptyString :: split sep s'
      else match split sep s' with
           | x :: xs => String c x :: xs
           | [] => [String c EmptyString]
           end
  end.

(** [`${x}`] for a value that may be [undefined]. *)
Definition template (x : option string) : string := default "undefined" x.

(** [s] with the prefix [p] removed, when [s] starts with [p]. *)
Fixpoint dropPrefix (p s : string) : option string :=
  match p with
  | EmptyString => Some s
  | String a p' =>
      match s with
      | EmptyString => None
      | String b s' => if Ascii.eqb a b then dropPrefix p' s' else None
      end
  end.

(** [a-zA-Z0-9] *)
Definition isAlnum (c : ascii) : bool :=
  let n := nat_of_ascii c in
  ((48 <=? n) && (n <=? 57) || (65 <=? n) && (n <=? 90) || (97 <=? n) && (n <=? 122))%nat.

End JsString.

(** ** config.ts *)

Module Config.
Import Js JsString.
Local Open Scope string_scope.

(** [apiUrl] *)
Definition apiUrl (API_BASE_URL endpoint : string) : string :=
  API_BASE_URL +:+ endpoint.

(** [clipUrl]: [clipPath.replace(/\\/g, '/').split('/').pop()] under
    [API_BASE_URL/clips/]. *)
Definition clipUrl (API_BASE_URL clipPath : string) : string :=
  let cleanPath :=
    last (split slash (replaceChars (Ascii.eqb backslash) slash clipPath)) in
  API_BASE_URL +:+ "/clips/" +:+ template cleanPath.

End Config.

(** ** components/VideoProcessor.tsx, the rest of the component *)

Module Component.
Import Js JsString VideoProcessor.
Local Open Scope string_scope.

(** *** Opening and downloading a clip *)

(** The alternatives of the regular expression of [extractVideoId], in
    their order. *)
Definition videoIdMarkers : list string :=
  [ "youtube.com/watch?v="; "youtu.be/"; "youtube.com/embed/" ].

(** [[^&\n?#]] *)
Definition isIdChar (c : ascii) : bool :=
  let n := nat_of_ascii c in
  negb ((n =? 38) || (n =? 10) || (n =? 63) || (n =? 35))%nat.

(** [([^&\n?#]+)] is greedy: the longest run of such characters. *)
Fixpoint takeIdChars (s : string) : string :=
  match s with
  | EmptyString => EmptyString
  | String c s' => if isIdChar c then String c (takeIdChars s') else EmptyString
  end.

(** The expression tried at the start of [s]: the first alternative that is
    followed by at least one character of the group. *)
Fixpoint matchMarkers (markers : list string) (s : string) : option string :=
  match markers with
  | [] => None
  | m :: rest =>
      match dropPrefix m s with
      | Some tail =>
          match takeIdChars tail with
          | EmptyString => matchMarkers rest s
          | String c videoId => Some (String c videoId)
          end
      | None => matchMarkers rest s
      end
  end.

(** [extractVideoId]: [url.match(regex)] takes the leftmost match, and the
    function returns its group, or [null]. *)
Fixpoint extractVideoId (url : string) : option string :=
  match matchMarkers videoIdMarkers url with
  | Some videoId => Some videoId
  | None =>
      match url with
      | EmptyString => None
      | String _ url' => extractVideoId url'
      end
  end.

(** The address [openYouTubeClip] builds. *)
Definition youtubeClipUrl (videoId : string) (start_time : Q) : string :=
  "https://www.youtube.com/watch?v=" +:+ videoId +:+ "&t="
  +:+ Number_toString (Math_floor start_time) +:+ "s".

(** [openYouTubeClip]: the address given to [window.open], if any. *)
Definition openYouTubeClip (youtubeUrl : string) (clip : Clip) : option string :=
  match extractVideoId youtubeUrl with
  | Some videoId =>
      if truthy_string videoId then Some (youtubeClipUrl videoId (start_time clip))
      else None
  | None => None
  end.

(** [clip.title.replace(/[^a-zA-Z0-9]/g, '_')] *)
Definition sanitizeTitle (s : string) : string :=
  replaceChars (fun c => negb (isAlnum c)) (ascii_of_nat 95) s.

(** The [download] attribute set by [handleDownload]. *)
Definition downloadName (clip : Clip) : string :=
  sanitizeTitle (title clip) +:+ ".mp4".

(** *** The component state *)

(** The React state of the component: the part the polling works on, the
    clips shown, the address typed, the restoring flag and the clips whose
    thumbnail failed to load. *)
Record State : Type := {
  poll : PollState;
  clipsShown : list Clip;
  youtubeUrl : string;
  isRestoringTask : bool;
  thumbnailErrors : gset string
}.

(** [handleThumbnailError] *)
Definition handleThumbnailError (clipId : string) (c : State) : State :=
  {| poll := poll c; clipsShown := clipsShown c; youtubeUrl := youtubeUrl c;
     isRestoringTask := isRestoringTask c;
     thumbnailErrors := thumbnailErrors c ∪ {[ clipId ]} |}.

(** The card shows the thumbnail when
    [clip.thumbnail_url && !thumbnailErrors.has(clip.id)]. *)
Definition showsThumbnail (c : State) (clip : Clip) : bool :=
  match thumbnail_url clip with
  | Some u => truthy_string u && bool_decide (id clip ∉ thumbnailErrors c)
  | None => false
  end.

(** [clearAllClips] *)
Definition clearAllClips (c : State) : State :=
  let st := poll c in
  {| poll :=
       {| taskId := taskId st; retryCount := retryCount st; polling := polling st;
          currentTask := None; isProcessing := false; hasActiveTask := false;
          errorState := None;
          localStorage :=
            removeItem "cliplink_active_task_data"
              (removeItem "cliplink_active_task_id"
                 (removeItem "cliplink_clips"
                    (removeItem "cliplink_data" (localStorage st))));
          scheduledVideoFetches := scheduledVideoFetches st |};
     clipsShown := [];
     youtubeUrl := "";
     isRestoringTask := false;
     thumbnailErrors := ∅ |}.

(** The "Retry" button of the error box is rendered when
    [error.includes('Failed to check processing status') && currentTask?.task_id]. *)
Definition offersRetry (st : PollState) : bool :=
  match errorState st with
  | Some e =>
      truthy_string e
      && includes e "Failed to check processing status"
      && match currentTask st with
         | Some t => truthy_string (task_id t)
         | None => false
         end
  | None => false
  end.

(** Its [onClick], when it is rendered: the error is cleared and
    [pollTaskProgress(currentTask.task_id)] starts a new interval with its
    own [retryCount]. *)
Definition retryClick (st : PollState) : PollState :=
  match currentTask st with
  | Some t =>
      {| taskId := task_id t; retryCount := 0; polling := true;
         currentTask := currentTask st; isProcessing := true; hasActiveTask := true;
         errorState := None; localStorage := localStorage st;
         scheduledVideoFetches := scheduledVideoFetches st |}
  | None => st
  end.

(** The state of a polling that has ended: nothing is processing and both
    keys of the active task are gone from the storage area. *)
Definition pollingEnded (st : PollState) : Prop :=
  polling st = false
  /\ isProcessing st = false
  /\ hasActiveTask st = false
  /\ localStorage st !! "cliplink_active_task_id" = None
  /\ localStorage st !! "cliplink_active_task_data" = None.

(** *** Restoring a task when the page loads ([checkForActiveTask]) *)

(** The parts of [currentTaskStatus.result] the function reads:
    [files_created.final_clip_paths], [analysis_results.segments] and
    [files_created.thumbnails], each of which may be missing. *)
Record TaskResult : Type := {
  final_clip_paths : option (list string);
  segments : option (list Segment);
  thumbnails : option (list Thumbnail)
}.

(** The body of the status response: the task record, and the two further
    properties [youtube_url] and [result]. *)
Record StatusBody : Type := {
  body_task : ProcessingTask;
  body_youtube_url : option string;
  body_result : option TaskResult
}.

(** What the request to the status endpoint meets: a response that is ok
    and parses, a response that is not ok, or an exception. *)
Inductive StatusResponse : Type :=
| StatusOk (b : StatusBody)
| StatusNotOk
| StatusThrows.

(** [if (currentTaskStatus.youtube_url && !youtubeUrl) setYoutubeUrl(...)] *)
Definition restoreYoutubeUrl (b : StatusBody) (current : string) : string :=
  match body_youtube_url b with
  | Some u => if truthy_string u && negb (truthy_string current) then u else current
  | None => current
  end.

(** The end of the function, reached when no branch has returned:
    "No active task found or task is no longer valid". *)
Definition noActiveTask (c : State) : State :=
  let st := poll c in
  {| poll :=
       {| taskId := taskId st; retryCount := retryCount st; polling := polling st;
          currentTask := currentTask st; isProcessing := isProcessing st;
          hasActiveTask := false; errorState := errorState st;
          localStorage := clearActiveTask (localStorage st);
          scheduledVideoFetches := scheduledVideoFetches st |};
     clipsShown := clipsShown c; youtubeUrl := youtubeUrl c;
     isRestoringTask := false; thumbnailErrors := thumbnailErrors c |}.

Section CheckForActiveTask.
Context (API_BASE_URL : string) (JSON_parses : string -> bool).

(** The branch for a response that is ok, by the status it reports. *)
Definition onStatusBody (activeTaskId : string) (b : StatusBody) (c : State) : State :=
  let st := poll c in
  let t := body_task b in
  if String.eqb (status t) "processing" || String.eqb (status t) "pending" then
    {| poll :=
         {| taskId := activeTaskId; retryCount := 0; polling := true;
            currentTask := Some t; isProcessing := true; hasActiveTask := true;
            errorState := errorState st; localStorage := localStorage st;
            scheduledVideoFetches := scheduledVideoFetches st |};
       clipsShown := clipsShown c;
       youtubeUrl := restoreYoutubeUrl b (youtubeUrl c);
       isRestoringTask := false; thumbnailErrors := thumbnailErrors c |}
  else if String.eqb (status t) "done" then
    {| poll :=
         {| taskId := taskId st; retryCount := retryCount st; polling := polling st;
            currentTask := Some t; isProcessing := false; hasActiveTask := false;
            errorState := errorState st;
            localStorage := clearActiveTask (localStorage st);
            scheduledVideoFetches := scheduledVideoFetches st |};
       clipsShown :=
         match body_result b with
         | Some r =>
             match final_clip_paths r with
             | Some clipPaths =>
                 generatedClips API_BASE_URL (default [] (segments r))
                   (default [] (thumbnails r)) clipPaths
             | None => clipsShown c
             end
         | None => clipsShown c
         end;
       youtubeUrl := restoreYoutubeUrl b (youtubeUrl c);
       isRestoringTask := false; thumbnailErrors := thumbnailErrors c |}
  else if String.eqb (status t) "failed" then
    {| poll :=
         {| taskId := taskId st; retryCount := retryCount st; polling := polling st;
            currentTask := Some t; isProcessing := false; hasActiveTask := false;
            errorState := Some (or_string (error t) "Processing failed");
            localStorage := clearActiveTask (localStorage st);
            scheduledVideoFetches := scheduledVideoFetches st |};
       clipsShown := clipsShown c;
       youtubeUrl := restoreYoutubeUrl b (youtubeUrl c);
       isRestoringTask := false; thumbnailErrors := thumbnailErrors c |}
  else noActiveTask c.

(** [checkForActiveTask] *)
Definition checkForActiveTask (resp : StatusResponse) (c : State) : State :=
  let ls := localStorage (poll c) in
  match getItem "cliplink_active_task_id" ls, getItem "cliplink_active_task_data" ls with
  | Some activeTaskId, Some activeTaskData =>
      if truthy_string activeTaskId && truthy_string activeTaskData then
        if JSON_parses activeTaskData then
          match resp with
          | StatusOk b => onStatusBody activeTaskId b c
          | StatusNotOk => noActiveTask c
          | StatusThrows => noActiveTask c
          end
        else noActiveTask c
      else noActiveTask c
  | _, _ => noActiveTask c
  end.

End CheckForActiveTask.

(** *** The clips of the user's videos ([fetchUserVideos]) *)

(** An element of [data.videos]. *)
Record ApiVideo : Type := {
  video_id : string;
  video_title : option string;
  video_status : string
}.

(** An element of [videoDetail.clips]. *)
Record ApiClip : Type := {
  api_id : string;
  api_title : option string;
  api_start_time : Q;
  api_end_time : Q;
  api_duration : option Q;
  api_blob_url : string;
  api_thumbnail_url : option string
}.

(** The object pushed for one clip of a video. *)
Definition userClip (video : ApiVideo) (index : nat) (clip : ApiClip) : Clip :=
  {| id := api_id clip;
     title :=
       or_string (api_title clip)
         (default "null" (video_title video) +:+ " - Clip " +:+ pretty (index + 1)%nat);
     start_time := api_start_time clip;
     end_time := api_end_time clip;
     duration := or_number (api_duration clip) (api_end_time clip - api_start_time clip);
     blob_url := api_blob_url clip;
     thumbnail_url := api_thumbnail_url clip;
     clip_id := Some (api_id clip) |}.

(** The loop over the videos: each comes with the clips of its detail
    response, [None] when that response is not ok, throws, or has no
    [clips]. *)
Fixpoint allClips (videos : list (ApiVideo * option (list ApiClip))) : list Clip :=
  match videos with
  | [] => []
  | (video, detail) :: rest =>
      (if String.eqb (video_status video) "done" then
         match detail with
         | Some cs => imap (userClip video) cs
         | None => []
         end
       else [])
      ++ allClips rest
  end.

(** [if (allClips.length > 0) setClips(allClips)] *)
Definition fetchUserVideos (videos : list (ApiVideo * option (list ApiClip))) (c : State) : State :=
  match allClips videos with
  | [] => c
  | found =>
      {| poll := poll c; clipsShown := found; youtubeUrl := youtubeUrl c;
         isRestoringTask := isRestoringTask c; thumbnailErrors := thumbnailErrors c |}
  end.

End Component.

(** ** components/landing.tsx and the pending address *)

Module Landing.
Import Js.
Local Open Scope string_scope.

(** [saveUrlForLater] *)
Definition saveUrlForLater (url : string) (ls : gmap string string) : gmap string string :=
  if truthy_string (trim url) then setItem "pendingYouTubeUrl" (trim url) ls else ls.

(** [getPendingUrl] *)
Definition getPendingUrl (ls : gmap string string) : option string :=
  getItem "pendingYouTubeUrl" ls.

(** [clearPendingUrl] *)
Definition clearPendingUrl (ls : gmap string string) : gmap string string :=
  removeItem "pendingYouTubeUrl" ls.

(** The effect of the dashboard on mount: the pending address it takes, if
    any, and the storage area it leaves. *)
Definition takePendingUrl (ls : gmap string string) : option string * gmap string string :=
  match getPendingUrl ls with
  | Some savedUrl =>
      if truthy_string savedUrl then (Some savedUrl, clearPendingUrl ls) else (None, ls)
  | None => (None, ls)
  end.

End Landing.

(** ** The localisation module, its state *)

Module I18nState.
Import Js I18n.
Local Open Scope string_scope.

Definition languageCode (lang : Language) : string :=
  match lang with
  | en => "en"
  | ru => "ru"
  end.

(** [getSuggestedLanguage]: the language suggested and the storage area as
    the call leaves it. *)
Definition getSuggestedLanguage (env : Environment) : Language * gmap string string :=
  let (detectedLang, ls) := detectLanguage env in
  match detectedLang with
  | ru => (ru, ls)
  | en =>
      match getItem "cliplink_timezone_suggests_ru" ls with
      | Some "true" => (ru, ls)
      | _ => (en, ls)
      end
  end.

(** The module variable [currentLanguage], the storage area and the
    [languageChanged] events dispatched so far, oldest first. *)
Record State : Type := {
  currentLanguage : Language;
  storage : gmap string string;
  dispatched : list Language
}.

(** [setLanguage] *)
Definition setLanguage (lang : Language) (st : State) : State :=
  {| currentLanguage := lang;
     storage := setItem "cliplink_language" (languageCode lang) (storage st);
     dispatched := dispatched st ++ [lang] |}.

(** [getCurrentLanguage] *)
Definition getCurrentLanguage (st : State) : Language := currentLanguage st.

(** The environment [detectLanguage] reads when the storage area is the
    one of [st]. *)
Definition withStorage (env : Environment) (ls : gmap string string) : Environment :=
  {| localStorage := ls; language := language env; languages := languages env;
     timeZone := timeZone env |}.

(** LanguageWelcomeModal.tsx, [useLanguageWelcome]: the modal is shown
    when [!localStorage.getItem('cliplink_language_selected')]. *)
Definition showsWelcomeModal (ls : gmap string string) : bool :=
  match getItem "cliplink_language_selected" ls with
  | Some v => negb (truthy_string v)
  | None => true
  end.

(** [closeModal] of the hook. *)
Definition closeModal (st : State) : State :=
  {| currentLanguage := currentLanguage st;
     storage := setItem "cliplink_language_selected" "true" (storage st);
     dispatched := dispatched st |}.

(** [handleLanguageSelect] of the modal, whose [onClose] is [closeModal]. *)
Definition handleLanguageSelect (lang : Language) (st : State) : State :=
  closeModal
    (let st' := setLanguage lang st in
     {| currentLanguage := currentLanguage st';
        storage := setItem "cliplink_language_selected" "true" (storage st');
        dispatched := dispatched st' |}).

End I18nState.

(** ** Sample states of the component *)

Module ComponentExamples.
Import VideoProcessor Component.
Local Open Scope string_scope.

(** A stand-in for the success of [JSON.parse]: the text is an object. *)
Definition parsesAsObject (s : string) : bool := String.prefix "{" s.

(** The component just after a reload, with the sample task still stored. *)
Definition reloaded : State :=
  {| poll :=
       {| taskId := ""; retryCount := 0; polling := false; currentTask := None;
          isProcessing := false; hasActiveTask := false; errorState := None;
          localStorage :=
            <[ "cliplink_active_task_id" := "comprehensive_ab12cd34" ]>
              {[ "cliplink_active_task_data" :=
                   Examples.stringifyTask Examples.halfwayTask ]};
          scheduledVideoFetches := 0 |};
     clipsShown := []; youtubeUrl := ""; isRestoringTask := false;
     thumbnailErrors := ∅ |}.

(** The server reports the sample task as still running. *)
Definition runningBody : StatusBody :=
  {| body_task := Examples.halfwayTask;
     body_youtube_url := Some Examples.sampleUrl;
     body_result := None |}.

Definition finishedResult : TaskResult :=
  {| final_clip_paths :=
       Some [ "clips/subtitled_segment1_vertical.mp4"; "clips/segment2_vertical.mp4" ];
     segments := Some [ Examples.plainSegment ];
     thumbnails := None |}.

(** The server reports the sample task as finished, with two clips. *)
Definition finishedBody : StatusBody :=
  {| body_task := Examples.mixedTask;
     body_youtube_url := Some Examples.sampleUrl;
     body_result := Some finishedResult |}.

(** The thumbnails of two clips, found by the path of their clip. *)
Definition twoThumbnails : list Thumbnail :=
  [ {| clip_path := Some "clips/a.mp4"; th_clip_id := None;
       thumbnail_path := Some "thumbnails/a.jpg" |};
    {| clip_path := Some "clips/b.mp4"; th_clip_id := None;
       thumbnail_path := Some "thumbnails/b.jpg" |} ].

(** The component after a reload that follows the end of a polling. *)
Definition reloadedAfterEnd : State :=
  {| poll :=
       {| taskId := ""; retryCount := 0; polling := false; currentTask := None;
          isProcessing := false; hasActiveTask := false; errorState := None;
          localStorage :=
            localStorage
              (pollRun Examples.localhost Examples.stringifyTask
                 (repeat Examples.gatewayTimeout 5) Examples.startedPolling);
          scheduledVideoFetches := 0 |};
     clipsShown := []; youtubeUrl := ""; isRestoringTask := false;
     thumbnailErrors := ∅ |}.

End ComponentExamples.

(** * Properties *)

Import Js.
Local Open Scope string_scope.
Local Open Scope Q_scope.

(** ** Numbers and their decimal form *)


Lemma or_number_Qeq (x : Q) : or_number (Some x) 0 == x.
Proof.
  unfold or_number, truthy_number.
  destruct (Qeq_bool x 0) eqn:H; simpl; [|reflexivity].
  apply Qeq_bool_iff in H. now rewrite H.
Qed.

Lemma Qfloor_unique (x : Q) (k : Z) :
  inject_Z k <= x -> x < inject_Z (k + 1) -> Qfloor x = k.
Proof.
  intros H1 H2. apply Z.le_antisymm.
  - assert (H : (Qfloor x < k + 1)%Z).
    { rewrite Zlt_Qlt. eapply Qle_lt_trans; [apply Qfloor_le | exact H2]. }
    lia.
  - rewrite <- (Qfloor_Z k) at 1. now apply Qfloor_resp_le.
Qed.

Lemma Qdiv_lt_cross (a b c d : Q) : 0 < b -> 0 < d -> a * d < c * b -> a / b < c / d.
Proof.
  intros Hb Hd H. apply Qlt_shift_div_r; [exact Hb|].
  assert (E : c / d * b == c * b / d) by (field; intros E0; lra). rewrite E.
  apply Qlt_shift_div_l; [exact Hd | exact H].
Qed.

Lemma Qdiv_le_cross (a b c d : Q) : 0 < b -> 0 < d -> a * d <= c * b -> a / b <= c / d.
Proof.
  intros Hb Hd H. apply Qle_shift_div_r; [exact Hb|].
  assert (E : c / d * b == c * b / d) by (field; intros E0; lra). rewrite E.
  apply Qle_shift_div_l; [exact Hd | exact H].
Qed.

(** ** Rounding to binary64 *)

Module Binary64Facts.
Import Binary64.

Lemma pow2_pos (e : Z) : 0 < pow2 e.
Proof. apply Qpower_0_lt. reflexivity. Qed.

Lemma pow2_Z (k : Z) : (0 <= k)%Z -> pow2 k == inject_Z (2 ^ k).
Proof. intros H. unfold pow2. now rewrite Zpower_Qpower. Qed.

Lemma pow2_succ (e : Z) : pow2 (e + 1) == 2 * pow2 e.
Proof.
  unfold pow2. rewrite Qpower_plus by discriminate. rewrite Qpower_1_r. ring.
Qed.

Lemma pow2_le (e e' : Z) : (e <= e')%Z -> pow2 e <= pow2 e'.
Proof. intros H. apply Qpower_le_compat_l; [exact H | discriminate]. Qed.

Lemma pow2_lt_inv (e e' : Z) : pow2 e < pow2 e' -> (e < e')%Z.
Proof. intros H. apply (Qpower_lt_compat_l_inv 2); [exact H | reflexivity]. Qed.

Lemma ilog2_spec (x : Q) : 0 < x -> pow2 (ilog2 x) <= x /\ x < pow2 (ilog2 x + 1).
Proof.
  intros Hx. unfold ilog2.
  destruct x as [n d]. assert (Hn : (0 < n)%Z) by (unfold Qlt in Hx; simpl in Hx; lia).
  cbn [Qnum Qden].
  set (a := Z.log2 n). set (b := Z.log2 (Z.pos d)).
  assert (Ha0 : (0 <= a)%Z) by apply Z.log2_nonneg.
  assert (Hb0 : (0 <= b)%Z) by apply Z.log2_nonneg.
  destruct (Z.log2_spec n Hn) as [Ha1 Ha2]. fold a in Ha1, Ha2.
  destruct (Z.log2_spec (Z.pos d) eq_refl) as [Hb1 Hb2]. fold b in Hb1, Hb2.
  assert (Hxe : n # d == inject_Z n / inject_Z (Z.pos d)) by apply Qmake_Qdiv.
  assert (HA : pow2 a == inject_Z (2 ^ a)) by now apply pow2_Z.
  assert (HB : pow2 b == inject_Z (2 ^ b)) by now apply pow2_Z.
  assert (HD : 0 < inject_Z (Z.pos d)) by (unfold Qlt; simpl; lia).
  assert (HBp : 0 < inject_Z (2 ^ b)).
  { rewrite <- HB. apply pow2_pos. }
  rewrite Z.pow_succ_r in Ha2, Hb2 by assumption.
  assert (HZa : (0 < 2 ^ a)%Z) by (apply Z.pow_pos_nonneg; lia).
  assert (HZb : (0 < 2 ^ b)%Z) by (apply Z.pow_pos_nonneg; lia).
  assert (Hlow : pow2 (a - b - 1) <= n # d).
  { unfold pow2 in *. replace (a - b - 1)%Z with (a - (b + 1))%Z by lia.
    rewrite Qpower_minus by discriminate. fold (pow2 a). fold (pow2 (b + 1)).
    rewrite pow2_succ, HA. fold (pow2 b). rewrite HB, Hxe.
    apply Qdiv_le_cross; [apply Qmult_lt_0_compat; [reflexivity | exact HBp] | exact HD |].
    change 2 with (inject_Z 2). rewrite <- !inject_Z_mult.
    rewrite <- Zle_Qle. generalize dependent (2 ^ a)%Z. generalize dependent (2 ^ b)%Z.
    intros; nia. }
  assert (Hhigh : n # d < pow2 (a - b + 1)).
  { unfold pow2 in *. replace (a - b + 1)%Z with ((a + 1) - b)%Z by lia.
    rewrite Qpower_minus by discriminate. fold (pow2 b). fold (pow2 (a + 1)).
    rewrite pow2_succ, HA, HB, Hxe.
    apply Qdiv_lt_cross; [exact HD | exact HBp |].
    change 2 with (inject_Z 2). rewrite <- !inject_Z_mult.
    rewrite <- Zlt_Qlt. generalize dependent (2 ^ a)%Z. generalize dependent (2 ^ b)%Z.
    intros; nia. }
  destruct (Qle_bool (pow2 (a - b)) (n # d)) eqn:E.
  - apply Qle_bool_iff in E. split; [exact E | exact Hhigh].
  - split; [exact Hlow|]. replace (a - b - 1 + 1)%Z with (a - b)%Z by lia.
    apply Qnot_le_lt. intros H. apply Qle_bool_iff in H. congruence.
Qed.

Lemma roundNearestEven_bounds (y : Q) :
  y - (1 # 2) <= inject_Z (roundNearestEven y)
  /\ inject_Z (roundNearestEven y) <= y + (1 # 2).
Proof.
  unfold roundNearestEven. cbv zeta.
  pose proof (Qfloor_le y) as H1. pose proof (Qlt_floor y) as H2.
  rewrite inject_Z_plus in H2. change (inject_Z 1) with 1 in H2.
  destruct (Qcompare_spec (y - inject_Z (Qfloor y)) (1 # 2)) as [E | E | E].
  - destruct (Z.even (Qfloor y)).
    + split; lra.
    + rewrite inject_Z_plus. change (inject_Z 1) with 1. split; lra.
  - split; lra.
  - rewrite inject_Z_plus. change (inject_Z 1) with 1. split; lra.
Qed.

Lemma roundNearestEven_Z (z : Z) : roundNearestEven (inject_Z z) = z.
Proof.
  unfold roundNearestEven. cbv zeta. rewrite Qfloor_Z.
  destruct (Qcompare_spec (inject_Z z - inject_Z z) (1 # 2)) as [E | E | E];
    [exfalso; lra | reflexivity | exfalso; lra].
Qed.

Lemma roundNearestEven_comp (y y' : Q) :
  y == y' -> roundNearestEven y = roundNearestEven y'.
Proof.
  intros H. unfold roundNearestEven. cbv zeta.
  rewrite (Qfloor_comp _ _ H).
  assert (E : y - inject_Z (Qfloor y') == y' - inject_Z (Qfloor y')) by now rewrite H.
  now rewrite (Qcompare_comp _ _ E _ _ (Qeq_refl (1 # 2))).
Qed.

Lemma roundNearestEven_nonneg (y : Q) : 0 <= y -> (0 <= roundNearestEven y)%Z.
Proof.
  intros Hy. assert (Hf : (0 <= Qfloor y)%Z).
  { change 0%Z with (Qfloor 0). now apply Qfloor_resp_le. }
  unfold roundNearestEven. cbv zeta.
  destruct (Qcompare _ _); [destruct (Z.even _)| |]; lia.
Qed.

Lemma ulp_pos (x : Q) : 0 < ulp x.
Proof. apply pow2_pos. Qed.

Lemma scaled_round_bounds (x u : Q) :
  0 < u ->
  x - u / 2 <= inject_Z (roundNearestEven (x / u)) * u
  /\ inject_Z (roundNearestEven (x / u)) * u <= x + u / 2.
Proof.
  intros Hu. destruct (roundNearestEven_bounds (x / u)) as [H1 H2].
  set (n := inject_Z (roundNearestEven (x / u))) in *.
  assert (Hx : x == x / u * u) by (field; intros E0; lra).
  set (q := x / u) in *.
  assert (E1 : x - u / 2 == (q - (1 # 2)) * u) by (rewrite Hx; field).
  assert (E2 : x + u / 2 == (q + (1 # 2)) * u) by (rewrite Hx; field).
  rewrite E1, E2. split; apply Qmult_le_compat_r; solve [assumption | lra].
Qed.

Lemma roundPos_bounds (x : Q) :
  x - ulp x / 2 <= roundPos x /\ roundPos x <= x + ulp x / 2.
Proof. apply scaled_round_bounds, ulp_pos. Qed.

(** The rounding depends on the value only. *)
Lemma round64_comp (x y : Q) : x == y -> round64 x = round64 y.
Proof. intros H. unfold round64. now rewrite (Qred_complete _ _ H). Qed.

Lemma round64_pos (x : Q) : 0 < x -> round64 x == roundPos (Qred x).
Proof.
  intros Hx. unfold round64.
  destruct (Qcompare_spec (Qred x) 0) as [E | E | E];
    rewrite Qred_correct in E; [lra | lra |]. apply Qred_correct.
Qed.

Lemma round64_0 (x : Q) : x == 0 -> round64 x = 0.
Proof.
  intros Hx. unfold round64.
  destruct (Qcompare_spec (Qred x) 0) as [E | E | E];
    rewrite Qred_correct in E; [reflexivity | lra | lra].
Qed.

Lemma round64_nonneg (x : Q) : 0 <= x -> 0 <= round64 x.
Proof.
  intros Hx. destruct (Qlt_le_dec 0 x) as [Hpos | Hle].
  - rewrite (round64_pos x Hpos).
    assert (Hy : 0 <= Qred x) by (rewrite Qred_correct; exact Hx).
    generalize dependent (Qred x). intros y Hy. unfold roundPos.
    apply Qmult_le_0_compat; [|apply Qlt_le_weak, ulp_pos].
    change 0 with (inject_Z 0). rewrite <- Zle_Qle.
    apply roundNearestEven_nonneg. apply Qle_shift_div_l; [apply ulp_pos|].
    now rewrite Qmult_0_l.
  - rewrite (round64_0 x); lra.
Qed.

Lemma half_ulp_le (p y a b : Q) :
  p <= y -> 0 <= b -> a / 2 == b -> p * a / 2 <= y * b.
Proof.
  intros Hp Hb E. assert (E' : p * a / 2 == p * b) by (rewrite <- E; field).
  rewrite E'. now apply Qmult_le_compat_r.
Qed.

(** The error of the rounding is at most half a unit in the last place:
    a relative error of 2^-53, or 2^-1075 among the smallest numbers. *)
Lemma round64_error (x : Q) :
  0 < x ->
  (x - x * pow2 (-53) <= round64 x /\ round64 x <= x + x * pow2 (-53))
  \/ (x < pow2 (-1022)
      /\ x - pow2 (-1075) <= round64 x /\ round64 x <= x + pow2 (-1075)).
Proof.
  intros Hx. rewrite (round64_pos x Hx).
  assert (Hy : Qred x == x) by apply Qred_correct.
  generalize dependent (Qred x). intros y Hy.
  assert (Hy0 : 0 < y) by now rewrite Hy.
  destruct (roundPos_bounds y) as [H1 H2].
  destruct (ilog2_spec y Hy0) as [L1 L2].
  unfold ulp in *.
  destruct (Z.max_spec (ilog2 y) (-1022)) as [[Hlt E] | [Hge E]]; rewrite E in H1, H2.
  - right. split.
    + rewrite <- Hy. eapply Qlt_le_trans; [exact L2 | apply pow2_le; lia].
    + assert (E' : pow2 (-1022 - 52) / 2 == pow2 (-1075)) by reflexivity.
      rewrite E' in H1, H2. rewrite <- Hy. split; assumption.
  - left.
    assert (E' : pow2 (ilog2 y - 52) / 2 <= y * pow2 (-53)).
    { assert (Es : pow2 (ilog2 y - 52) == pow2 (ilog2 y) * pow2 (-52)).
      { unfold pow2. rewrite <- Qpower_plus by discriminate. reflexivity. }
      rewrite Es. apply (half_ulp_le _ _ _ _ L1); [discriminate | reflexivity]. }
    rewrite <- Hy. revert H1 H2 E'.
    generalize (pow2 (ilog2 y - 52)) (pow2 (-53)) (roundPos y).
    intros u h r H1 H2 E'. split; lra.
Qed.

(** The integers below 2^53 are binary64 numbers. *)
Lemma round64_Z (z : Z) : (0 <= z < 2 ^ 53)%Z -> round64 (inject_Z z) == inject_Z z.
Proof.
  intros [H0 H53]. destruct (Z.eq_dec z 0%Z) as [-> | Hz]; [reflexivity|].
  assert (Hpos : 0 < inject_Z z) by (change 0 with (inject_Z 0); rewrite <- Zlt_Qlt; lia).
  rewrite (round64_pos _ Hpos).
  assert (Hy : Qred (inject_Z z) == inject_Z z) by apply Qred_correct.
  generalize dependent (Qred (inject_Z z)). intros y Hy.
  assert (Hy0 : 0 < y) by now rewrite Hy.
  unfold roundPos, ulp.
  destruct (ilog2_spec y Hy0) as [L1 _].
  assert (Hlog : (ilog2 y <= 52)%Z).
  { assert (H : pow2 (ilog2 y) < pow2 53).
    { eapply Qle_lt_trans; [exact L1|]. rewrite Hy, (pow2_Z 53) by lia.
      rewrite <- Zlt_Qlt. exact H53. }
    apply pow2_lt_inv in H. lia. }
  set (e := Z.max (ilog2 y) (-1022)).
  assert (He : (e <= 52)%Z) by (unfold e; lia).
  assert (Hu : pow2 (e - 52) == / inject_Z (2 ^ (52 - e))).
  { replace (e - 52)%Z with (- (52 - e))%Z by lia. unfold pow2.
    rewrite Qpower_opp. fold (pow2 (52 - e)). now rewrite pow2_Z by lia. }
  assert (Hp : 0 < inject_Z (2 ^ (52 - e))).
  { rewrite <- pow2_Z by lia. apply pow2_pos. }
  assert (Hq : y / pow2 (e - 52) == inject_Z (z * 2 ^ (52 - e))).
  { rewrite Hu, Hy, inject_Z_mult. field. intros E0; lra. }
  rewrite (roundNearestEven_comp _ _ Hq), roundNearestEven_Z.
  rewrite Hu, inject_Z_mult. field. intros E0; lra.
Qed.

(** The quotient of an integer below 2^53 by a positive integer is rounded
    without crossing an integer. *)
Lemma floor_round64_quotient (M D : Z) :
  (0 <= M < 2 ^ 53)%Z -> (0 < D)%Z ->
  Qfloor (round64 (inject_Z M / inject_Z D)) = (M / D)%Z.
Proof.
  intros [HM0 HM53] HD.
  pose proof (Z_div_mod_eq_full M D) as Hdiv.
  pose proof (Z.mod_pos_bound M D HD) as Hmod.
  set (k := (M / D)%Z) in *. set (r := (M mod D)%Z) in *.
  assert (Hk0 : (0 <= k)%Z) by (apply Z.div_pos; lia).
  assert (HkM : (k <= M)%Z) by nia.
  assert (HQD : 0 < inject_Z D) by (change 0 with (inject_Z 0); rewrite <- Zlt_Qlt; lia).
  set (h := / inject_Z D).
  assert (Hh : 0 < h) by (apply Qinv_lt_0_compat; exact HQD).
  assert (HDh : inject_Z D * h == 1) by (unfold h; field; intros E0; lra).
  assert (Hq : inject_Z M / inject_Z D == inject_Z k + inject_Z r * h).
  { rewrite Hdiv, inject_Z_plus, inject_Z_mult. unfold h. field. intros E0; lra. }
  destruct (Z.eq_dec r 0%Z) as [Hr | Hr].
  - assert (Hqk : inject_Z M / inject_Z D == inject_Z k).
    { rewrite Hq, Hr. change (inject_Z 0) with 0. ring. }
    rewrite (round64_comp _ _ Hqk).
    rewrite (Qfloor_comp _ _ (round64_Z k ltac:(lia))). apply Qfloor_Z.
  - assert (Hr1 : h <= inject_Z r * h).
    { rewrite <- (Qmult_1_l h) at 1. apply Qmult_le_compat_r; [|lra].
      change 1 with (inject_Z 1). rewrite <- Zle_Qle. lia. }
    assert (Hr2 : inject_Z r * h <= 1 - h).
    { assert (E : (inject_Z D - 1) * h == inject_Z D * h - h) by ring.
      rewrite HDh in E. rewrite <- E. apply Qmult_le_compat_r; [|lra].
      assert (E1 : inject_Z D - 1 == inject_Z (D - 1))
        by (unfold Z.sub; rewrite inject_Z_plus, inject_Z_opp; reflexivity).
      rewrite E1, <- Zle_Qle. lia. }
    set (q := inject_Z M / inject_Z D) in *.
    assert (Hq0 : 0 < q).
    { rewrite Hq. assert (0 <= inject_Z k)
        by (change 0 with (inject_Z 0); rewrite <- Zle_Qle; lia). lra. }
    apply Qfloor_unique; rewrite ?inject_Z_plus; change (inject_Z 1) with 1.
    + destruct (round64_error q Hq0) as [[E1 _] | (Hsmall & _ & _)].
      * assert (Herr : q * pow2 (-53) < h).
        { assert (E : q * pow2 (-53) == inject_Z M * pow2 (-53) * h)
            by (unfold q, h; field; intros E0; lra).
          rewrite E. rewrite <- (Qmult_1_l h) at 2.
          apply Qmult_lt_compat_r; [exact Hh|].
          assert (E53 : inject_Z (2 ^ 53) * pow2 (-53) == 1) by reflexivity.
          rewrite <- E53. apply Qmult_lt_compat_r; [reflexivity|].
          rewrite <- Zlt_Qlt. exact HM53. }
        lra.
      * assert (Hk : k = 0%Z).
        { assert (H : inject_Z k < inject_Z 1).
          { assert (pow2 (-1022) < 1) by reflexivity. change (inject_Z 1) with 1. lra. }
          rewrite <- Zlt_Qlt in H. lia. }
        rewrite Hk. apply round64_nonneg. lra.
    + destruct (round64_error q Hq0) as [[_ E2] | (Hsmall & _ & E2)].
      * assert (Herr : q * pow2 (-53) < h).
        { assert (E : q * pow2 (-53) == inject_Z M * pow2 (-53) * h)
            by (unfold q, h; field; intros E0; lra).
          rewrite E. rewrite <- (Qmult_1_l h) at 2.
          apply Qmult_lt_compat_r; [exact Hh|].
          assert (E53 : inject_Z (2 ^ 53) * pow2 (-53) == 1) by reflexivity.
          rewrite <- E53. apply Qmult_lt_compat_r; [reflexivity|].
          rewrite <- Zlt_Qlt. exact HM53. }
        lra.
      * assert (Hk : 0 <= inject_Z k)
          by (change 0 with (inject_Z 0); rewrite <- Zle_Qle; lia).
        assert (pow2 (-1022) + pow2 (-1075) < 1) by reflexivity. lra.
Qed.

(** A quotient by 60 of a non-negative binary64 number below 2^53 is a
    quotient of an integer below 2^53. *)
Lemma binary64_div60 (s : Q) :
  isBinary64 s -> 0 <= s -> s < inject_Z (2 ^ 53) ->
  exists M D : Z,
    (0 <= M < 2 ^ 53)%Z /\ (0 < D)%Z /\ s / 60 == inject_Z M / inject_Z D.
Proof.
  intros (m & e & Hm & He & Hs) H0 H53.
  assert (Hp : 0 < pow2 e) by apply pow2_pos.
  assert (Hm0 : (0 <= m)%Z).
  { destruct (Z_lt_le_dec m 0%Z) as [Hneg | Hpos]; [|exact Hpos]. exfalso.
    assert (H : inject_Z m * pow2 e < 0 * pow2 e).
    { apply Qmult_lt_compat_r; [exact Hp|]. change 0 with (inject_Z 0).
      rewrite <- Zlt_Qlt. exact Hneg. }
    rewrite Qmult_0_l, <- Hs in H. lra. }
  destruct (Z_lt_le_dec e 0%Z) as [Hneg | Hpos].
  - exists m, (60 * 2 ^ (- e))%Z.
    assert (HZ : (0 < 2 ^ (- e))%Z) by (apply Z.pow_pos_nonneg; lia).
    split; [lia|]. split; [lia|].
    assert (Hu : pow2 e == / inject_Z (2 ^ (- e))).
    { replace e with (- (- e))%Z at 1 by lia. unfold pow2.
      rewrite Qpower_opp. fold (pow2 (- e)). now rewrite pow2_Z by lia. }
    assert (HQ : 0 < inject_Z (2 ^ (- e)))
      by (change 0 with (inject_Z 0); rewrite <- Zlt_Qlt; exact HZ).
    rewrite Hs, Hu, inject_Z_mult. change (inject_Z 60) with 60.
    field. repeat split; intros E0; lra.
  - exists (m * 2 ^ e)%Z, 60%Z.
    assert (Hse : s == inject_Z (m * 2 ^ e)).
    { rewrite Hs, inject_Z_mult, <- pow2_Z by lia. reflexivity. }
    split; [|split; [lia|]].
    + split.
      * apply Z.mul_nonneg_nonneg; [exact Hm0 | apply Z.pow_nonneg; lia].
      * rewrite Zlt_Qlt, <- Hse. exact H53.
    + rewrite Hse. reflexivity.
Qed.

(** The minutes of a clock: for a non-negative binary64 number of seconds
    below 2^53 the quotient by 60, though rounded, has the floor of the
    exact quotient. *)
Lemma floor_round64_div60 (s : Q) :
  isBinary64 s -> 0 <= s -> s < inject_Z (2 ^ 53) ->
  Qfloor (round64 (s / 60)) = Qfloor (s / 60).
Proof.
  intros Hb H0 H53.
  destruct (binary64_div60 s Hb H0 H53) as (M & D & HM & HD & Hq).
  rewrite (round64_comp _ _ Hq), (Qfloor_comp _ _ Hq), <- Zdiv_Qdiv.
  now apply floor_round64_quotient.
Qed.

Lemma fl_comp (x y : Q) : x == y -> fl x = fl y.
Proof. intros H. unfold fl. now rewrite (round64_comp _ _ H). Qed.

Lemma fl_finite (x : Q) :
  - pow2 1024 < round64 x -> round64 x < pow2 1024 -> fl x = Finite (round64 x).
Proof.
  intros H1 H2. unfold fl. cbv zeta.
  destruct (Qle_bool (pow2 1024) (round64 x)) eqn:E1.
  { apply Qle_bool_iff in E1. exfalso. apply (Qlt_not_le _ _ H2 E1). }
  destruct (Qle_bool (round64 x) (- pow2 1024)) eqn:E2.
  { apply Qle_bool_iff in E2. exfalso. apply (Qlt_not_le _ _ H1 E2). }
  reflexivity.
Qed.

Lemma fl_not_NaN (x : Q) : isNaN (fl x) = false.
Proof.
  unfold fl. cbv zeta.
  destruct (Qle_bool _ _); [reflexivity|]. destruct (Qle_bool _ _); reflexivity.
Qed.

(** A non-negative result stays non-negative. *)
Lemma fl_nonneg (x : Q) : 0 <= x -> leb (Finite 0) (fl x) = true.
Proof.
  intros Hx. pose proof (round64_nonneg x Hx) as Hr. unfold fl. cbv zeta.
  destruct (Qle_bool (pow2 1024) (round64 x)); [reflexivity|].
  destruct (Qle_bool (round64 x) (- pow2 1024)) eqn:E.
  - apply Qle_bool_iff in E. exfalso.
    assert (- pow2 1024 < 0) by reflexivity. lra.
  - simpl. now apply Qle_bool_iff.
Qed.

Lemma Math_max_0_fl (x : Q) : 0 <= x -> Math_max (Finite 0) (fl x) = fl x.
Proof.
  intros Hx. unfold Math_max. rewrite (fl_not_NaN x), (fl_nonneg x Hx). reflexivity.
Qed.

Lemma toString_safe_integer (z : Z) :
  (Z.abs z < 2 ^ 53)%Z -> toString (Finite (inject_Z z)) = pretty z.
Proof.
  intros Hz. unfold toString, isSafeInteger. rewrite Qfloor_Z.
  assert (E : Qeq_bool (inject_Z z) (inject_Z z) = true) by (apply Qeq_bool_iff; reflexivity).
  rewrite E. apply Z.ltb_lt in Hz. now rewrite Hz.
Qed.

(** The arithmetic and the decimal form on numbers whose results are
    known: 1/3, 0.3 - 0.1, 7 * 1.1, the largest number times 2, and the
    forms that [toString] chooses by the size of the number. *)
Example arithmetic_samples :
  toString (div (Finite 1) (Finite 3)) = "0.3333333333333333"
  /\ toString (sub (fl 0.3) (fl 0.1)) = "0.19999999999999998"
  /\ toString (mul (Finite 7) (fl 1.1)) = "7.700000000000001"
  /\ mul (fl (17976931348623157 * 10 ^ 292)) (Finite 2) = PosInfinity
  /\ toString (div (Finite 0) (Finite 0)) = "NaN"
  /\ toString (Finite 7.5) = "7.5"
  /\ toString (fl (2 ^ 70)) = "1.1805916207174113e+21"
  /\ toString (fl (2 ^ 60)) = "1152921504606847000"
  /\ toString (fl (10 ^ 21)) = "1e+21"
  /\ toString (fl (123 # 100000000)) = "0.00000123"
  /\ toString (fl (1 # 10000000)) = "1e-7"
  /\ toString (Finite (pow2 (-1074))) = "5e-324".
Proof. vm_compute. repeat split. Qed.

(** On safe integers the decimal numeral is what the shortest decimal
    gives. *)
Example toStringFinite_safe_integers :
  forallb (fun z => String.eqb (toStringFinite (inject_Z z)) (pretty z))
    [ 0; 1; 9; 10; 59; 60; 100; 1000; 123456789; 1234567890123456;
      9007199254740991; -1; -60; -9007199254740991 ]%Z = true.
Proof. vm_compute. reflexivity. Qed.

Lemma Qtrunc_nonneg (x : Q) : (0 <= Qnum x)%Z -> Qtrunc x = Qfloor x.
Proof.
  destruct x as [n d]. simpl. intros Hn.
  unfold Qtrunc. simpl. apply Z.quot_div_nonneg; lia.
Qed.

(** [s % 60] for [0 <= s] is the remainder of the division rounded down. *)
Lemma rem_60_nonneg (s : Q) :
  0 <= s -> rem (Finite s) (Finite 60) = Finite (Spec.Qmod s 60).
Proof.
  intros Hs. unfold rem, Spec.Qmod.
  change (Qeq_bool 60 0) with false. cbv iota.
  rewrite Qtrunc_nonneg; [reflexivity|].
  destruct s as [n d]. unfold Qle in Hs. simpl in *. lia.
Qed.

Lemma mul_not_NaN (x : Q) (b : number) :
  ~ x == 0 -> isNaN b = false -> isNaN (mul (Finite x) b) = false.
Proof.
  intros Hx Hb.
  assert (E : Qeq_bool x 0 = false).
  { apply not_true_is_false. intros E. now apply Qeq_bool_iff in E. }
  destruct b as [y | | |]; simpl; rewrite ?E; try discriminate Hb.
  - apply fl_not_NaN.
  - now destruct (isNegative x).
  - now destruct (isNegative x).
Qed.

Lemma div_100_not_NaN (a : number) :
  isNaN a = false -> isNaN (div a (Finite 100)) = false.
Proof.
  destruct a as [x | | |]; intros Ha; try discriminate Ha; try reflexivity.
  unfold div. change (Qeq_bool 100 0) with false. cbv iota. apply fl_not_NaN.
Qed.

Lemma Math_ceil_not_NaN (a : number) : isNaN (Math_ceil a) = isNaN a.
Proof. now destruct a. Qed.

(** What [Math.max(1, Math.min(x, est))] is for a number [x] that is not
    NaN: a number between 1 and [est]. *)
Lemma clamp_range (x : number) (est : Q) :
  isNaN x = false -> 1 <= est ->
  exists m : Q,
    Math_max (Finite 1) (Math_min x (Finite est)) = Finite m /\ 1 <= m /\ m <= est.
Proof.
  intros Hx Hest.
  assert (Hle : forall a b : Q, Qle_bool a b = false -> b < a).
  { intros a b H. apply Qnot_le_lt. intros H'. apply Qle_bool_iff in H'. congruence. }
  unfold Math_min. rewrite Hx. cbn [isNaN orb].
  destruct x as [v | | |]; try discriminate Hx; cbn [leb].
  - destruct (Qle_bool v est) eqn:E.
    + apply Qle_bool_iff in E. unfold Math_max. cbn [isNaN orb leb].
      destruct (Qle_bool 1 v) eqn:E1.
      * apply Qle_bool_iff in E1. exists v. tauto.
      * exists 1. repeat split; [lra | exact Hest].
    + unfold Math_max. cbn [isNaN orb leb].
      destruct (Qle_bool 1 est) eqn:E1.
      * exists est. repeat split; [exact Hest | lra].
      * exists 1. repeat split; [lra | exact Hest].
  - unfold Math_max. cbn [isNaN orb leb].
    destruct (Qle_bool 1 est) eqn:E1.
    + exists est. repeat split; [exact Hest | lra].
    + exists 1. repeat split; [lra | exact Hest].
  - unfold Math_max. cbn [isNaN orb leb].
    exists 1. repeat split; [lra | exact Hest].
Qed.

End Binary64Facts.

(** ** Clip time formatters *)

Lemma Qmod_60_bounds (s : Q) : 0 <= Spec.Qmod s 60 /\ Spec.Qmod s 60 < 60.
Proof.
  unfold Spec.Qmod.
  pose proof (Qfloor_le (s / 60)) as Hlo.
  pose proof (Qlt_floor (s / 60)) as Hhi.
  rewrite inject_Z_plus in Hhi. change (inject_Z 1) with 1 in Hhi.
  assert (Hs : s == 60 * (s / 60)) by (field).
  set (k := inject_Z (Qfloor (s / 60))) in *.
  set (q := s / 60) in *.
  split; lra.
Qed.

Lemma seconds_field_range (s : Q) :
  (0 <= Qfloor (Spec.Qmod s 60) <= 59)%Z.
Proof.
  destruct (Qmod_60_bounds s) as [Hlo Hhi].
  split.
  - change 0%Z with (Qfloor 0). now apply Qfloor_resp_le.
  - assert (H : (Qfloor (Spec.Qmod s 60) < 60)%Z).
    { rewrite Zlt_Qlt. eapply Qle_lt_trans; [apply Qfloor_le | exact Hhi]. }
    lia.
Qed.

Lemma padStart_two_digits (n : Z) :
  (0 <= n <= 59)%Z -> padStart 2 "0" (pretty n) = Spec.two_digits n.
Proof.
  intros Hn.
  assert (Hall : forallb (fun k => String.eqb (padStart 2 "0" (pretty (Z.of_nat k)))
                                              (Spec.two_digits (Z.of_nat k)))
                         (seq 0 60) = true) by (vm_compute; reflexivity).
  rewrite forallb_forall in Hall.
  specialize (Hall (Z.to_nat n)).
  rewrite Z2Nat.id in Hall by lia.
  apply String.eqb_eq, Hall, in_seq. lia.
Qed.

(** The seconds field of [formatTime], for every finite [s >= 0]. *)
Lemma formatTime_seconds_field (s : Q) :
  0 <= s ->
  VideoProcessor.formatTime (Binary64.Finite s) =
    Binary64.toString
      (Binary64.Math_floor (Binary64.div (Binary64.Finite s) (Binary64.Finite 60)))
    +:+ ":" +:+ Spec.two_digits (Qfloor (Spec.Qmod s 60)).
Proof.
  intros Hs. unfold VideoProcessor.formatTime. cbv zeta.
  rewrite (Binary64Facts.rem_60_nonneg s Hs). cbn [Binary64.Math_floor].
  pose proof (seconds_field_range s) as Hr.
  rewrite Binary64Facts.toString_safe_integer by lia.
  now rewrite padStart_two_digits.
Qed.

(** The minutes field, for the binary64 numbers below 2^53. *)
Lemma formatTime_minutes_field (s : Q) :
  Binary64.isBinary64 s -> 0 <= s -> s < inject_Z (2 ^ 53) ->
  Binary64.toString
    (Binary64.Math_floor (Binary64.div (Binary64.Finite s) (Binary64.Finite 60)))
  = pretty (Qfloor (s / 60)).
Proof.
  intros Hb H0 H53.
  pose proof (Binary64Facts.floor_round64_div60 s Hb H0 H53) as Hfloor.
  assert (Hq0 : 0 <= s / 60) by (apply Qle_shift_div_l; [reflexivity | lra]).
  pose proof (Binary64Facts.round64_nonneg _ Hq0) as Hr0.
  pose proof (Qlt_floor (Binary64.round64 (s / 60))) as Hr1.
  pose proof (Qfloor_le (s / 60)) as Hf.
  rewrite Hfloor, inject_Z_plus in Hr1. change (inject_Z 1) with 1 in Hr1.
  assert (Hq53 : s / 60 < inject_Z (2 ^ 53)).
  { apply Qlt_shift_div_r; [reflexivity|].
    assert (0 <= inject_Z (2 ^ 53)) by discriminate. lra. }
  assert (Hfl : Binary64.fl (s / 60) = Binary64.Finite (Binary64.round64 (s / 60))).
  { apply Binary64Facts.fl_finite.
    - assert (- Binary64.pow2 1024 < 0) by reflexivity. lra.
    - assert (inject_Z (2 ^ 53) + 1 < Binary64.pow2 1024) by reflexivity. lra. }
  unfold Binary64.div. change (Qeq_bool 60 0) with false. cbv iota.
  rewrite Hfl. cbn [Binary64.Math_floor]. rewrite Hfloor.
  apply Binary64Facts.toString_safe_integer.
  assert (H1 : (0 <= Qfloor (s / 60))%Z).
  { change 0%Z with (Qfloor 0). now apply Qfloor_resp_le. }
  assert (H2 : (Qfloor (s / 60) < 2 ^ 53)%Z).
  { rewrite Zlt_Qlt. eapply Qle_lt_trans; [exact Hf | exact Hq53]. }
  lia.
Qed.

(** C8, amended.  [formatTime] (VideoProcessor) and [formatDuration]
    (FolderDetail) are the same function.  For every finite number of
    seconds [s >= 0] the seconds field is floor(s mod 60) written with two
    digits, between 00 and 59; for every binary64 number [0 <= s < 2^53]
    both return floor(s/60), then ':', then that seconds field.  For
    every [s >= 0] the minutes are the floor of the binary64 quotient, in
    the form that [toString] gives it. *)
Theorem formatTime_formatDuration_clock (s : Q) :
  0 <= s ->
  (forall x : Binary64.number,
      VideoProcessor.formatTime x = FolderDetail.formatDuration x)
  /\ VideoProcessor.formatTime (Binary64.Finite s) =
       Binary64.toString
         (Binary64.Math_floor (Binary64.div (Binary64.Finite s) (Binary64.Finite 60)))
       +:+ ":" +:+ Spec.two_digits (Qfloor (Spec.Qmod s 60))
  /\ (0 <= Qfloor (Spec.Qmod s 60) <= 59)%Z
  /\ (Binary64.isBinary64 s -> s < inject_Z (2 ^ 53) ->
      VideoProcessor.formatTime (Binary64.Finite s) = Spec.clock s
      /\ FolderDetail.formatDuration (Binary64.Finite s) = Spec.clock s).
Proof.
  intros Hs. split; [reflexivity|]. split; [|split; [apply seconds_field_range|]].
  - apply (formatTime_seconds_field s Hs).
  - intros Hb H53.
    assert (Hfmt : VideoProcessor.formatTime (Binary64.Finite s) = Spec.clock s).
    { rewrite (formatTime_seconds_field s Hs).
      rewrite (formatTime_minutes_field s Hb Hs H53). reflexivity. }
    split; exact Hfmt.
Qed.

Lemma formatTime_formatDuration_clock_witness :
  0 <= 125.5
  /\ VideoProcessor.formatTime (Binary64.Finite 125.5) = "2:05"
  /\ FolderDetail.formatDuration (Binary64.Finite 125.5) = "2:05".
Proof.
  assert (H0 : 0 <= 125.5) by (unfold Qle; simpl; lia).
  assert (Hb : Binary64.isBinary64 125.5).
  { exists 251%Z, (-1)%Z. split; [reflexivity|]. split; [lia | reflexivity]. }
  destruct (formatTime_formatDuration_clock 125.5 H0) as (_ & _ & _ & Hclock).
  destruct (Hclock Hb eq_refl) as [Hv Hd].
  split; [exact H0|]. split.
  - rewrite Hv. vm_compute. reflexivity.
  - rewrite Hd. vm_compute. reflexivity.
Defined.

(** C8 as stated fails.  10^21 is a binary64 number; its quotient by 60
    is rounded to 53 bits and printed with 17 digits, so that the minutes
    shown are not floor(s/60).  For the number that [6e22] denotes the
    minutes are shown with an exponent. *)
Lemma formatTime_large_counterexample :
  Binary64.round64 (10 ^ 21) == 10 ^ 21
  /\ VideoProcessor.formatTime (Binary64.Finite (10 ^ 21)) = "16666666666666666000:40"
  /\ Spec.clock (10 ^ 21) = "16666666666666666666:40"
  /\ VideoProcessor.formatTime (Binary64.Finite (10 ^ 21)) <> Spec.clock (10 ^ 21)
  /\ VideoProcessor.formatTime (Binary64.Finite (Binary64.round64 (6 * 10 ^ 22)))
     = "1e+21:00".
Proof.
  assert (H1 : VideoProcessor.formatTime (Binary64.Finite (10 ^ 21))
               = "16666666666666666000:40") by (vm_compute; reflexivity).
  assert (H2 : Spec.clock (10 ^ 21) = "16666666666666666666:40")
    by (vm_compute; reflexivity).
  split; [vm_compute; reflexivity|]. split; [exact H1|]. split; [exact H2|].
  split; [rewrite H1, H2; discriminate | vm_compute; reflexivity].
Qed.

(** ** The wait display *)

Import VideoProcessor.

Lemma stageTimeMap_values (k : string) (v : Q) :
  stageTimeMap !! k = Some v -> In v [8; 7.5; 7; 6; 5; 3; 1; 2].
Proof.
  unfold stageTimeMap. intros H.
  apply elem_of_list_to_map_2, list_elem_of_In in H. simpl in H.
  repeat (destruct H as [H | H]; [injection H as _ <-; simpl; tauto |]).
  destruct H.
Qed.

Lemma stageTimeMap_range (k : string) (v : Q) :
  stageTimeMap !! k = Some v -> 1 <= v /\ v <= 8.
Proof.
  intros H. apply stageTimeMap_values in H. simpl in H.
  repeat (destruct H as [<- | H]; [split; unfold Qle; simpl; lia |]).
  destruct H.
Qed.

Lemma stageTimeMap_not_inherited (k : string) :
  inheritsKey k = true -> stageTimeMap !! k = None.
Proof.
  unfold inheritsKey. intros H. apply existsb_exists in H.
  destruct H as (x & Hin & Hx). apply String.eqb_eq in Hx. subst x. simpl in Hin.
  repeat (destruct Hin as [<- | Hin]; [reflexivity |]). destruct Hin.
Qed.

(** For a name that is not inherited: the entry of the stage, or 6. *)
Lemma estimatedTotalTime_own (task : ProcessingTask) :
  inheritsKey (currentStage task) = false ->
  estimatedTotalTime task
  = Binary64.Finite (default 6 (stageTimeMap !! currentStage task)).
Proof.
  intros Hown. unfold estimatedTotalTime, stageTimeLookup.
  destruct (stageTimeMap !! currentStage task) as [v|] eqn:Hv.
  - simpl. destruct (truthy_number v) eqn:Ht; [reflexivity|].
    apply stageTimeMap_range in Hv. destruct Hv as [Hv _].
    unfold truthy_number in Ht. apply negb_false_iff, Qeq_bool_iff in Ht.
    rewrite Ht in Hv. unfold Qle in Hv. simpl in Hv. lia.
  - now rewrite Hown.
Qed.

Lemma estimatedTotalTime_inherited (task : ProcessingTask) :
  inheritsKey (currentStage task) = true ->
  estimatedTotalTime task = Binary64.NaN.
Proof.
  intros Hin. unfold estimatedTotalTime, stageTimeLookup.
  now rewrite (stageTimeMap_not_inherited _ Hin), Hin.
Qed.

Lemma default_stage_time_values (k : string) :
  In (default 6 (stageTimeMap !! k)) [8; 7.5; 7; 6; 5; 3; 1; 2].
Proof.
  destruct (stageTimeMap !! k) as [v|] eqn:Hv; simpl default.
  - now apply (stageTimeMap_values k).
  - simpl. tauto.
Qed.

Lemma default_stage_time_range (k : string) :
  1 <= default 6 (stageTimeMap !! k) /\ default 6 (stageTimeMap !! k) <= 8.
Proof.
  destruct (stageTimeMap !! k) as [v|] eqn:Hv; simpl.
  - now apply (stageTimeMap_range k).
  - split; unfold Qle; simpl; lia.
Qed.

(** The minutes computed follow the formula, in binary64 arithmetic. *)
Lemma displayMinutes_formula (task : ProcessingTask) (est : Q) :
  progress task <= 100 ->
  estimatedTotalTime task = Binary64.Finite est ->
  displayMinutes task = Spec.waitMinutes64 est (progress task).
Proof.
  intros Hp Hest. unfold displayMinutes, Spec.waitMinutes64. cbv zeta.
  rewrite Hest. cbn [Binary64.sub].
  assert (E : 100 - or_number (Some (progress task)) 0 == 100 - progress task)
    by now rewrite or_number_Qeq.
  rewrite (Binary64Facts.fl_comp _ _ E).
  rewrite Binary64Facts.Math_max_0_fl by lra. reflexivity.
Qed.

Lemma waitMinutes64_comp (est p p' : Q) :
  p == p' -> Spec.waitMinutes64 est p = Spec.waitMinutes64 est p'.
Proof.
  intros H. unfold Spec.waitMinutes64. cbn [Binary64.sub].
  assert (E : 100 - p == 100 - p') by now rewrite H.
  now rewrite (Binary64Facts.fl_comp _ _ E).
Qed.

Lemma waitMinutes_comp (est p p' : Q) :
  p == p' -> Spec.waitMinutes est p == Spec.waitMinutes est p'.
Proof.
  intros H. unfold Spec.waitMinutes.
  assert (E : est * (100 - p) / 100 == est * (100 - p') / 100) by now rewrite H.
  now rewrite (Qceiling_comp _ _ E).
Qed.

Lemma waitMinutes64_range (est p : Q) :
  1 <= est ->
  exists m : Q, Spec.waitMinutes64 est p = Binary64.Finite m /\ 1 <= m /\ m <= est.
Proof.
  intros Hest. unfold Spec.waitMinutes64.
  apply Binary64Facts.clamp_range; [|exact Hest].
  rewrite Binary64Facts.Math_ceil_not_NaN.
  apply Binary64Facts.div_100_not_NaN, Binary64Facts.mul_not_NaN.
  - intros E. rewrite E in Hest. unfold Qle in Hest. simpl in Hest. lia.
  - cbn [Binary64.sub]. apply Binary64Facts.fl_not_NaN.
Qed.

(** With a whole number of percent the arithmetic is exact where it
    matters: the minutes are those of the formula over the reals. *)
Lemma waitMinutes64_whole_percent (est m : Q) (n : Z) :
  In est [8; 7.5; 7; 6; 5; 3; 1; 2] -> (0 <= n <= 100)%Z ->
  Spec.waitMinutes64 est (inject_Z n) = Binary64.Finite m ->
  m == Spec.waitMinutes est (inject_Z n).
Proof.
  intros Hest Hn Hm.
  assert (Hall :
    forallb (fun e =>
      forallb (fun k =>
        match Spec.waitMinutes64 e (inject_Z (Z.of_nat k)) with
        | Binary64.Finite m' =>
            Qeq_bool m' (Spec.waitMinutes e (inject_Z (Z.of_nat k)))
        | _ => false
        end) (seq 0 101)) [8; 7.5; 7; 6; 5; 3; 1; 2] = true)
    by (vm_compute; reflexivity).
  rewrite forallb_forall in Hall. specialize (Hall est Hest).
  rewrite forallb_forall in Hall. specialize (Hall (Z.to_nat n)).
  rewrite Z2Nat.id in Hall by lia.
  assert (Hin : In (Z.to_nat n) (seq 0 101)) by (apply in_seq; lia).
  specialize (Hall Hin). rewrite Hm in Hall. now apply Qeq_bool_iff.
Qed.

Lemma getWaitTimeDisplay_running (task : ProcessingTask) :
  status task <> "done" -> status task <> "failed" ->
  getWaitTimeDisplay task =
    if Binary64.eqb (displayMinutes task) (Binary64.Finite 1)
    then "Almost done! 1 min ⏳"
    else "Wait: " +:+ Binary64.toString (displayMinutes task) +:+ " min ⏳".
Proof.
  intros Hd Hf. unfold getWaitTimeDisplay.
  apply String.eqb_neq in Hd, Hf. rewrite Hd, Hf. cbv zeta.
  destruct (Binary64.eqb (displayMinutes task) (Binary64.Finite 1)); [reflexivity|].
  repeat match goal with |- context [if ?b then _ else _] => destruct b end;
    reflexivity.
Qed.

Lemma currentStage_cases (task : ProcessingTask) :
  (stage task <> EmptyString -> currentStage task = stage task)
  /\ (stage task = EmptyString ->
      forall step, current_step task = Some step -> step <> EmptyString ->
                   currentStage task = step)
  /\ (stage task = EmptyString ->
      current_step task = None \/ current_step task = Some EmptyString ->
      currentStage task = "processing").
Proof.
  unfold currentStage. split; [|split].
  - intros H. destruct (stage task); [congruence | reflexivity].
  - intros -> step -> H. simpl. destruct step; [congruence | reflexivity].
  - intros -> [-> | ->]; reflexivity.
Qed.

(** C9, amended.  A done task shows 'Ready! 🎉' and a failed one
    'Failed ❌'.  The stage of another task is its [stage], else its
    [current_step], else 'processing'.  When that name is not one that
    [stageTimeMap] inherits from [Object.prototype] and the progress lies in
    [0, 100], [estimatedTotalTime] is the entry of the stage in the map
    (default 6, between 1 and 8) and [getWaitTimeDisplay] shows
    max(1, min(ceil(estimatedTotalTime * (100 - progress) / 100), estimatedTotalTime))
    minutes, computed in binary64 arithmetic: a number between 1 and
    [estimatedTotalTime], which is the value of the formula over the reals
    whenever the progress is a whole number. *)
Theorem getWaitTimeDisplay_minutes (task : ProcessingTask) :
  (status task = "done" -> getWaitTimeDisplay task = "Ready! 🎉")
  /\ (status task = "failed" -> getWaitTimeDisplay task = "Failed ❌")
  /\ (stage task <> EmptyString -> currentStage task = stage task)
  /\ (stage task = EmptyString ->
      forall step, current_step task = Some step -> step <> EmptyString ->
                   currentStage task = step)
  /\ (stage task = EmptyString ->
      current_step task = None \/ current_step task = Some EmptyString ->
      currentStage task = "processing")
  /\ (status task <> "done" -> status task <> "failed" ->
      0 <= progress task -> progress task <= 100 ->
      inheritsKey (currentStage task) = false ->
      let est := default 6 (stageTimeMap !! currentStage task) in
      estimatedTotalTime task = Binary64.Finite est
      /\ 1 <= est /\ est <= 8
      /\ exists m : Q,
           displayMinutes task = Binary64.Finite m
           /\ Spec.waitMinutes64 est (progress task) = Binary64.Finite m
           /\ 1 <= m /\ m <= est
           /\ (forall n : Z,
                 progress task == inject_Z n ->
                 m == Spec.waitMinutes est (progress task))
           /\ getWaitTimeDisplay task =
                if Qeq_bool m 1 then "Almost done! 1 min ⏳"
                else "Wait: " +:+ Binary64.toString (Binary64.Finite m) +:+ " min ⏳").
Proof.
  destruct (currentStage_cases task) as (S1 & S2 & S3).
  split; [|split; [|split; [exact S1 | split; [exact S2 | split; [exact S3 |]]]]].
  - intros H. unfold getWaitTimeDisplay. now rewrite H.
  - intros H. unfold getWaitTimeDisplay. now rewrite H.
  - intros Hd Hf Hp0 Hp100 Hown est.
    pose proof (estimatedTotalTime_own task Hown) as Hest. fold est in Hest.
    destruct (default_stage_time_range (currentStage task)) as [He1 He8].
    fold est in He1, He8.
    pose proof (displayMinutes_formula task est Hp100 Hest) as Hm.
    destruct (waitMinutes64_range est (progress task) He1) as (m & Hw & Hm1 & Hm2).
    split; [exact Hest|]. split; [exact He1|]. split; [exact He8|].
    exists m. split; [now rewrite Hm|]. split; [exact Hw|].
    split; [exact Hm1|]. split; [exact Hm2|]. split.
    + intros n Hn.
      assert (Hn100 : (0 <= n <= 100)%Z).
      { rewrite Hn in Hp0, Hp100. change 0 with (inject_Z 0) in Hp0.
        change 100 with (inject_Z 100) in Hp100.
        rewrite <- Zle_Qle in Hp0, Hp100. lia. }
      rewrite (waitMinutes_comp est _ _ Hn).
      apply (waitMinutes64_whole_percent est m n); [|exact Hn100|].
      * apply default_stage_time_values.
      * now rewrite <- (waitMinutes64_comp est _ _ Hn).
    + rewrite (getWaitTimeDisplay_running task Hd Hf), Hm, Hw. reflexivity.
Qed.

(** A stage with the name of a member of [Object.prototype] has no
    minutes: the lookup finds the member, which is not a number. *)
Lemma getWaitTimeDisplay_inherited (task : ProcessingTask) :
  status task <> "done" -> status task <> "failed" ->
  inheritsKey (currentStage task) = true ->
  getWaitTimeDisplay task = "Wait: NaN min ⏳".
Proof.
  intros Hd Hf Hin.
  rewrite (getWaitTimeDisplay_running task Hd Hf).
  unfold displayMinutes. cbv zeta.
  rewrite (estimatedTotalTime_inherited task Hin).
  unfold Binary64.Math_min, Binary64.Math_max. cbn [Binary64.isNaN].
  rewrite !orb_true_r. reflexivity.
Qed.

Lemma getWaitTimeDisplay_minutes_witness :
  getWaitTimeDisplay Examples.halfwayTask = "Wait: 4 min ⏳".
Proof.
  destruct (getWaitTimeDisplay_minutes Examples.halfwayTask)
    as (_ & _ & _ & _ & _ & H).
  destruct H as (_ & _ & _ & m & Hm & _ & _ & _ & _ & Hg).
  - simpl. discriminate.
  - simpl. discriminate.
  - unfold Qle. simpl. lia.
  - unfold Qle. simpl. lia.
  - reflexivity.
  - rewrite Hg. assert (E : Binary64.Finite m = Binary64.Finite 4).
    { rewrite <- Hm. vm_compute. reflexivity. }
    injection E as ->. vm_compute. reflexivity.
Defined.

(** C9 as stated fails.  Four sevenths of the way through the download
    (progress 57.14285714285714, stage 'download' with 7 minutes) the
    formula gives ceil(7 * 42.85714285714286 / 100) = ceil(3.0000000000000002) = 4
    minutes, while the client, whose product 7 * (100 - progress) is rounded
    to 300, shows 3.  For a stage named 'constructor' the client shows no
    number at all. *)
Lemma getWaitTimeDisplay_rounding_counterexample :
  Binary64.round64 (progress Examples.downloadingTask)
    == progress Examples.downloadingTask
  /\ 0 <= progress Examples.downloadingTask
  /\ progress Examples.downloadingTask <= 100
  /\ stageTimeMap !! currentStage Examples.downloadingTask = Some 7
  /\ Spec.waitMinutes 7 (progress Examples.downloadingTask) == 4
  /\ getWaitTimeDisplay Examples.downloadingTask = "Wait: 3 min ⏳"
  /\ getWaitTimeDisplay Examples.constructorTask = "Wait: NaN min ⏳".
Proof.
  split; [vm_compute; reflexivity|].
  split; [unfold Qle; simpl; lia|].
  split; [unfold Qle; simpl; lia|].
  split; [reflexivity|].
  split; [vm_compute; reflexivity|].
  split; vm_compute; reflexivity.
Qed.

(** ** Language detection *)

Lemma prefix_app (p s : string) :
  String.prefix p s = true <-> exists rest, s = p +:+ rest.
Proof.
  revert s. induction p as [|c p IH]; intros s; simpl.
  - split; [intros _; now exists s | intros _; now destruct s].
  - destruct s as [|d s]; simpl.
    + split; [discriminate | intros [rest H]; discriminate H].
    + destruct (Ascii.ascii_dec c d) as [->|Hne].
      * rewrite IH. split; intros [rest H]; exists rest.
        -- now rewrite H.
        -- now injection H.
      * split; [discriminate|]. intros [rest H]. injection H as H1 _. congruence.
Qed.

Lemma includes_app (s t : string) :
  includes s t = true <-> exists before after, s = before +:+ t +:+ after.
Proof.
  induction s as [|c s IH].
  - cbn [includes]. rewrite orb_false_r, prefix_app. split.
    + intros [rest H]. now exists EmptyString, rest.
    + intros [before [after H]]. destruct before as [|b before]; [|discriminate H].
      now exists after.
  - cbn [includes]. rewrite orb_true_iff, prefix_app, IH. split.
    + intros [[rest H] | [before [after H]]].
      * now exists EmptyString, rest.
      * exists (String c before), after. simpl. now rewrite H.
    + intros [before [after H]]. destruct before as [|b before].
      * left. now exists after.
      * right. injection H as _ H. now exists before, after.
Qed.

Lemma looksRussian_spec (lang : string) :
  I18n.looksRussian lang = true <-> Spec.russianFamilyOrRegion (toLowerCase lang).
Proof.
  unfold I18n.looksRussian, Spec.russianFamilyOrRegion, Spec.russianFamily, startsWith.
  cbv zeta. rewrite !orb_true_iff, prefix_app, includes_app, !String.eqb_eq.
  tauto.
Qed.

Lemma scanLanguages_spec (langs : list string) :
  (I18n.scanLanguages langs = Some I18n.ru
   <-> exists lang, In lang langs /\ I18n.looksRussian lang = true)
  /\ (I18n.scanLanguages langs = Some I18n.ru \/ I18n.scanLanguages langs = None).
Proof.
  induction langs as [|l langs [IH1 IH2]]; simpl.
  - split; [|now right]. split; [discriminate | intros [lang [[] _]]].
  - destruct (I18n.looksRussian l) eqn:Hl.
    + split; [|now left]. split; [|reflexivity]. intros _. exists l. auto.
    + split; [|exact IH2]. rewrite IH1. split.
      * intros [lang [Hin Hlang]]. exists lang. auto.
      * intros [lang [[<- | Hin] Hlang]]; [congruence|]. exists lang. auto.
Qed.

Lemma detectLanguage_unsaved (env : I18n.Environment) :
  getItem "cliplink_language" (I18n.localStorage env) <> Some "en" ->
  getItem "cliplink_language" (I18n.localStorage env) <> Some "ru" ->
  fst (I18n.detectLanguage env) =
    match I18n.scanLanguages (I18n.browserLangs env) with
    | Some l => l
    | None => I18n.en
    end.
Proof.
  intros Hen Hru. unfold I18n.detectLanguage. cbv zeta.
  assert (Hscan :
    fst (match I18n.scanLanguages (I18n.browserLangs env) with
         | Some l => (l, I18n.localStorage env)
         | None =>
             match I18n.timeZone env with
             | Some tz =>
                 if existsb (String.eqb tz) I18n.russianTimezones
                 then (I18n.en, setItem "cliplink_timezone_suggests_ru" "true"
                                        (I18n.localStorage env))
                 else (I18n.en, I18n.localStorage env)
             | None => (I18n.en, I18n.localStorage env)
             end
         end)
    = match I18n.scanLanguages (I18n.browserLangs env) with
      | Some l => l
      | None => I18n.en
      end).
  { destruct (I18n.scanLanguages (I18n.browserLangs env)); [reflexivity|].
    destruct (I18n.timeZone env) as [tz|]; [|reflexivity].
    destruct (existsb (String.eqb tz) I18n.russianTimezones); reflexivity. }
  destruct (getItem "cliplink_language" (I18n.localStorage env)) as [v|] eqn:Hv;
    [|exact Hscan].
  destruct (String.eqb v "en") eqn:E1; [apply String.eqb_eq in E1; congruence|].
  destruct (String.eqb v "ru") eqn:E2; [apply String.eqb_eq in E2; congruence|].
  revert E1 E2 Hscan. clear.
  repeat (let c := fresh "c" in
          destruct v as [|c v]; [intros; exact Hscan|];
          destruct c as [[] [] [] [] [] [] [] []]; try (intros; exact Hscan));
    try (destruct v; intros; try exact Hscan; simpl in *; discriminate).
Qed.

(** C10 as stated fails: with no saved language and the single browser
    language [kru-IN], which neither starts with 'ru' nor is one of the five
    two-letter codes, [detectLanguage] returns 'ru', because the tag
    contains ['ru-']. *)
Lemma detectLanguage_kurukh_counterexample :
  ~ Spec.detectsByFamily Examples.kurukhBrowser.
Proof.
  unfold Spec.detectsByFamily. intros [Hru _].
  destruct (Hru eq_refl) as [lang [Hin Hfam]].
  simpl in Hin. destruct Hin as [<- | []].
  unfold Spec.russianFamily in Hfam. simpl in Hfam.
  destruct Hfam as [[rest H] | [H | [H | [H | [H | H]]]]]; discriminate H.
Qed.

(** C10, amended.  A saved language 'en' or 'ru' under the key
    [cliplink_language] is returned as it is, whatever the browser languages
    and the time zone.  Without one, [detectLanguage] returns 'ru' if and
    only if some browser language, in lower case, starts with 'ru', contains
    'ru-', or is exactly 'be', 'kk', 'ky', 'uz' or 'uk'; otherwise it
    returns 'en'. *)
Theorem detectLanguage_saved_or_browser (env : I18n.Environment) :
  let saved := getItem "cliplink_language" (I18n.localStorage env) in
  let browserRussian :=
    exists lang, In lang (I18n.browserLangs env)
                 /\ Spec.russianFamilyOrRegion (toLowerCase lang) in
  (saved = Some "en" -> fst (I18n.detectLanguage env) = I18n.en)
  /\ (saved = Some "ru" -> fst (I18n.detectLanguage env) = I18n.ru)
  /\ (saved <> Some "en" -> saved <> Some "ru" ->
      (fst (I18n.detectLanguage env) = I18n.ru <-> browserRussian)
      /\ (fst (I18n.detectLanguage env) = I18n.en <-> ~ browserRussian)).
Proof.
  intros saved browserRussian. split; [|split].
  - intros H. unfold I18n.detectLanguage. cbv zeta. fold saved. now rewrite H.
  - intros H. unfold I18n.detectLanguage. cbv zeta. fold saved. now rewrite H.
  - intros Hen Hru. rewrite (detectLanguage_unsaved env Hen Hru).
    destruct (scanLanguages_spec (I18n.browserLangs env)) as [Hscan Hcases].
    assert (Hbr : browserRussian
                  <-> exists lang, In lang (I18n.browserLangs env)
                                   /\ I18n.looksRussian lang = true).
    { unfold browserRussian. split; intros [lang [Hin Hl]]; exists lang; split;
        try assumption; now apply looksRussian_spec. }
    rewrite Hbr, <- Hscan.
    destruct Hcases as [-> | ->]; split; split; try congruence; try tauto.
Qed.

Lemma detectLanguage_saved_or_browser_witness :
  fst (I18n.detectLanguage Examples.minskBrowser) = I18n.ru.
Proof.
  destruct (detectLanguage_saved_or_browser Examples.minskBrowser) as [_ [_ H]].
  destruct H as [[_ Hru] _].
  - simpl. discriminate.
  - simpl. discriminate.
  - apply Hru. exists "be". split.
    + simpl. right. left. reflexivity.
    + left. right. left. reflexivity.
Defined.

(** ** Polling the status endpoint *)

Section PollProperties.
Context (API_BASE_URL : string) (JSON_stringify : ProcessingTask -> string).

Local Abbreviation tick := (pollTick API_BASE_URL JSON_stringify).
Local Abbreviation run := (pollRun API_BASE_URL JSON_stringify).

Lemma pollRun_app (rs rs' : list PollResponse) (st : PollState) :
  run (rs ++ rs') st = run rs' (run rs st).
Proof. unfold pollRun. apply fold_left_app. Qed.

Lemma pollRun_snoc (rs : list PollResponse) (r : PollResponse) (st : PollState) :
  run (rs ++ [r]) st = tick r (run rs st).
Proof. now rewrite pollRun_app. Qed.

Lemma pollRun_stopped (rs : list PollResponse) (st : PollState) :
  polling st = false -> run rs st = st.
Proof.
  induction rs as [|r rs IH]; intros Hst; [reflexivity|].
  unfold pollRun in *. simpl. unfold pollTick at 2. rewrite Hst. now apply IH.
Qed.

Lemma pollTick_failure (r : PollResponse) (st : PollState) :
  polling st = true -> isPollFailure r = true ->
  tick r st = onPollError API_BASE_URL r st.
Proof.
  intros Hp Hr. unfold pollTick. rewrite Hp. destruct r; try discriminate Hr; reflexivity.
Qed.

Lemma pollTick_handling_error (r : PollResponse) (st : PollState) :
  polling st = true -> throwsAfterReset r = true ->
  tick r st =
    {| taskId := taskId st; retryCount := 1; polling := true;
       currentTask := currentTask (beforeHandlingError r st);
       isProcessing := isProcessing st; hasActiveTask := hasActiveTask st;
       errorState := errorState st;
       localStorage := localStorage (beforeHandlingError r st);
       scheduledVideoFetches := scheduledVideoFetches st |}.
Proof.
  intros Hp Hr. unfold pollTick. rewrite Hp.
  destruct r; try discriminate Hr; unfold onPollError; simpl; now rewrite Hp.
Qed.


Lemma pollTick_ok (d : ProcessingTask) (st : PollState) :
  polling st = true -> tick (ResponseOk d) st = onTaskData JSON_stringify d st.
Proof. intros Hp. unfold pollTick. now rewrite Hp. Qed.

(** Failures below the bound only count. *)
Lemma pollRun_failures (rs : list PollResponse) :
  forall st : PollState,
    polling st = true ->
    forallb isPollFailure rs = true ->
    (retryCount st + length rs < maxRetries)%nat ->
    polling (run rs st) = true
    /\ retryCount (run rs st) = (retryCount st + length rs)%nat
    /\ errorState (run rs st) = errorState st
    /\ currentTask (run rs st) = currentTask st
    /\ isProcessing (run rs st) = isProcessing st
    /\ hasActiveTask (run rs st) = hasActiveTask st
    /\ localStorage (run rs st) = localStorage st
    /\ taskId (run rs st) = taskId st.
Proof.
  induction rs as [|r rs IH]; intros st Hp Hall Hlt.
  - simpl. rewrite Nat.add_0_r. tauto.
  - simpl in Hall. apply andb_prop in Hall. destruct Hall as [Hr Hall].
    simpl in Hlt.
    change (run (r :: rs) st) with (run rs (tick r st)).
    rewrite (pollTick_failure r st Hp Hr).
    assert (Hstep : onPollError API_BASE_URL r st =
              {| taskId := taskId st; retryCount := S (retryCount st);
                 polling := polling st; currentTask := currentTask st;
                 isProcessing := isProcessing st; hasActiveTask := hasActiveTask st;
                 errorState := errorState st; localStorage := localStorage st;
                 scheduledVideoFetches := scheduledVideoFetches st |}).
    { unfold onPollError. cbv zeta.
      destruct (Nat.leb_spec maxRetries (S (retryCount st))); [lia | reflexivity]. }
    rewrite Hstep.
    match goal with |- context [run rs ?st1] =>
      destruct (IH st1) as (H1 & H2 & H3 & H4 & H5 & H6 & H7 & H8)
    end; simpl; try assumption; try lia.
    simpl in *. repeat split; try assumption. lia.
Qed.


Lemma onTaskData_fields (d : ProcessingTask) (st : PollState) :
  let st' := onTaskData JSON_stringify d st in
  retryCount st' = 0%nat
  /\ currentTask st' = Some d
  /\ taskId st' = taskId st
  /\ (status d = "done" ->
      polling st' = false /\ isProcessing st' = false /\ hasActiveTask st' = false
      /\ errorState st' = errorState st
      /\ scheduledVideoFetches st' = S (scheduledVideoFetches st)
      /\ localStorage st' !! "cliplink_active_task_data" = None
      /\ localStorage st' !! "cliplink_active_task_id" = None)
  /\ (status d = "failed" ->
      polling st' = false /\ isProcessing st' = false /\ hasActiveTask st' = false
      /\ errorState st' = Some (or_string (error d) "Processing failed")
      /\ localStorage st' !! "cliplink_active_task_data" = None
      /\ localStorage st' !! "cliplink_active_task_id" = None)
  /\ (status d <> "done" -> status d <> "failed" ->
      polling st' = polling st /\ isProcessing st' = isProcessing st
      /\ hasActiveTask st' = hasActiveTask st
      /\ errorState st' = errorState st
      /\ localStorage st' !! "cliplink_active_task_data" = Some (JSON_stringify d)).
Proof.
  unfold onTaskData. cbv zeta.
  destruct (String.eqb_spec (status d) "done") as [Hd | Hd];
    [| destruct (String.eqb_spec (status d) "failed") as [Hf | Hf]]; simpl.
  - repeat split; try congruence; intros; try congruence;
      unfold clearActiveTask, removeItem, setItem;
      repeat split; try reflexivity; try congruence.
    + apply lookup_delete_eq.
    + rewrite lookup_delete_ne by discriminate. apply lookup_delete_eq.
  - repeat split; try congruence; intros; try congruence;
      unfold clearActiveTask, removeItem, setItem;
      repeat split; try reflexivity; try congruence.
    + apply lookup_delete_eq.
    + rewrite lookup_delete_ne by discriminate. apply lookup_delete_eq.
  - repeat split; try congruence; intros; try congruence.
    unfold setItem. apply lookup_insert_eq.
Qed.



(** C1, amended.  The task record keeps the clips and the error detail in
    separate fields, and the record received is the one shown.  A task is
    finished exactly when its status is 'done' or 'failed' (no other status,
    'partially completed' included, ends the polling): a task reported
    'done' is shown as completed and no error is set, whatever clips and
    error detail it carries, and only the status 'failed' shows the task as
    failed. *)
Theorem pollTaskProgress_final_status (st : PollState) (d : ProcessingTask) :
  polling st = true ->
  let st' := tick (ResponseOk d) st in
  (polling st' = false <-> status d = "done" \/ status d = "failed")
  /\ (currentTask st' = Some d)
  /\ (status d = "done" ->
      isProcessing st' = false /\ errorState st' = errorState st
      /\ scheduledVideoFetches st' = S (scheduledVideoFetches st))
  /\ (status d = "failed" ->
      isProcessing st' = false
      /\ errorState st' = Some (or_string (error d) "Processing failed")).
Proof.
  intros Hp st'. unfold st'. rewrite (pollTick_ok d st Hp).
  destruct (onTaskData_fields d st) as (_ & Tc & _ & Td & Tf & Tr).
  split; [|split; [exact Tc | split]].
  - split.
    + intros Hstop.
      destruct (String.eqb_spec (status d) "done") as [Hd | Hd]; [now left|].
      destruct (String.eqb_spec (status d) "failed") as [Hf | Hf]; [now right|].
      destruct (Tr Hd Hf) as (E & _). congruence.
    + intros [Hd | Hf]; [now destruct (Td Hd) | now destruct (Tf Hf)].
  - intros Hd. destruct (Td Hd) as (_ & E1 & _ & E2 & E3 & _). tauto.
  - intros Hf. destruct (Tf Hf) as (_ & E1 & _ & E2 & _). tauto.
Qed.


(** C7, amended.  The status record has the properties task_id, status
    (one value for the whole task), progress, stage, message, and the
    optional current_step, clips and error; the client keeps its copy
    current at every successful poll: whenever the polling is running, the
    record received replaces the one shown, and while the task is neither
    done nor failed it is also the copy kept in [localStorage]; a poll whose
    request fails leaves the record as it was. *)
Theorem status_record_follows_polls
    (st : PollState) (rs : list PollResponse) (d : ProcessingTask) (r : PollResponse) :
  polling (run rs st) = true ->
  isPollFailure r = true ->
  (forall name,
      In name ["task_id"; "status"; "progress"; "stage"; "message"] ->
      exists type, In (TsProp name false type) ProcessingTask_interface)
  /\ (forall name,
        In name ["current_step"; "clips"; "error"] ->
        exists type, In (TsProp name true type) ProcessingTask_interface)
  /\ In (TsProp "status" false (TsLiterals ProcessingTask_status_values))
        ProcessingTask_interface
  /\ currentTask (run (rs ++ [ResponseOk d]) st) = Some d
  /\ (status d <> "done" -> status d <> "failed" ->
      localStorage (run (rs ++ [ResponseOk d]) st) !! "cliplink_active_task_data"
      = Some (JSON_stringify d))
  /\ currentTask (run (rs ++ [r]) st) = currentTask (run rs st).
Proof.
  intros Hp Hr. split; [|split; [|split; [|split; [|split]]]].
  - intros name Hin. simpl in Hin.
    destruct Hin as [<- | [<- | [<- | [<- | [<- | []]]]]];
      eexists; simpl; eauto 10.
  - intros name Hin. simpl in Hin.
    destruct Hin as [<- | [<- | [<- | []]]];
      eexists; simpl; eauto 10.
  - simpl. auto.
  - rewrite pollRun_snoc.
    rewrite (pollTick_ok d _ Hp). now destruct (onTaskData_fields d (run rs st)) as (_ & E & _).
  - intros Hd Hf. rewrite pollRun_snoc.
    rewrite (pollTick_ok d _ Hp).
    destruct (onTaskData_fields d (run rs st)) as (_ & _ & _ & _ & _ & Tr).
    now destruct (Tr Hd Hf) as (_ & _ & _ & _ & E).
  - rewrite pollRun_snoc.
    rewrite (pollTick_failure r _ Hp Hr). unfold onPollError. cbv zeta.
    now destruct (maxRetries <=? S (retryCount (run rs st)))%nat.
Qed.

End PollProperties.


(** C1 as stated fails: the record of the finished sample task, with one
    clip and the error detail of a failed segment, ends the polling under
    the status 'done'; the polling does not even stop on a record whose
    status is 'partially completed'. *)
Lemma partially_completed_counterexample :
  ~ Spec.reportedPartiallyCompleted Examples.localhost Examples.stringifyTask
      Examples.startedPolling Examples.mixedTask
  /\ polling (pollTick Examples.localhost Examples.stringifyTask
                (ResponseOk Examples.partialTask) Examples.startedPolling) = true.
Proof.
  split; [|reflexivity].
  unfold Spec.reportedPartiallyCompleted. intros H.
  destruct H as [Hs _].
  - reflexivity.
  - eexists; eexists; reflexivity.
  - eexists; reflexivity.
  - discriminate Hs.
Qed.

Lemma pollTaskProgress_final_status_witness :
  polling (pollTick Examples.localhost Examples.stringifyTask
             (ResponseOk Examples.mixedTask) Examples.startedPolling) = false
  /\ errorState (pollTick Examples.localhost Examples.stringifyTask
                   (ResponseOk Examples.mixedTask) Examples.startedPolling) = None
  /\ currentTask (pollTick Examples.localhost Examples.stringifyTask
                    (ResponseOk Examples.mixedTask) Examples.startedPolling)
     = Some Examples.mixedTask.
Proof.
  destruct (pollTaskProgress_final_status Examples.localhost Examples.stringifyTask
              Examples.startedPolling Examples.mixedTask eq_refl)
    as (Hfin & Hcur & Hdone & _).
  destruct (Hdone eq_refl) as (_ & Herr & _).
  split; [apply Hfin; now left|]. split; [exact Herr | exact Hcur].
Defined.



(** C7 as stated fails: no property of the status record holds one object
    per segment with a state; the only array, [clips], has the properties
    id, title, start, end, duration and url. *)
Lemma status_record_segment_state_counterexample :
  ~ Spec.hasPerSegmentState ProcessingTask_interface.
Proof.
  intros (name & opt & element & prop & Hin & Hprop & Hstate).
  simpl in Hin.
  destruct Hin as [H | [H | [H | [H | [H | [H | [H | [H | []]]]]]]]];
    try discriminate H.
  injection H as _ _ <-. simpl in Hprop.
  destruct Hprop as [<- | [<- | [<- | [<- | [<- | [<- | []]]]]]];
    destruct Hstate as [[values Hv] | [Hn | Hn]]; discriminate.
Qed.

Lemma status_record_follows_polls_witness :
  currentTask (pollRun Examples.localhost Examples.stringifyTask
                 [Examples.gatewayTimeout; ResponseOk Examples.halfwayTask]
                 Examples.startedPolling)
  = Some Examples.halfwayTask.
Proof.
  destruct (status_record_follows_polls Examples.localhost Examples.stringifyTask
              Examples.startedPolling [Examples.gatewayTimeout]
              Examples.halfwayTask Examples.gatewayTimeout eq_refl eq_refl)
    as (_ & _ & _ & Hcur & _).
  exact Hcur.
Defined.

(** ** The processing request *)

(** C3 as stated fails: the request for the sample address has no
    [subtitle_style]. *)
Lemma processRequest_subtitle_style_counterexample :
  ~ Spec.configurationAsSpecified (processRequestBody Examples.sampleUrl).
Proof.
  intros [Hall _].
  destruct (Hall "subtitle_style") as [v Hv].
  - simpl. tauto.
  - simpl in Hv.
    destruct Hv as [H | [H | [H | [H | [H | [H | [H | []]]]]]]]; discriminate H.
Qed.

(** C3, amended.  Every processing request the client issues is a POST to
    [/api/workflow/process-comprehensive-async] whose body holds the video
    address and exactly six of the recognized options, each of the stated
    type: quality 'best', create_vertical true, smoothing_strength
    'very_high', burn_subtitles true, font_size 15 and export_codec 'h264';
    it holds no subtitle_style. *)
Theorem startVideoProcessing_request
    (youtubeUrl : string) (hasActive : bool) (token : TokenResult)
    (endpoint : string) (body : list (string * JsonValue)) :
  startVideoProcessing youtubeUrl hasActive token = StartRequest endpoint body ->
  endpoint = "/api/workflow/process-comprehensive-async"
  /\ map fst body =
       [ "youtube_url"; "quality"; "create_vertical"; "smoothing_strength";
         "burn_subtitles"; "font_size"; "export_codec" ]
  /\ In ("youtube_url", JString (trim youtubeUrl)) body
  /\ In ("quality", JString "best") body
  /\ In ("create_vertical", JBool true) body
  /\ In ("smoothing_strength", JString "very_high") body
  /\ In ("burn_subtitles", JBool true) body
  /\ In ("font_size", JNumber 15) body
  /\ In ("export_codec", JString "h264") body
  /\ (forall k v, In (k, v) body -> k <> "youtube_url" ->
        In k Spec.recognizedOptions /\ k <> "subtitle_style" /\ Spec.optionWellTyped k v)
  /\ (forall k, In k Spec.recognizedOptions -> k <> "subtitle_style" ->
        exists v, In (k, v) body).
Proof.
  unfold startVideoProcessing. intros H.
  destruct (negb (truthy_string (trim youtubeUrl))); [discriminate H|].
  destruct hasActive; [discriminate H|].
  destruct token; [|discriminate H].
  injection H as <- <-. unfold processRequestBody.
  split; [reflexivity|]. split; [reflexivity|].
  repeat (split; [simpl; tauto|]).
  split.
  - intros k v Hin Hk. simpl in Hin.
    destruct Hin as [H | [H | [H | [H | [H | [H | [H | []]]]]]]];
      injection H as <- <-; try congruence;
      (split; [simpl; tauto | split; [discriminate |]]);
      first [ solve [simpl; auto 12] | split; [reflexivity | vm_compute; reflexivity] ].
  - intros k Hin Hk. simpl in Hin.
    destruct Hin as [<- | [<- | [<- | [<- | [<- | [<- | [<- | []]]]]]]];
      try congruence; eexists; simpl; eauto 10.
Qed.

Lemma startVideoProcessing_request_witness :
  map fst (processRequestBody Examples.sampleUrl) =
    [ "youtube_url"; "quality"; "create_vertical"; "smoothing_strength";
      "burn_subtitles"; "font_size"; "export_codec" ].
Proof.
  destruct (startVideoProcessing_request Examples.sampleUrl false TokenObtained
              "/api/workflow/process-comprehensive-async"
              (processRequestBody Examples.sampleUrl) eq_refl)
    as (_ & Hkeys & _).
  exact Hkeys.
Defined.

(** ** Clips of a finished task *)

(** C4 as stated fails: the "With subtitles" mark is read off [blob_url],
    so no clip record has every field of the subtitled sample clip and yet
    shows no subtitles. *)
Lemma subtitle_flag_only_counterexample :
  ~ Spec.burnFailureChangesOnlyFlag Examples.subtitledClip.
Proof.
  intros [c' [Hsame Hflag]].
  destruct Hsame as (_ & _ & _ & _ & _ & Hurl & _).
  unfold showsSubtitleBadge in Hflag. rewrite <- Hurl in Hflag.
  discriminate Hflag.
Qed.

(** C4, amended.  Every final clip path, with or without burned subtitles,
    yields a clip record, and a task reported 'done' sets no error.  The
    clip record has no has_subtitles field: the clip is shown with
    subtitles exactly when its [blob_url] contains 'subtitled_', so a failed
    burn shows in [blob_url], while id, title, start_time, end_time and
    duration do not depend on the path. *)
Theorem subtitle_badge_from_blob_url
    (API_BASE_URL : string) (JSON_stringify : ProcessingTask -> string)
    (segments : list Segment) (thumbnails : list Thumbnail)
    (clipPaths : list string) (index : nat) (path : string) :
  clipPaths !! index = Some path ->
  (exists c,
      generatedClips API_BASE_URL segments thumbnails clipPaths !! index = Some c
      /\ blob_url c = path
      /\ showsSubtitleBadge c = includes path "subtitled_"
      /\ forall path',
           let c' := generatedClip API_BASE_URL segments thumbnails index path' in
           id c' = id c /\ title c' = title c /\ start_time c' = start_time c
           /\ end_time c' = end_time c /\ duration c' = duration c)
  /\ (forall c1 c2 : Clip,
        blob_url c1 = blob_url c2 -> showsSubtitleBadge c1 = showsSubtitleBadge c2)
  /\ (forall (st : PollState) (d : ProcessingTask),
        polling st = true -> status d = "done" ->
        errorState (pollTick API_BASE_URL JSON_stringify (ResponseOk d) st)
        = errorState st).
Proof.
  intros Hpath. split; [|split].
  - exists (generatedClip API_BASE_URL segments thumbnails index path).
    split; [|split; [reflexivity | split; [reflexivity|]]].
    + unfold generatedClips. rewrite list_lookup_imap, Hpath. reflexivity.
    + intros path'. simpl. tauto.
  - intros c1 c2 H. unfold showsSubtitleBadge. now rewrite H.
  - intros st d Hp Hd. rewrite (pollTick_ok API_BASE_URL JSON_stringify d st Hp).
    destruct (onTaskData_fields JSON_stringify d st) as (_ & _ & _ & Td & _).
    now destruct (Td Hd) as (_ & _ & _ & E & _).
Qed.

Lemma subtitle_badge_from_blob_url_witness :
  exists c,
    generatedClips Examples.localhost [Examples.plainSegment] []
      ["clips/segment1_vertical.mp4"] !! 0%nat = Some c
    /\ showsSubtitleBadge c = false.
Proof.
  destruct (subtitle_badge_from_blob_url Examples.localhost Examples.stringifyTask
              [Examples.plainSegment] [] ["clips/segment1_vertical.mp4"] 0
              "clips/segment1_vertical.mp4" eq_refl)
    as [[c (Hc & _ & Hbadge & _)] _].
  exists c. split; [exact Hc | exact Hbadge].
Defined.



(** The derivation does not check what it reads.  A segment that states a
    duration of 25 seconds between 10 and 40 gives a clip with that
    duration, which the table [clips] accepts; and a clip path without a
    segment gives a clip from 0 to 60, whatever the length of the video. *)
Remark generatedClip_unchecked_input :
  Schema.check_clip_times
    (Spec.rowOfClip
       (generatedClip Examples.localhost [Examples.shortenedSegment] [] 0
          "clips/subtitled_segment1_vertical.mp4")) = true
  /\ ~ Spec.clipInvariant 100
         (generatedClip Examples.localhost [Examples.shortenedSegment] [] 0
            "clips/subtitled_segment1_vertical.mp4")
  /\ ~ Spec.clipInvariant 45
         (generatedClip Examples.localhost [] [] 0
            "clips/subtitled_segment1_vertical.mp4").
Proof.
  split; [reflexivity|]. split.
  - intros (_ & _ & _ & Hd). vm_compute in Hd. discriminate Hd.
  - intros (_ & _ & Hle & _). vm_compute in Hle. now apply Hle.
Qed.



(** * Further properties of the client *)

(** ** Characters and separators *)

Import JsString.

Lemma split_nonempty (sep : ascii) (s : string) : split sep s <> [].
Proof.
  destruct s as [|c s]; simpl; [discriminate|].
  destruct (Ascii.eqb c sep); [discriminate|].
  destruct (split sep s); discriminate.
Qed.

Lemma split_app_sep (sep : ascii) (a b : string) :
  split sep (a +:+ String sep b) = (split sep a ++ split sep b)%list.
Proof.
  induction a as [|c a IH]; simpl.
  - now rewrite Ascii.eqb_refl.
  - destruct (Ascii.eqb c sep); [now rewrite IH|].
    rewrite IH. destruct (split sep a) as [|x xs] eqn:E; [|reflexivity].
    now apply split_nonempty in E.
Qed.

Lemma split_lacks (sep : ascii) (s : string) :
  lacksChar sep s = true -> split sep s = [s].
Proof.
  induction s as [|c s IH]; simpl; [reflexivity|].
  intros H. apply andb_prop in H. destruct H as [Hc Hs].
  apply negb_true_iff in Hc. rewrite Hc, (IH Hs). reflexivity.
Qed.

(** The parts of a split contain neither the separator nor any character
    the whole string lacks. *)
Lemma split_parts_lack (sep c : ascii) (s : string) :
  (c = sep \/ lacksChar c s = true) ->
  Forall (fun part => lacksChar c part = true) (split sep s).
Proof.
  induction s as [|d s IH]; intros Hc; simpl.
  - repeat constructor.
  - assert (Hrest : c = sep \/ lacksChar c s = true).
    { destruct Hc as [-> | H]; [now left|]. simpl in H.
      apply andb_prop in H. now right. }
    specialize (IH Hrest).
    destruct (Ascii.eqb_spec d sep) as [-> | Hne].
    + constructor; [reflexivity | exact IH].
    + destruct (split sep s) as [|x xs] eqn:E; [now apply split_nonempty in E|].
      inversion IH as [|? ? Hx Hxs]; subst.
      constructor; [|exact Hxs]. simpl. rewrite Hx, andb_true_r.
      apply negb_true_iff, Ascii.eqb_neq.
      destruct Hc as [-> | H]; [exact Hne|].
      simpl in H. apply andb_prop in H. destruct H as [H _].
      now apply negb_true_iff, Ascii.eqb_neq in H.
Qed.

Lemma replaceChars_app (p : ascii -> bool) (y : ascii) (a b : string) :
  replaceChars p y (a +:+ b) = replaceChars p y a +:+ replaceChars p y b.
Proof. induction a as [|c a IH]; simpl; [reflexivity | now rewrite IH]. Qed.

Lemma replaceChars_none (p : ascii -> bool) (y : ascii) (s : string) :
  allChars (fun c => negb (p c)) s = true -> replaceChars p y s = s.
Proof.
  induction s as [|c s IH]; simpl; [reflexivity|].
  intros H. apply andb_prop in H. destruct H as [Hc Hs].
  apply negb_true_iff in Hc. now rewrite Hc, (IH Hs).
Qed.

Lemma replaceChars_all (p : ascii -> bool) (y : ascii) (s : string) :
  allChars (fun c => negb (p c) || Ascii.eqb c y) (replaceChars p y s) = true.
Proof.
  induction s as [|c s IH]; simpl; [reflexivity|].
  rewrite IH, andb_true_r. destruct (p c) eqn:E; simpl.
  - apply orb_true_iff. right. apply Ascii.eqb_refl.
  - now rewrite E.
Qed.

Lemma lacksChar_allChars (c : ascii) (s : string) :
  lacksChar c s = allChars (fun d => negb (Ascii.eqb c d)) s.
Proof.
  induction s as [|d s IH]; simpl; [reflexivity|].
  now rewrite IH, (Ascii.eqb_sym d c).
Qed.

Lemma backslashes_gone (s : string) :
  lacksChar backslash (replaceChars (Ascii.eqb backslash) slash s) = true.
Proof.
  induction s as [|c s IH]; [reflexivity|].
  cbn [replaceChars lacksChar]. rewrite IH, andb_true_r.
  destruct (Ascii.eqb_spec backslash c) as [<- | Hne]; [reflexivity|].
  apply negb_true_iff, Ascii.eqb_neq. congruence.
Qed.

(** ** Clip addresses (config.ts) *)

(** X1. [clipUrl] keeps the file name only: whatever directories precede
    the name, separated by [/] or by [\], the address is
    [API_BASE_URL/clips/name]. *)
Theorem clipUrl_file_name (API_BASE_URL dir name : string) (sep : ascii) :
  sep = slash \/ sep = backslash ->
  lacksChar slash name = true ->
  lacksChar backslash name = true ->
  Config.clipUrl API_BASE_URL (dir +:+ String sep name)
  = API_BASE_URL +:+ "/clips/" +:+ name
  /\ Config.clipUrl API_BASE_URL name = API_BASE_URL +:+ "/clips/" +:+ name.
Proof.
  intros Hsep Hslash Hback.
  assert (Hname : replaceChars (Ascii.eqb backslash) slash name = name).
  { apply replaceChars_none. now rewrite <- lacksChar_allChars. }
  unfold Config.clipUrl. cbv zeta. split.
  - rewrite replaceChars_app. cbn [replaceChars]. rewrite Hname.
    replace (if Ascii.eqb backslash sep then slash else sep) with slash
      by (destruct Hsep as [-> | ->]; reflexivity).
    rewrite split_app_sep, (split_lacks slash name Hslash), last_snoc.
    reflexivity.
  - rewrite Hname, (split_lacks slash name Hslash). reflexivity.
Qed.

Lemma clipUrl_file_name_witness :
  Config.clipUrl "http://localhost:8000" "C:\clips\job7\subtitled_segment1_vertical.mp4"
  = "http://localhost:8000/clips/subtitled_segment1_vertical.mp4".
Proof.
  destruct (clipUrl_file_name "http://localhost:8000" "C:\clips\job7"
              "subtitled_segment1_vertical.mp4" backslash) as [H _];
    [now right | reflexivity | reflexivity |].
  exact H.
Defined.

(** X2. Whatever the path, the name [clipUrl] puts after [/clips/] contains
    no [/] and no [\].  (The name is the last component of the path as it
    is: it is not checked further and can be empty or [..].) *)
Theorem clipUrl_name_has_no_separator (API_BASE_URL clipPath : string) :
  exists name,
    Config.clipUrl API_BASE_URL clipPath = API_BASE_URL +:+ "/clips/" +:+ name
    /\ lacksChar slash name = true
    /\ lacksChar backslash name = true.
Proof.
  unfold Config.clipUrl. cbv zeta.
  set (parts := split slash (replaceChars (Ascii.eqb backslash) slash clipPath)).
  assert (Hs : Forall (fun part => lacksChar slash part = true) parts)
    by (apply split_parts_lack; now left).
  assert (Hb : Forall (fun part => lacksChar backslash part = true) parts)
    by (apply split_parts_lack; right; apply backslashes_gone).
  destruct (last parts) as [name|] eqn:E.
  - exists name. split; [reflexivity|].
    apply last_Some in E. destruct E as [front ->].
    apply Forall_app in Hs, Hb. destruct Hs as [_ Hs], Hb as [_ Hb].
    inversion Hs; inversion Hb; subst. tauto.
  - apply last_None in E. now apply split_nonempty in E.
Qed.

(** ** Opening a clip on YouTube *)

Import Component.

Lemma takeIdChars_all (s : string) : allChars isIdChar (takeIdChars s) = true.
Proof.
  induction s as [|c s IH]; simpl; [reflexivity|].
  destruct (isIdChar c) eqn:E; simpl; [now rewrite E, IH | reflexivity].
Qed.

Lemma takeIdChars_app (videoId rest : string) :
  allChars isIdChar videoId = true ->
  takeIdChars rest = EmptyString ->
  takeIdChars (videoId +:+ rest) = videoId.
Proof.
  intros Hid Hrest. induction videoId as [|c v IH]; simpl; [exact Hrest|].
  simpl in Hid. apply andb_prop in Hid. destruct Hid as [Hc Hv].
  now rewrite Hc, (IH Hv).
Qed.

Lemma dropPrefix_app (p t : string) : dropPrefix p (p +:+ t) = Some t.
Proof.
  induction p as [|a p IH]; simpl; [reflexivity|]. now rewrite Ascii.eqb_refl.
Qed.

Lemma dropPrefix_Some (p s t : string) : dropPrefix p s = Some t -> s = p +:+ t.
Proof.
  revert s. induction p as [|a p IH]; intros s H; simpl in *.
  - now injection H.
  - destruct s as [|b s]; [discriminate H|].
    destruct (Ascii.eqb_spec a b) as [-> | Hne]; [|discriminate H].
    now rewrite (IH s H).
Qed.

Lemma dropPrefix_not_included (m s : string) :
  includes s m = false -> dropPrefix m s = None.
Proof.
  intros Hinc. destruct (dropPrefix m s) as [t|] eqn:E; [|reflexivity].
  apply dropPrefix_Some in E.
  assert (Hin : includes s m = true).
  { apply includes_app. exists EmptyString, t. exact E. }
  congruence.
Qed.

Lemma includes_tail (c : ascii) (s m : string) :
  includes (String c s) m = false -> includes s m = false.
Proof.
  cbn [includes]. intros H. apply orb_false_iff in H. tauto.
Qed.

Lemma matchMarkers_Some (markers : list string) (s videoId : string) :
  matchMarkers markers s = Some videoId ->
  videoId <> EmptyString /\ allChars isIdChar videoId = true.
Proof.
  induction markers as [|m rest IH]; simpl; [discriminate|].
  destruct (dropPrefix m s) as [tail|]; [|exact IH].
  pose proof (takeIdChars_all tail) as Hall.
  destruct (takeIdChars tail) as [|c v]; [exact IH|].
  intros H. injection H as <-. split; [discriminate | exact Hall].
Qed.

Lemma matchMarkers_None (markers : list string) (s : string) :
  (forall m, In m markers -> includes s m = false) ->
  matchMarkers markers s = None.
Proof.
  induction markers as [|m rest IH]; intros H; simpl; [reflexivity|].
  rewrite (dropPrefix_not_included m s) by (apply H; now left).
  apply IH. intros m' Hm'. apply H. now right.
Qed.

Lemma extractVideoId_unfold (url : string) :
  extractVideoId url =
    match matchMarkers videoIdMarkers url with
    | Some videoId => Some videoId
    | None =>
        match url with
        | EmptyString => None
        | String _ url' => extractVideoId url'
        end
    end.
Proof. destruct url; reflexivity. Qed.

(** X3. A video id returned by [extractVideoId] is never empty and contains
    none of the characters [&], [?], [#] and line feed. *)
Theorem extractVideoId_well_formed (url videoId : string) :
  extractVideoId url = Some videoId ->
  videoId <> EmptyString
  /\ allChars isIdChar videoId = true
  /\ lacksChar "&" videoId = true
  /\ lacksChar "?" videoId = true
  /\ lacksChar "#" videoId = true.
Proof.
  intros H.
  assert (Hwf : videoId <> EmptyString /\ allChars isIdChar videoId = true).
  { induction url as [|c url IH]; rewrite extractVideoId_unfold in H.
    - discriminate H.
    - destruct (matchMarkers videoIdMarkers (String c url)) as [v|] eqn:E.
      + injection H as <-. exact (matchMarkers_Some _ _ _ E).
      + exact (IH H). }
  destruct Hwf as [Hne Hall]. split; [exact Hne|]. split; [exact Hall|].
  clear H Hne. induction videoId as [|c v IH]; [now repeat split|].
  simpl in Hall. apply andb_prop in Hall. destruct Hall as [Hc Hv].
  destruct (IH Hv) as (H1 & H2 & H3).
  cbn [lacksChar]. rewrite H1, H2, H3, !andb_true_r.
  unfold isIdChar in Hc.
  destruct c as [[] [] [] [] [] [] [] []]; try discriminate Hc; now repeat split.
Qed.

Lemma extractVideoId_well_formed_witness :
  lacksChar "&" "dQw4w9WgXcQ" = true.
Proof.
  destruct (extractVideoId_well_formed
              "https://www.youtube.com/watch?v=dQw4w9WgXcQ&list=PL1" "dQw4w9WgXcQ"
              eq_refl) as (_ & _ & H & _).
  exact H.
Defined.

Lemma extractVideoId_watch (videoId rest : string) :
  videoId <> EmptyString ->
  allChars isIdChar videoId = true ->
  takeIdChars rest = EmptyString ->
  extractVideoId ("https://www.youtube.com/watch?v=" +:+ videoId +:+ rest) = Some videoId.
Proof.
  intros Hne Hall Hrest. simpl.
  change (EmptyString +:+ videoId +:+ rest) with (videoId +:+ rest).
  rewrite (takeIdChars_app videoId rest Hall Hrest).
  destruct videoId; [contradiction | reflexivity].
Qed.

(** X4. From each of the three usual forms of address, followed by nothing
    or by further parameters, [extractVideoId] returns the video id. *)
Theorem extractVideoId_usual_forms (videoId rest : string) :
  videoId <> EmptyString ->
  allChars isIdChar videoId = true ->
  takeIdChars rest = EmptyString ->
  extractVideoId ("https://www.youtube.com/watch?v=" +:+ videoId +:+ rest) = Some videoId
  /\ extractVideoId ("https://youtu.be/" +:+ videoId +:+ rest) = Some videoId
  /\ extractVideoId ("https://www.youtube.com/embed/" +:+ videoId +:+ rest) = Some videoId.
Proof.
  intros Hne Hall Hrest. split; [now apply extractVideoId_watch|].
  split; simpl;
    change (EmptyString +:+ videoId +:+ rest) with (videoId +:+ rest);
    rewrite (takeIdChars_app videoId rest Hall Hrest);
    (destruct videoId; [contradiction | reflexivity]).
Qed.

Lemma extractVideoId_usual_forms_witness :
  extractVideoId "https://youtu.be/dQw4w9WgXcQ?si=abc" = Some "dQw4w9WgXcQ".
Proof.
  destruct (extractVideoId_usual_forms "dQw4w9WgXcQ" "?si=abc") as (_ & H & _);
    [discriminate | reflexivity | reflexivity |].
  exact H.
Defined.



(** X6. An address that contains none of [youtube.com/watch?v=],
    [youtu.be/] and [youtube.com/embed/] has no video id, and
    [openYouTubeClip] opens nothing for it. *)
Theorem extractVideoId_without_marker (youtubeUrl : string) (clip : Clip) :
  (forall m, In m videoIdMarkers -> includes youtubeUrl m = false) ->
  extractVideoId youtubeUrl = None /\ openYouTubeClip youtubeUrl clip = None.
Proof.
  intros H.
  assert (Hnone : extractVideoId youtubeUrl = None).
  { induction youtubeUrl as [|c url IH]; rewrite extractVideoId_unfold.
    - reflexivity.
    - rewrite (matchMarkers_None videoIdMarkers (String c url) H).
      apply IH. intros m Hm. exact (includes_tail c url m (H m Hm)). }
  split; [exact Hnone|]. unfold openYouTubeClip. now rewrite Hnone.
Qed.

Lemma extractVideoId_without_marker_witness :
  openYouTubeClip "https://vimeo.com/76979871" Examples.subtitledClip = None.
Proof.
  destruct (extractVideoId_without_marker "https://vimeo.com/76979871"
              Examples.subtitledClip) as [_ H]; [|exact H].
  intros m Hm. simpl in Hm.
  destruct Hm as [<- | [<- | [<- | []]]]; reflexivity.
Defined.

(** ** Downloading a clip *)

Lemma sanitizeTitle_chars (s : string) :
  allChars (fun c => isAlnum c || Ascii.eqb c "_") (sanitizeTitle s) = true.
Proof.
  unfold sanitizeTitle. induction s as [|c s IH]; [reflexivity|].
  cbn [replaceChars allChars]. rewrite IH, andb_true_r.
  destruct (isAlnum c) eqn:E; simpl; [now rewrite E | reflexivity].
Qed.

Lemma sanitizeTitle_length (s : string) :
  String.length (sanitizeTitle s) = String.length s.
Proof.
  unfold sanitizeTitle. induction s as [|c s IH]; [reflexivity|].
  cbn [replaceChars String.length]. now rewrite IH.
Qed.

Lemma sanitizeTitle_idempotent (s : string) :
  sanitizeTitle (sanitizeTitle s) = sanitizeTitle s.
Proof.
  unfold sanitizeTitle. induction s as [|c s IH]; [reflexivity|].
  cbn [replaceChars]. rewrite IH. destruct (isAlnum c) eqn:E; cbn [negb].
  - now rewrite E.
  - reflexivity.
Qed.

Lemma allChars_lacks (p : ascii -> bool) (c : ascii) (s : string) :
  allChars p s = true -> p c = false -> lacksChar c s = true.
Proof.
  intros Hall Hc. induction s as [|d s IH]; [reflexivity|].
  cbn [allChars lacksChar] in *. apply andb_prop in Hall. destruct Hall as [Hd Hs].
  rewrite (IH Hs), andb_true_r. apply negb_true_iff, Ascii.eqb_neq.
  intros ->. congruence.
Qed.

Lemma length_append (a b : string) :
  String.length (a +:+ b) = (String.length a + String.length b)%nat.
Proof.
  induction a as [|d a IH]; [reflexivity|].
  change (String d a +:+ b) with (String d (a +:+ b)).
  cbn [String.length]. now rewrite IH.
Qed.

Lemma lacksChar_app (c : ascii) (a b : string) :
  lacksChar c (a +:+ b) = lacksChar c a && lacksChar c b.
Proof.
  induction a as [|d a IH]; [reflexivity|].
  change (String d a +:+ b) with (String d (a +:+ b)).
  cbn [lacksChar]. now rewrite IH, andb_assoc.
Qed.

(** X7. The file name [handleDownload] proposes is the title with every
    character other than a letter or digit replaced by [_], followed by
    [.mp4]: it has the length of the title plus four, contains no [/] and
    no [\], and cleaning a cleaned title changes nothing. *)
Theorem downloadName_is_safe (clip : Clip) :
  allChars (fun c => isAlnum c || Ascii.eqb c "_") (sanitizeTitle (title clip)) = true
  /\ String.length (downloadName clip) = (String.length (title clip) + 4)%nat
  /\ lacksChar slash (downloadName clip) = true
  /\ lacksChar backslash (downloadName clip) = true
  /\ sanitizeTitle (sanitizeTitle (title clip)) = sanitizeTitle (title clip).
Proof.
  pose proof (sanitizeTitle_chars (title clip)) as Hchars.
  unfold downloadName.
  split; [exact Hchars|]. split; [|split; [|split]].
  - rewrite length_append, sanitizeTitle_length. reflexivity.
  - rewrite lacksChar_app, (allChars_lacks _ slash _ Hchars); reflexivity.
  - rewrite lacksChar_app, (allChars_lacks _ backslash _ Hchars); reflexivity.
  - apply sanitizeTitle_idempotent.
Qed.

(** ** The polling, over any sequence of responses *)

Section PollInvariants.
Context (API_BASE_URL : string) (JSON_stringify : ProcessingTask -> string).

Local Abbreviation tick := (pollTick API_BASE_URL JSON_stringify).
Local Abbreviation run := (pollRun API_BASE_URL JSON_stringify).

Lemma pollTick_taskId (r : PollResponse) (st : PollState) :
  taskId (tick r st) = taskId st.
Proof.
  unfold pollTick. destruct (polling st); [|reflexivity].
  destruct r as [d | code text | err | typeError | taskData err].
  - now destruct (onTaskData_fields JSON_stringify d st) as (_ & _ & E & _).
  - unfold onPollError. cbv zeta. now destruct (maxRetries <=? _)%nat.
  - unfold onPollError. cbv zeta. now destruct (maxRetries <=? _)%nat.
  - reflexivity.
  - reflexivity.
Qed.

Lemma onPollError_cases (r : PollResponse) (st : PollState) :
  polling st = true ->
  (retryCount st < maxRetries)%nat ->
  (polling (onPollError API_BASE_URL r st) = true
   /\ (retryCount (onPollError API_BASE_URL r st) < maxRetries)%nat)
  \/ pollingEnded (onPollError API_BASE_URL r st).
Proof.
  intros Hp Hlt. unfold onPollError. cbv zeta.
  destruct (Nat.leb_spec maxRetries (S (retryCount st))) as [Hle | Hgt].
  - right. unfold pollingEnded, clearActiveTask, removeItem. simpl.
    repeat split; try reflexivity.
    + rewrite lookup_delete_ne by discriminate. apply lookup_delete_eq.
    + apply lookup_delete_eq.
  - left. simpl. split; [exact Hp | exact Hgt].
Qed.

Lemma pollTick_cases (r : PollResponse) (st : PollState) :
  polling st = true ->
  (retryCount st < maxRetries)%nat ->
  (polling (tick r st) = true /\ (retryCount (tick r st) < maxRetries)%nat)
  \/ pollingEnded (tick r st).
Proof.
  intros Hp Hlt. destruct r as [d | code text | err | typeError | taskData err].
  - rewrite (pollTick_ok API_BASE_URL JSON_stringify d st Hp).
    destruct (onTaskData_fields JSON_stringify d st) as (Hrc & _ & _ & Td & Tf & Tr).
    destruct (String.eqb_spec (status d) "done") as [Hd | Hd].
    + right. destruct (Td Hd) as (E1 & E2 & E3 & _ & _ & E4 & E5).
      unfold pollingEnded. tauto.
    + destruct (String.eqb_spec (status d) "failed") as [Hf | Hf].
      * right. destruct (Tf Hf) as (E1 & E2 & E3 & _ & E4 & E5).
        unfold pollingEnded. tauto.
      * left. destruct (Tr Hd Hf) as (E1 & _). rewrite E1, Hrc.
        split; [exact Hp | unfold maxRetries; lia].
  - rewrite (pollTick_failure API_BASE_URL JSON_stringify
               (ResponseNotOk code text) st Hp eq_refl).
    now apply onPollError_cases.
  - rewrite (pollTick_failure API_BASE_URL JSON_stringify (FetchThrows err) st Hp eq_refl).
    now apply onPollError_cases.
  - left.
    rewrite (pollTick_handling_error API_BASE_URL JSON_stringify
               (ResponseNull typeError) st Hp eq_refl).
    simpl. split; [reflexivity | unfold maxRetries; lia].
  - left.
    rewrite (pollTick_handling_error API_BASE_URL JSON_stringify
               (StorageThrows taskData err) st Hp eq_refl).
    simpl. split; [reflexivity | unfold maxRetries; lia].
Qed.

(** X8. Whatever the responses, a polling keeps asking for the same task,
    its count of consecutive failures stays below [maxRetries] as long as
    it runs, and once it has ended nothing is processing and both keys of
    the active task are removed from [localStorage]. *)
Theorem pollRun_invariant (rs : list PollResponse) :
  forall st : PollState,
    polling st = true ->
    (retryCount st < maxRetries)%nat ->
    taskId (run rs st) = taskId st
    /\ ((polling (run rs st) = true /\ (retryCount (run rs st) < maxRetries)%nat)
        \/ pollingEnded (run rs st)).
Proof.
  induction rs as [|r rs IH]; intros st Hp Hlt.
  - simpl. split; [reflexivity | now left].
  - change (run (r :: rs) st) with (run rs (tick r st)).
    destruct (pollTick_cases r st Hp Hlt) as [[Hp' Hlt'] | Hend].
    + destruct (IH (tick r st) Hp' Hlt') as [Hid Hcases].
      split; [now rewrite Hid, pollTick_taskId | exact Hcases].
    + rewrite (pollRun_stopped API_BASE_URL JSON_stringify rs (tick r st))
        by (now destruct Hend).
      split; [apply pollTick_taskId | now right].
Qed.

End PollInvariants.

Lemma pollRun_invariant_witness :
  pollingEnded
    (pollRun Examples.localhost Examples.stringifyTask
       [Examples.gatewayTimeout; ResponseOk Examples.halfwayTask;
        ResponseOk Examples.mixedTask; Examples.gatewayTimeout]
       Examples.startedPolling).
Proof.
  destruct (pollRun_invariant Examples.localhost Examples.stringifyTask
              [Examples.gatewayTimeout; ResponseOk Examples.halfwayTask;
               ResponseOk Examples.mixedTask; Examples.gatewayTimeout]
              Examples.startedPolling eq_refl) as [_ [[Hp _] | Hend]].
  - unfold maxRetries. simpl. lia.
  - discriminate Hp.
  - exact Hend.
Defined.

(** ** Restoring a task when the page loads *)

Lemma truthy_string_iff (s : string) : truthy_string s = true <-> s <> EmptyString.
Proof. destruct s; simpl; split; congruence. Qed.

Lemma clearActiveTask_lookup (ls : gmap string string) :
  clearActiveTask ls !! "cliplink_active_task_id" = None
  /\ clearActiveTask ls !! "cliplink_active_task_data" = None.
Proof.
  unfold clearActiveTask, removeItem. split.
  - rewrite lookup_delete_ne by discriminate. apply lookup_delete_eq.
  - apply lookup_delete_eq.
Qed.

Lemma noActiveTask_fields (c : State) :
  isRestoringTask (noActiveTask c) = false
  /\ hasActiveTask (poll (noActiveTask c)) = false
  /\ localStorage (poll (noActiveTask c)) !! "cliplink_active_task_id" = None
  /\ localStorage (poll (noActiveTask c)) !! "cliplink_active_task_data" = None
  /\ polling (poll (noActiveTask c)) = polling (poll c)
  /\ taskId (poll (noActiveTask c)) = taskId (poll c)
  /\ clipsShown (noActiveTask c) = clipsShown c
  /\ currentTask (poll (noActiveTask c)) = currentTask (poll c).
Proof.
  destruct (clearActiveTask_lookup (localStorage (poll c))) as [H1 H2].
  unfold noActiveTask. simpl. tauto.
Qed.

Section Restoring.
Context (API_BASE_URL : string) (JSON_parses : string -> bool).

Local Abbreviation check := (checkForActiveTask API_BASE_URL JSON_parses).

Lemma onStatusBody_active (activeTaskId : string) (b : StatusBody) (c : State) :
  status (body_task b) = "processing" \/ status (body_task b) = "pending" ->
  onStatusBody API_BASE_URL activeTaskId b c =
    {| poll :=
         {| taskId := activeTaskId; retryCount := 0; polling := true;
            currentTask := Some (body_task b); isProcessing := true;
            hasActiveTask := true; errorState := errorState (poll c);
            localStorage := localStorage (poll c);
            scheduledVideoFetches := scheduledVideoFetches (poll c) |};
       clipsShown := clipsShown c;
       youtubeUrl := restoreYoutubeUrl b (youtubeUrl c);
       isRestoringTask := false; thumbnailErrors := thumbnailErrors c |}.
Proof.
  intros H. unfold onStatusBody. cbv zeta.
  destruct H as [-> | ->]; reflexivity.
Qed.

Lemma onStatusBody_inactive (activeTaskId : string) (b : StatusBody) (c : State) :
  status (body_task b) <> "processing" -> status (body_task b) <> "pending" ->
  isRestoringTask (onStatusBody API_BASE_URL activeTaskId b c) = false
  /\ hasActiveTask (poll (onStatusBody API_BASE_URL activeTaskId b c)) = false
  /\ localStorage (poll (onStatusBody API_BASE_URL activeTaskId b c))
       !! "cliplink_active_task_id" = None
  /\ localStorage (poll (onStatusBody API_BASE_URL activeTaskId b c))
       !! "cliplink_active_task_data" = None
  /\ polling (poll (onStatusBody API_BASE_URL activeTaskId b c)) = polling (poll c)
  /\ taskId (poll (onStatusBody API_BASE_URL activeTaskId b c)) = taskId (poll c).
Proof.
  intros Hproc Hpend. unfold onStatusBody. cbv zeta.
  apply String.eqb_neq in Hproc, Hpend. rewrite Hproc, Hpend. cbn [orb].
  destruct (clearActiveTask_lookup (localStorage (poll c))) as [H1 H2].
  destruct (String.eqb (status (body_task b)) "done");
    [| destruct (String.eqb (status (body_task b)) "failed")].
  - simpl. tauto.
  - simpl. tauto.
  - destruct (noActiveTask_fields c) as (F1 & F2 & F3 & F4 & F5 & F6 & _). tauto.
Qed.

(** The two ways through [checkForActiveTask]: the stored task is looked
    up on the server and the answer is ok, or the function ends with
    "no active task". *)
Lemma checkForActiveTask_cases (resp : StatusResponse) (c : State) :
  (exists activeTaskId activeTaskData b,
      localStorage (poll c) !! "cliplink_active_task_id" = Some activeTaskId
      /\ localStorage (poll c) !! "cliplink_active_task_data" = Some activeTaskData
      /\ activeTaskId <> EmptyString /\ activeTaskData <> EmptyString
      /\ JSON_parses activeTaskData = true
      /\ resp = StatusOk b
      /\ check resp c = onStatusBody API_BASE_URL activeTaskId b c)
  \/ (check resp c = noActiveTask c
      /\ ~ exists activeTaskId activeTaskData b,
           localStorage (poll c) !! "cliplink_active_task_id" = Some activeTaskId
           /\ localStorage (poll c) !! "cliplink_active_task_data" = Some activeTaskData
           /\ activeTaskId <> EmptyString /\ activeTaskData <> EmptyString
           /\ JSON_parses activeTaskData = true
           /\ resp = StatusOk b).
Proof.
  unfold checkForActiveTask. cbv zeta. unfold getItem.
  destruct (localStorage (poll c) !! "cliplink_active_task_id") as [i|] eqn:Ei.
  2: { right. split; [reflexivity|]. intros (i' & d' & b' & H & _). discriminate H. }
  destruct (localStorage (poll c) !! "cliplink_active_task_data") as [d|] eqn:Ed.
  2: { right. split; [reflexivity|]. intros (i' & d' & b' & _ & H & _). discriminate H. }
  cbv beta iota.
  destruct (truthy_string i) eqn:Ti.
  2: { right. split; [reflexivity|]. intros (i' & d' & b' & H & _ & Hne & _).
       injection H as <-. apply truthy_string_iff in Hne. congruence. }
  destruct (truthy_string d) eqn:Td.
  2: { right. split; [reflexivity|]. intros (i' & d' & b' & _ & H & _ & Hne & _).
       injection H as <-. apply truthy_string_iff in Hne. congruence. }
  cbn [andb].
  destruct (JSON_parses d) eqn:Pd.
  2: { right. split; [reflexivity|]. intros (i' & d' & b' & _ & H & _ & _ & Hp & _).
       injection H as <-. congruence. }
  apply truthy_string_iff in Ti, Td.
  destruct resp as [b | |].
  - left. exists i, d, b. tauto.
  - right. split; [reflexivity|]. intros (i' & d' & b' & _ & _ & _ & _ & _ & H).
    discriminate H.
  - right. split; [reflexivity|]. intros (i' & d' & b' & _ & _ & _ & _ & _ & H).
    discriminate H.
Qed.

(** X9. [checkForActiveTask] never leaves the restoring notice on.  It
    resumes a task only when both keys are stored, the stored record
    parses, and the server reports the task as 'processing' or 'pending':
    then a new polling starts for the stored id with a fresh count and the
    storage area is left as it is.  In every other case no task is active
    afterwards, both keys are removed and no polling is started. *)
Theorem checkForActiveTask_resumes_only_active (resp : StatusResponse) (c : State) :
  isRestoringTask (check resp c) = false
  /\ (forall activeTaskId activeTaskData b,
        localStorage (poll c) !! "cliplink_active_task_id" = Some activeTaskId ->
        localStorage (poll c) !! "cliplink_active_task_data" = Some activeTaskData ->
        activeTaskId <> EmptyString -> activeTaskData <> EmptyString ->
        JSON_parses activeTaskData = true ->
        resp = StatusOk b ->
        status (body_task b) = "processing" \/ status (body_task b) = "pending" ->
        polling (poll (check resp c)) = true
        /\ taskId (poll (check resp c)) = activeTaskId
        /\ retryCount (poll (check resp c)) = 0%nat
        /\ hasActiveTask (poll (check resp c)) = true
        /\ isProcessing (poll (check resp c)) = true
        /\ currentTask (poll (check resp c)) = Some (body_task b)
        /\ localStorage (poll (check resp c)) = localStorage (poll c))
  /\ (hasActiveTask (poll (check resp c)) = true ->
      exists activeTaskId activeTaskData b,
        localStorage (poll c) !! "cliplink_active_task_id" = Some activeTaskId
        /\ localStorage (poll c) !! "cliplink_active_task_data" = Some activeTaskData
        /\ activeTaskId <> EmptyString /\ activeTaskData <> EmptyString
        /\ JSON_parses activeTaskData = true
        /\ resp = StatusOk b
        /\ (status (body_task b) = "processing" \/ status (body_task b) = "pending"))
  /\ (hasActiveTask (poll (check resp c)) = false ->
      localStorage (poll (check resp c)) !! "cliplink_active_task_id" = None
      /\ localStorage (poll (check resp c)) !! "cliplink_active_task_data" = None
      /\ polling (poll (check resp c)) = polling (poll c)
      /\ taskId (poll (check resp c)) = taskId (poll c)).
Proof.
  destruct (noActiveTask_fields c) as (N1 & N2 & N3 & N4 & N5 & N6 & _).
  destruct (checkForActiveTask_cases resp c)
    as [(i & d & b & Hi & Hd & Hine & Hdne & Hp & -> & Hcheck) | [Hcheck Hnot]].
  - rewrite Hcheck.
    assert (Hstatus :
      (status (body_task b) = "processing" \/ status (body_task b) = "pending")
      \/ (status (body_task b) <> "processing" /\ status (body_task b) <> "pending")).
    { destruct (String.eqb_spec (status (body_task b)) "processing"); [tauto|].
      destruct (String.eqb_spec (status (body_task b)) "pending"); tauto. }
    destruct Hstatus as [Hact | [Hproc Hpend]].
    + rewrite (onStatusBody_active i b c Hact). simpl.
      split; [reflexivity|]. split; [|split].
      * intros i' d' b' Hi' _ _ _ _ Hb _. injection Hb as <-.
        assert (i' = i) as -> by congruence. tauto.
      * intros _. exists i, d, b. tauto.
      * discriminate.
    + destruct (onStatusBody_inactive i b c Hproc Hpend)
        as (O1 & O2 & O3 & O4 & O5 & O6).
      split; [exact O1|]. split; [|split].
      * intros i' d' b' _ _ _ _ _ Hb [H | H]; injection Hb as <-; contradiction.
      * intros H. congruence.
      * intros _. tauto.
  - rewrite Hcheck. split; [exact N1|]. split; [|split].
    + intros i d b Hi Hd Hine Hdne Hp Hb _. exfalso. apply Hnot.
      exists i, d, b. tauto.
    + intros H. congruence.
    + intros _. tauto.
Qed.

Lemma generatedClips_lookup (segs : list Segment) (thumbs : list Thumbnail)
    (clipPaths : list string) (i : nat) :
  generatedClips API_BASE_URL segs thumbs clipPaths !! i
  = generatedClip API_BASE_URL segs thumbs i <$> clipPaths !! i.
Proof. unfold generatedClips. apply list_lookup_imap. Qed.

Lemma generatedClips_blob_urls (segs : list Segment) (thumbs : list Thumbnail)
    (clipPaths : list string) :
  blob_url <$> generatedClips API_BASE_URL segs thumbs clipPaths = clipPaths.
Proof.
  apply list_eq. intros i. rewrite list_lookup_fmap, generatedClips_lookup.
  now destruct (clipPaths !! i).
Qed.

Lemma generatedClips_ids (segs : list Segment) (thumbs : list Thumbnail)
    (clipPaths : list string) (i j : nat) (ci cj : Clip) :
  generatedClips API_BASE_URL segs thumbs clipPaths !! i = Some ci ->
  generatedClips API_BASE_URL segs thumbs clipPaths !! j = Some cj ->
  id ci = id cj -> i = j.
Proof.
  rewrite !generatedClips_lookup. intros Hi Hj Hid.
  destruct (clipPaths !! i); [|discriminate Hi].
  destruct (clipPaths !! j); [|discriminate Hj].
  injection Hi as <-. injection Hj as <-. simpl in Hid.
  apply (inj (String.append "clip-")) in Hid.
  now apply (inj pretty) in Hid.
Qed.

(** X10. When the task finished while the page was closed,
    [checkForActiveTask] shows one clip for each final clip path, in the
    order of the paths and with the path as its [blob_url]; the ids of these
    clips are pairwise distinct; the task record is kept, no task is active
    and both keys are removed. *)
Theorem checkForActiveTask_restores_clips
    (c : State) (activeTaskId activeTaskData : string) (b : StatusBody)
    (r : TaskResult) (clipPaths : list string) :
  localStorage (poll c) !! "cliplink_active_task_id" = Some activeTaskId ->
  localStorage (poll c) !! "cliplink_active_task_data" = Some activeTaskData ->
  activeTaskId <> EmptyString -> activeTaskData <> EmptyString ->
  JSON_parses activeTaskData = true ->
  status (body_task b) = "done" ->
  body_result b = Some r ->
  final_clip_paths r = Some clipPaths ->
  blob_url <$> clipsShown (check (StatusOk b) c) = clipPaths
  /\ length (clipsShown (check (StatusOk b) c)) = length clipPaths
  /\ NoDup (id <$> clipsShown (check (StatusOk b) c))
  /\ currentTask (poll (check (StatusOk b) c)) = Some (body_task b)
  /\ hasActiveTask (poll (check (StatusOk b) c)) = false
  /\ isProcessing (poll (check (StatusOk b) c)) = false
  /\ localStorage (poll (check (StatusOk b) c)) !! "cliplink_active_task_id" = None
  /\ localStorage (poll (check (StatusOk b) c)) !! "cliplink_active_task_data" = None.
Proof.
  intros Hi Hd Hine Hdne Hparse Hdone Hres Hpaths.
  destruct (clearActiveTask_lookup (localStorage (poll c))) as [K1 K2].
  apply truthy_string_iff in Hine, Hdne.
  unfold checkForActiveTask. cbv zeta. unfold getItem.
  rewrite Hi, Hd, Hine, Hdne, Hparse. cbn [andb].
  unfold onStatusBody. cbv zeta. rewrite Hdone, Hres, Hpaths. simpl.
  split; [apply generatedClips_blob_urls|].
  split; [unfold generatedClips; apply length_imap|].
  split; [|tauto].
  apply NoDup_alt. intros i j x Hx Hy.
  rewrite list_lookup_fmap in Hx, Hy.
  destruct (generatedClips _ _ _ _ !! i) as [ci|] eqn:Ei; [|discriminate Hx].
  destruct (generatedClips _ _ _ _ !! j) as [cj|] eqn:Ej; [|discriminate Hy].
  injection Hx as Hx. injection Hy as Hy.
  apply (generatedClips_ids _ _ _ i j ci cj Ei Ej). congruence.
Qed.

(** X11. After a polling has ended, however it ended, a reload does not
    bring the task back: [checkForActiveTask] finds no stored task,
    whatever the server answers, and only clears its flags. *)
Theorem checkForActiveTask_after_polling_ended
    (JSON_stringify : ProcessingTask -> string)
    (rs : list PollResponse) (st : PollState) (resp : StatusResponse) (c : State) :
  polling st = true ->
  (retryCount st < maxRetries)%nat ->
  polling (pollRun API_BASE_URL JSON_stringify rs st) = false ->
  localStorage (poll c) = localStorage (pollRun API_BASE_URL JSON_stringify rs st) ->
  check resp c = noActiveTask c
  /\ polling (poll (check resp c)) = polling (poll c)
  /\ hasActiveTask (poll (check resp c)) = false.
Proof.
  intros Hp Hlt Hstop Hls.
  destruct (pollRun_invariant API_BASE_URL JSON_stringify rs st Hp Hlt)
    as [_ [[Hrun _] | Hend]]; [congruence|].
  destruct Hend as (_ & _ & _ & K1 & K2).
  assert (Hcheck : check resp c = noActiveTask c).
  { unfold checkForActiveTask. cbv zeta. unfold getItem. now rewrite Hls, K1. }
  rewrite Hcheck. destruct (noActiveTask_fields c) as (_ & N2 & _ & _ & N5 & _).
  tauto.
Qed.

End Restoring.

Lemma checkForActiveTask_resumes_only_active_witness :
  polling (poll (checkForActiveTask Examples.localhost ComponentExamples.parsesAsObject
                   (StatusOk ComponentExamples.runningBody) ComponentExamples.reloaded))
  = true
  /\ taskId (poll (checkForActiveTask Examples.localhost ComponentExamples.parsesAsObject
                     (StatusOk ComponentExamples.runningBody) ComponentExamples.reloaded))
     = "comprehensive_ab12cd34".
Proof.
  destruct (checkForActiveTask_resumes_only_active Examples.localhost
              ComponentExamples.parsesAsObject
              (StatusOk ComponentExamples.runningBody) ComponentExamples.reloaded)
    as (_ & Hres & _).
  destruct (Hres "comprehensive_ab12cd34"
              (Examples.stringifyTask Examples.halfwayTask)
              ComponentExamples.runningBody) as (H1 & H2 & _);
    try reflexivity; try discriminate; [now left|].
  split; [exact H1 | exact H2].
Defined.

Lemma checkForActiveTask_restores_clips_witness :
  blob_url <$> clipsShown
     (checkForActiveTask Examples.localhost ComponentExamples.parsesAsObject
        (StatusOk ComponentExamples.finishedBody) ComponentExamples.reloaded)
  = [ "clips/subtitled_segment1_vertical.mp4"; "clips/segment2_vertical.mp4" ].
Proof.
  destruct (checkForActiveTask_restores_clips Examples.localhost
              ComponentExamples.parsesAsObject ComponentExamples.reloaded
              "comprehensive_ab12cd34" (Examples.stringifyTask Examples.halfwayTask)
              ComponentExamples.finishedBody ComponentExamples.finishedResult
              [ "clips/subtitled_segment1_vertical.mp4"; "clips/segment2_vertical.mp4" ])
    as (H & _); [reflexivity | reflexivity | discriminate | discriminate
                 | reflexivity | reflexivity | reflexivity | reflexivity |].
  exact H.
Defined.

Lemma checkForActiveTask_after_polling_ended_witness :
  hasActiveTask
    (poll (checkForActiveTask Examples.localhost ComponentExamples.parsesAsObject
             (StatusOk ComponentExamples.runningBody) ComponentExamples.reloadedAfterEnd))
  = false.
Proof.
  destruct (checkForActiveTask_after_polling_ended Examples.localhost
              ComponentExamples.parsesAsObject Examples.stringifyTask
              (repeat Examples.gatewayTimeout 5) Examples.startedPolling
              (StatusOk ComponentExamples.runningBody) ComponentExamples.reloadedAfterEnd)
    as (_ & _ & H);
    [reflexivity | unfold maxRetries; simpl; lia | reflexivity | reflexivity |].
  exact H.
Defined.

(** ** Retrying after the polling gave up *)

Lemma escalationMessage_offers (API_BASE_URL : string) (r : PollResponse) :
  truthy_string (escalationMessage API_BASE_URL r) = true
  /\ includes (escalationMessage API_BASE_URL r) "Failed to check processing status" = true.
Proof.
  split; [reflexivity|].
  apply includes_app.
  exists EmptyString,
    (": " +:+ caughtMessage r +:+ ". Please check if the backend is running at "
     +:+ API_BASE_URL).
  reflexivity.
Qed.

(** X12. When the polling has given up after [maxRetries] failures and a
    task with an id is shown, the error box offers "Retry"; the click
    clears the error and starts a polling of that task with a fresh count.
    The key [cliplink_active_task_id], removed when the polling gave up, is
    not stored again by the click. *)
Theorem retry_after_giving_up
    (API_BASE_URL : string) (JSON_stringify : ProcessingTask -> string)
    (st : PollState) (fs : list PollResponse) (r : PollResponse) (t : ProcessingTask) :
  polling st = true ->
  retryCount st = 0%nat ->
  forallb isPollFailure fs = true ->
  isPollFailure r = true ->
  S (length fs) = maxRetries ->
  currentTask st = Some t ->
  task_id t <> EmptyString ->
  offersRetry (pollRun API_BASE_URL JSON_stringify (fs ++ [r]) st) = true
  /\ polling (retryClick (pollRun API_BASE_URL JSON_stringify (fs ++ [r]) st)) = true
  /\ retryCount (retryClick (pollRun API_BASE_URL JSON_stringify (fs ++ [r]) st)) = 0%nat
  /\ taskId (retryClick (pollRun API_BASE_URL JSON_stringify (fs ++ [r]) st)) = task_id t
  /\ errorState (retryClick (pollRun API_BASE_URL JSON_stringify (fs ++ [r]) st)) = None
  /\ localStorage (retryClick (pollRun API_BASE_URL JSON_stringify (fs ++ [r]) st))
       !! "cliplink_active_task_id" = None.
Proof.
  intros Hp H0 Hfs Hr Hlen Ht Hid.
  destruct (pollRun_failures API_BASE_URL JSON_stringify fs st Hp Hfs)
    as (P1 & P2 & _ & P4 & _); [lia|].
  rewrite pollRun_snoc, (pollTick_failure API_BASE_URL JSON_stringify r _ P1 Hr).
  set (before := pollRun API_BASE_URL JSON_stringify fs st) in *.
  assert (Hstep : onPollError API_BASE_URL r before =
            {| taskId := taskId before; retryCount := S (retryCount before);
               polling := false; currentTask := currentTask before;
               isProcessing := false; hasActiveTask := false;
               errorState := Some (escalationMessage API_BASE_URL r);
               localStorage := clearActiveTask (localStorage before);
               scheduledVideoFetches := scheduledVideoFetches before |}).
  { unfold onPollError. cbv zeta.
    destruct (Nat.leb_spec maxRetries (S (retryCount before))); [reflexivity | lia]. }
  rewrite Hstep. unfold offersRetry, retryClick. cbn [errorState currentTask].
  rewrite P4, Ht.
  destruct (escalationMessage_offers API_BASE_URL r) as [E1 E2].
  rewrite E1, E2. apply truthy_string_iff in Hid. rewrite Hid.
  cbn. destruct (clearActiveTask_lookup (localStorage before)) as [K _].
  tauto.
Qed.

Lemma retry_after_giving_up_witness :
  offersRetry
    (pollRun Examples.localhost Examples.stringifyTask
       (repeat Examples.gatewayTimeout 4 ++ [Examples.gatewayTimeout])
       Examples.startedPolling) = true.
Proof.
  destruct (retry_after_giving_up Examples.localhost Examples.stringifyTask
              Examples.startedPolling (repeat Examples.gatewayTimeout 4)
              Examples.gatewayTimeout
              {| task_id := "comprehensive_ab12cd34"; status := "processing";
                 progress := 0; stage := "initializing"; current_step := None;
                 message := "Starting video processing..."; clips := None;
                 error := None |})
    as (H & _);
    [reflexivity | reflexivity | reflexivity | reflexivity | reflexivity
    | reflexivity | discriminate |].
  exact H.
Defined.

(** ** Thumbnails and clearing *)

(** X13. In a list of restored clips, a thumbnail that fails to load is
    hidden from then on, and the thumbnail of every other clip is shown as
    before. *)
Theorem handleThumbnailError_hides_one
    (API_BASE_URL : string) (segs : list Segment) (thumbs : list Thumbnail)
    (clipPaths : list string) (c : State) (i j : nat) (ci cj : Clip) :
  generatedClips API_BASE_URL segs thumbs clipPaths !! i = Some ci ->
  generatedClips API_BASE_URL segs thumbs clipPaths !! j = Some cj ->
  i <> j ->
  showsThumbnail (handleThumbnailError (id ci) c) ci = false
  /\ showsThumbnail (handleThumbnailError (id ci) c) cj = showsThumbnail c cj.
Proof.
  intros Hi Hj Hij.
  assert (Hid : id cj <> id ci).
  { intros E. apply Hij. symmetry.
    exact (generatedClips_ids API_BASE_URL segs thumbs clipPaths j i cj ci Hj Hi E). }
  unfold showsThumbnail, handleThumbnailError. cbn [thumbnailErrors]. split.
  - destruct (thumbnail_url ci); [|reflexivity].
    rewrite bool_decide_eq_false_2; [apply andb_false_r|].
    intros Hnot. apply Hnot, elem_of_union. right. now apply elem_of_singleton.
  - destruct (thumbnail_url cj); [|reflexivity]. f_equal.
    apply bool_decide_ext. split.
    + intros Hnot Hin. apply Hnot, elem_of_union. now left.
    + intros Hnot [Hin | Heq]%elem_of_union; [now apply Hnot|].
      apply elem_of_singleton in Heq. contradiction.
Qed.

Lemma handleThumbnailError_hides_one_witness :
  thumbnail_url
    (generatedClip Examples.localhost [] ComponentExamples.twoThumbnails 0 "clips/a.mp4")
  = Some "http://localhost:8000/thumbnails/a.jpg"
  /\ showsThumbnail ComponentExamples.reloaded
       (generatedClip Examples.localhost [] ComponentExamples.twoThumbnails 0 "clips/a.mp4")
     = true
  /\ showsThumbnail
       (handleThumbnailError "clip-0" ComponentExamples.reloaded)
       (generatedClip Examples.localhost [] ComponentExamples.twoThumbnails 0 "clips/a.mp4")
     = false
  /\ showsThumbnail
       (handleThumbnailError "clip-0" ComponentExamples.reloaded)
       (generatedClip Examples.localhost [] ComponentExamples.twoThumbnails 1 "clips/b.mp4")
     = true.
Proof.
  destruct (handleThumbnailError_hides_one Examples.localhost []
              ComponentExamples.twoThumbnails
              ["clips/a.mp4"; "clips/b.mp4"] ComponentExamples.reloaded 0 1
              (generatedClip Examples.localhost [] ComponentExamples.twoThumbnails
                 0 "clips/a.mp4")
              (generatedClip Examples.localhost [] ComponentExamples.twoThumbnails
                 1 "clips/b.mp4"))
    as (Hhidden & Hother); [reflexivity | reflexivity | lia |].
  split; [reflexivity|]. split; [reflexivity|]. split; [exact Hhidden|].
  exact (eq_trans Hother eq_refl).
Defined.

(** X14. "Clear All" removes the four keys of the component from
    [localStorage] and leaves every other key as it is, so that a reload
    finds no task to restore; it does not stop a polling that is running:
    the next successful poll shows the task record again. *)
Theorem clearAllClips_forgets_task
    (API_BASE_URL : string) (JSON_parses : string -> bool)
    (JSON_stringify : ProcessingTask -> string)
    (resp : StatusResponse) (d : ProcessingTask) (c : State) :
  (forall k,
      In k [ "cliplink_data"; "cliplink_clips"; "cliplink_active_task_id";
             "cliplink_active_task_data" ] ->
      localStorage (poll (clearAllClips c)) !! k = None)
  /\ (forall k,
        ~ In k [ "cliplink_data"; "cliplink_clips"; "cliplink_active_task_id";
                 "cliplink_active_task_data" ] ->
        localStorage (poll (clearAllClips c)) !! k = localStorage (poll c) !! k)
  /\ checkForActiveTask API_BASE_URL JSON_parses resp (clearAllClips c)
     = noActiveTask (clearAllClips c)
  /\ polling (poll (clearAllClips c)) = polling (poll c)
  /\ (polling (poll c) = true ->
      currentTask (pollTick API_BASE_URL JSON_stringify (ResponseOk d)
                     (poll (clearAllClips c))) = Some d).
Proof.
  assert (Hkeys : forall k,
      In k [ "cliplink_data"; "cliplink_clips"; "cliplink_active_task_id";
             "cliplink_active_task_data" ] ->
      localStorage (poll (clearAllClips c)) !! k = None).
  { intros k Hk. unfold clearAllClips, removeItem. cbn [poll localStorage].
    rewrite !lookup_delete. simpl in Hk.
    destruct Hk as [<- | [<- | [<- | [<- | []]]]];
      repeat (case_decide; [reflexivity|]); congruence. }
  split; [exact Hkeys|]. split; [|split; [|split]].
  - intros k Hk. unfold clearAllClips, removeItem. cbn [poll localStorage].
    rewrite !lookup_delete.
    repeat (case_decide; [exfalso; apply Hk; subst k; simpl; tauto|]).
    reflexivity.
  - unfold checkForActiveTask. cbv zeta. unfold getItem.
    rewrite (Hkeys "cliplink_active_task_id") by (simpl; tauto). reflexivity.
  - reflexivity.
  - intros Hp.
    rewrite (pollTick_ok API_BASE_URL JSON_stringify d (poll (clearAllClips c)) Hp).
    now destruct (onTaskData_fields JSON_stringify d (poll (clearAllClips c)))
      as (_ & E & _).
Qed.

Lemma clearAllClips_forgets_task_witness :
  currentTask
    (pollTick Examples.localhost Examples.stringifyTask (ResponseOk Examples.halfwayTask)
       (poll (clearAllClips
                {| poll := Examples.startedPolling; clipsShown := [];
                   youtubeUrl := Examples.sampleUrl; isRestoringTask := false;
                   thumbnailErrors := ∅ |})))
  = Some Examples.halfwayTask.
Proof.
  destruct (clearAllClips_forgets_task Examples.localhost ComponentExamples.parsesAsObject
              Examples.stringifyTask StatusNotOk Examples.halfwayTask
              {| poll := Examples.startedPolling; clipsShown := [];
                 youtubeUrl := Examples.sampleUrl; isRestoringTask := false;
                 thumbnailErrors := ∅ |})
    as (_ & _ & _ & _ & H).
  exact (H eq_refl).
Defined.

(** ** The address that is sent *)

Lemma string_length_ind (P : string -> Prop) :
  (forall s, (forall t, (String.length t < String.length s)%nat -> P t) -> P s) ->
  forall s, P s.
Proof.
  intros H s. remember (String.length s) as n eqn:E. revert s E.
  induction n as [n IH] using lt_wf_ind. intros s ->. apply H. intros t Ht.
  exact (IH _ Ht t eq_refl).
Qed.

Lemma trimStart_allWhiteSpace (s : string) :
  allWhiteSpace s = true -> trimStart s = EmptyString.
Proof.
  induction s as [s IH] using string_length_ind.
  destruct s as [|c1 s1]; [reflexivity|]. cbn [allWhiteSpace trimStart].
  destruct (is_space c1); [intros H; apply IH; [simpl; lia | exact H]|].
  destruct s1 as [|c2 s2]; [discriminate|].
  destruct (is_space2 c1 c2); [intros H; apply IH; [simpl; lia | exact H]|].
  destruct s2 as [|c3 s3]; [discriminate|].
  destruct (is_space3 c1 c2 c3); [intros H; apply IH; [simpl; lia | exact H]|].
  discriminate.
Qed.

Lemma trimStart_head (s : string) : startsWithWhiteSpace (trimStart s) = false.
Proof.
  induction s as [s IH] using string_length_ind.
  destruct s as [|c1 s1]; [reflexivity|]. cbn [trimStart].
  destruct (is_space c1) eqn:E1; [apply IH; simpl; lia|].
  destruct s1 as [|c2 s2]; [cbn [startsWithWhiteSpace]; now rewrite E1|].
  destruct (is_space2 c1 c2) eqn:E2; [apply IH; simpl; lia|].
  destruct s2 as [|c3 s3]; [cbn [startsWithWhiteSpace]; now rewrite E1, E2|].
  destruct (is_space3 c1 c2 c3) eqn:E3; [apply IH; simpl; lia|].
  cbn [startsWithWhiteSpace]. now rewrite E1, E2, E3.
Qed.

Lemma startsWithWhiteSpace_prefix (a b : string) :
  startsWithWhiteSpace (a +:+ b) = false -> startsWithWhiteSpace a = false.
Proof.
  destruct a as [|c1 a1]; [reflexivity|].
  change (String c1 a1 +:+ b) with (String c1 (a1 +:+ b)).
  cbn [startsWithWhiteSpace].
  destruct (is_space c1); [discriminate|].
  destruct a1 as [|c2 a2]; [reflexivity|].
  change (String c2 a2 +:+ b) with (String c2 (a2 +:+ b)). cbv beta iota.
  destruct (is_space2 c1 c2); [discriminate|].
  destruct a2 as [|c3 a3]; [reflexivity|].
  change (String c3 a3 +:+ b) with (String c3 (a3 +:+ b)). cbv beta iota.
  intros H; exact H.
Qed.

Lemma allWhiteSpace_app (a b : string) :
  allWhiteSpace a = true -> allWhiteSpace b = true -> allWhiteSpace (a +:+ b) = true.
Proof.
  intros Ha Hb. revert Ha.
  induction a as [a IH] using string_length_ind.
  destruct a as [|c1 a1]; [intros _; exact Hb|].
  change (String c1 a1 +:+ b) with (String c1 (a1 +:+ b)).
  cbn [allWhiteSpace].
  destruct (is_space c1); [intros H; apply IH; [simpl; lia | exact H]|].
  destruct a1 as [|c2 a2]; [discriminate|].
  change (String c2 a2 +:+ b) with (String c2 (a2 +:+ b)). cbv beta iota.
  destruct (is_space2 c1 c2); [intros H; apply IH; [simpl; lia | exact H]|].
  destruct a2 as [|c3 a3]; [discriminate|].
  change (String c3 a3 +:+ b) with (String c3 (a3 +:+ b)). cbv beta iota.
  destruct (is_space3 c1 c2 c3); [intros H; apply IH; [simpl; lia | exact H]|].
  discriminate.
Qed.

(** [trimEnd] cuts a tail of white space off. *)
Lemma trimEnd_tail (s : string) :
  exists tail, s = trimEnd s +:+ tail /\ allWhiteSpace tail = true.
Proof.
  induction s as [|c s IH]; [now exists EmptyString|].
  cbn [trimEnd]. destruct (allWhiteSpace (String c s)) eqn:E.
  - now exists (String c s).
  - destruct IH as [tail [Hs Ht]]. exists tail. split; [|exact Ht].
    change (String c (trimEnd s) +:+ tail) with (String c (trimEnd s +:+ tail)).
    now rewrite <- Hs.
Qed.

Lemma trimEnd_not_white (s : string) :
  allWhiteSpace (trimEnd s) = true -> trimEnd s = EmptyString.
Proof.
  intros H. destruct (trimEnd_tail s) as [tail [Hs Ht]].
  pose proof (allWhiteSpace_app _ _ H Ht) as Hall. rewrite <- Hs in Hall.
  destruct s as [|c s]; [reflexivity|]. cbn [trimEnd]. now rewrite Hall.
Qed.

Lemma trimEnd_last (s front w : string) :
  trimEnd s = front +:+ w -> allWhiteSpace w = true -> w = EmptyString.
Proof.
  revert front. induction s as [|c s IH]; intros front H Hw.
  - destruct front; [exact (eq_sym H) | discriminate H].
  - destruct front as [|f front].
    + change (EmptyString +:+ w) with w in H. subst w.
      exact (trimEnd_not_white _ Hw).
    + cbn [trimEnd] in H. destruct (allWhiteSpace (String c s)); [discriminate H|].
      change (String f front +:+ w) with (String f (front +:+ w)) in H.
      injection H as _ H. exact (IH front H Hw).
Qed.

(** X15. [startVideoProcessing] issues its request exactly when the address
    holds more than white space, no task is active and the token is
    obtained.  An address of white space only is refused with "Please enter
    a YouTube URL", also while a task is active; when [getToken] rejects, no
    request is issued and the message of the rejection is shown.  The
    address sent in [youtube_url] neither begins nor ends with a character
    of white space. *)
Theorem startVideoProcessing_accepts
    (youtubeUrl : string) (hasActive : bool) (token : TokenResult) :
  (startVideoProcessing youtubeUrl hasActive token
     = StartRequest "/api/workflow/process-comprehensive-async"
         (processRequestBody youtubeUrl)
   <-> trim youtubeUrl <> EmptyString /\ hasActive = false /\ token = TokenObtained)
  /\ (allWhiteSpace youtubeUrl = true ->
      startVideoProcessing youtubeUrl hasActive token
      = StartRejected "Please enter a YouTube URL")
  /\ (forall err,
        trim youtubeUrl <> EmptyString -> hasActive = false ->
        token = TokenRejected err ->
        startVideoProcessing youtubeUrl hasActive token
        = StartFailed (default "Failed to start processing" err))
  /\ startsWithWhiteSpace (trim youtubeUrl) = false
  /\ (forall front w,
        trim youtubeUrl = front +:+ w -> allWhiteSpace w = true -> w = EmptyString).
Proof.
  split; [|split; [|split; [|split]]].
  - unfold startVideoProcessing.
    destruct (truthy_string (trim youtubeUrl)) eqn:T; cbn [negb].
    + apply truthy_string_iff in T.
      destruct hasActive; [split; [discriminate | intros (_ & H & _); discriminate H]|].
      destruct token; split; try tauto; try discriminate.
      intros (_ & _ & H). discriminate H.
    + split; [discriminate|]. intros [H _]. apply truthy_string_iff in H. congruence.
  - intros Hblank. unfold startVideoProcessing, trim.
    now rewrite (trimStart_allWhiteSpace youtubeUrl Hblank).
  - intros err Hne -> ->. unfold startVideoProcessing.
    apply truthy_string_iff in Hne. now rewrite Hne.
  - unfold trim. destruct (trimEnd_tail (trimStart youtubeUrl)) as [tail [Hs _]].
    apply (startsWithWhiteSpace_prefix _ tail). rewrite <- Hs. apply trimStart_head.
  - unfold trim. intros front w. apply trimEnd_last.
Qed.

Lemma startVideoProcessing_accepts_witness :
  startVideoProcessing Examples.whiteSpaceOnly true TokenObtained
    = StartRejected "Please enter a YouTube URL"
  /\ startVideoProcessing Examples.paddedUrl false (TokenRejected (Some "Not signed in"))
     = StartFailed "Not signed in"
  /\ trim Examples.paddedUrl = Examples.sampleUrl.
Proof.
  destruct (startVideoProcessing_accepts Examples.whiteSpaceOnly true TokenObtained)
    as (_ & Hblank & _).
  destruct (startVideoProcessing_accepts Examples.paddedUrl false
              (TokenRejected (Some "Not signed in")))
    as (_ & _ & Hrejected & _).
  split; [exact (Hblank eq_refl)|].
  split; [apply (Hrejected (Some "Not signed in")); [discriminate | reflexivity..]|].
  reflexivity.
Defined.

(** ** The clips of the user's videos *)

Lemma allClips_elem (videos : list (ApiVideo * option (list ApiClip))) (clip : Clip) :
  In clip (allClips videos) ->
  exists video cs index row,
    In (video, Some cs) videos
    /\ video_status video = "done"
    /\ cs !! index = Some row
    /\ clip = userClip video index row.
Proof.
  induction videos as [|[video detail] rest IH]; simpl; [tauto|].
  intros H. apply in_app_or in H. destruct H as [H | H].
  - destruct (String.eqb_spec (video_status video) "done") as [Hd | Hd]; [|destruct H].
    destruct detail as [cs|]; [|destruct H].
    apply list_elem_of_In, list_elem_of_lookup in H. destruct H as [i Hi].
    rewrite list_lookup_imap in Hi.
    destruct (cs !! i) as [row|] eqn:E; [|discriminate Hi].
    injection Hi as <-. exists video, cs, i, row. tauto.
  - destruct (IH H) as (v & cs & i & row & Hin & Hrest).
    exists v, cs, i, row. tauto.
Qed.

(** X16. [fetchUserVideos] shows clips of videos whose status is 'done'
    only, each built from a clip of that video's detail response; and when
    it finds no clip at all it leaves the clips shown as they are. *)
Theorem fetchUserVideos_done_only
    (videos : list (ApiVideo * option (list ApiClip))) (c : State) :
  (allClips videos = [] -> fetchUserVideos videos c = c)
  /\ (allClips videos <> [] -> clipsShown (fetchUserVideos videos c) = allClips videos)
  /\ (forall clip, In clip (allClips videos) ->
        exists video cs index row,
          In (video, Some cs) videos
          /\ video_status video = "done"
          /\ cs !! index = Some row
          /\ clip = userClip video index row)
  /\ poll (fetchUserVideos videos c) = poll c.
Proof.
  unfold fetchUserVideos. split; [|split; [|split]].
  - now intros ->.
  - destruct (allClips videos); [congruence | reflexivity].
  - apply allClips_elem.
  - now destruct (allClips videos).
Qed.

Lemma fetchUserVideos_done_only_witness :
  fetchUserVideos
    [ ({| video_id := "v1"; video_title := Some "Talk"; video_status := "processing" |},
       Some [ {| api_id := "c1"; api_title := None; api_start_time := 10;
                 api_end_time := 40; api_duration := Some 30%Q;
                 api_blob_url := "https://blob/c1.mp4"; api_thumbnail_url := None |} ]) ]
    ComponentExamples.reloaded
  = ComponentExamples.reloaded.
Proof.
  destruct (fetchUserVideos_done_only
    [ ({| video_id := "v1"; video_title := Some "Talk"; video_status := "processing" |},
       Some [ {| api_id := "c1"; api_title := None; api_start_time := 10;
                 api_end_time := 40; api_duration := Some 30%Q;
                 api_blob_url := "https://blob/c1.mp4"; api_thumbnail_url := None |} ]) ]
    ComponentExamples.reloaded) as (H & _).
  exact (H eq_refl).
Defined.



(** ** Choosing a language *)

Import I18nState.

Lemma detectLanguage_saved (env : I18n.Environment) (lang : I18n.Language) :
  I18n.localStorage env !! "cliplink_language" = Some (languageCode lang) ->
  I18n.detectLanguage env = (lang, I18n.localStorage env).
Proof.
  intros H. unfold I18n.detectLanguage. cbv zeta. unfold getItem. rewrite H.
  now destruct lang.
Qed.

(** X18. After [setLanguage] the chosen language is the current one, it is
    the last [languageChanged] event dispatched, and [detectLanguage]
    returns it from then on, whatever the browser languages and the time
    zone, leaving the storage area as it is. *)
Theorem setLanguage_then_detect
    (lang : I18n.Language) (st : State) (env : I18n.Environment) :
  getCurrentLanguage (setLanguage lang st) = lang
  /\ last (dispatched (setLanguage lang st)) = Some lang
  /\ I18n.detectLanguage (withStorage env (storage (setLanguage lang st)))
     = (lang, storage (setLanguage lang st))
  /\ (forall k, k <> "cliplink_language" ->
        storage (setLanguage lang st) !! k = storage st !! k).
Proof.
  split; [reflexivity|]. split; [apply last_snoc|]. split.
  - apply detectLanguage_saved. cbn. unfold setItem. apply lookup_insert_eq.
  - intros k Hk. cbn. unfold setItem. now rewrite lookup_insert_ne.
Qed.

Lemma detectLanguage_unsaved_storage (env : I18n.Environment) :
  getItem "cliplink_language" (I18n.localStorage env) <> Some "en" ->
  getItem "cliplink_language" (I18n.localStorage env) <> Some "ru" ->
  I18n.detectLanguage env =
    match I18n.scanLanguages (I18n.browserLangs env) with
    | Some l => (l, I18n.localStorage env)
    | None =>
        match I18n.timeZone env with
        | Some tz =>
            if existsb (String.eqb tz) I18n.russianTimezones
            then (I18n.en, setItem "cliplink_timezone_suggests_ru" "true"
                                   (I18n.localStorage env))
            else (I18n.en, I18n.localStorage env)
        | None => (I18n.en, I18n.localStorage env)
        end
    end.
Proof.
  intros Hen Hru. unfold I18n.detectLanguage. cbv zeta.
  destruct (getItem "cliplink_language" (I18n.localStorage env)) as [v|] eqn:Hv;
    [|reflexivity].
  destruct (String.eqb v "en") eqn:E1; [apply String.eqb_eq in E1; congruence|].
  destruct (String.eqb v "ru") eqn:E2; [apply String.eqb_eq in E2; congruence|].
  revert E1 E2. clear.
  repeat (let c := fresh "c" in
          destruct v as [|c v]; [reflexivity|];
          destruct c as [[] [] [] [] [] [] [] []]; try reflexivity);
    try (destruct v; intros; try reflexivity; simpl in *; discriminate).
Qed.

Lemma existsb_eqb_In (x : string) (l : list string) :
  existsb (String.eqb x) l = true <-> In x l.
Proof.
  rewrite existsb_exists. split.
  - intros [y [Hin Heq]]. apply String.eqb_eq in Heq. now subst.
  - intros Hin. exists x. split; [exact Hin | apply String.eqb_refl].
Qed.

Lemma suggests_ru_flag (ls : gmap string string) :
  fst (match getItem "cliplink_timezone_suggests_ru" ls with
       | Some "true" => (I18n.ru, ls)
       | _ => (I18n.en, ls)
       end) = I18n.ru
  <-> getItem "cliplink_timezone_suggests_ru" ls = Some "true".
Proof.
  destruct (getItem "cliplink_timezone_suggests_ru" ls) as [v|]; [|split; discriminate].
  destruct (String.eqb_spec v "true") as [-> | Hne]; [split; reflexivity|].
  split; [|congruence]. intros H. exfalso. revert H Hne. clear.
  repeat (let c := fresh "c" in
          destruct v as [|c v]; [discriminate|];
          destruct c as [[] [] [] [] [] [] [] []]; try discriminate).
  destruct v; [congruence | discriminate].
Qed.

(** X19. [getSuggestedLanguage] suggests Russian in exactly three cases:
    [detectLanguage] returns 'ru'; or the mark left by an earlier call for
    a Russian time zone is stored, even when 'en' has been saved as the
    language; or no language is saved and the time zone is one of the
    Russian ones. *)
Theorem getSuggestedLanguage_ru (env : I18n.Environment) :
  fst (getSuggestedLanguage env) = I18n.ru
  <-> fst (I18n.detectLanguage env) = I18n.ru
      \/ getItem "cliplink_timezone_suggests_ru" (I18n.localStorage env) = Some "true"
      \/ (getItem "cliplink_language" (I18n.localStorage env) <> Some "en"
          /\ exists tz, I18n.timeZone env = Some tz /\ In tz I18n.russianTimezones).
Proof.
  set (saved := getItem "cliplink_language" (I18n.localStorage env)).
  assert (Hcases : saved = Some "en" \/ saved = Some "ru"
                   \/ (saved <> Some "en" /\ saved <> Some "ru")).
  { destruct saved as [v|]; [|right; right; split; discriminate].
    destruct (String.eqb_spec v "en") as [-> | H1]; [now left|].
    destruct (String.eqb_spec v "ru") as [-> | H2]; [right; now left|].
    right; right; split; congruence. }
  unfold getSuggestedLanguage.
  destruct Hcases as [Hen | [Hru | [Hen Hru]]].
  - rewrite (detectLanguage_saved env I18n.en Hen). cbn [fst].
    rewrite suggests_ru_flag. split; [tauto|].
    intros [H | [H | [H _]]]; [discriminate H | exact H | contradiction].
  - rewrite (detectLanguage_saved env I18n.ru Hru). cbn [fst]. tauto.
  - rewrite (detectLanguage_unsaved_storage env Hen Hru).
    destruct (scanLanguages_spec (I18n.browserLangs env)) as [_ [Hs | Hs]]; rewrite Hs.
    + cbn [fst]. tauto.
    + destruct (I18n.timeZone env) as [tz|] eqn:Htz.
      * destruct (existsb (String.eqb tz) I18n.russianTimezones) eqn:Ex.
        -- apply existsb_eqb_In in Ex. cbn [fst].
           unfold getItem at 1, setItem. rewrite lookup_insert_eq. cbn [fst].
           split; [|reflexivity]. intros _. right. right. split; [exact Hen|].
           exists tz. tauto.
        -- cbn [fst]. rewrite suggests_ru_flag. split; [tauto|].
           intros [H | [H | [_ [tz' [Htz' Hin]]]]]; [discriminate H | exact H |].
           injection Htz' as <-. apply existsb_eqb_In in Hin. congruence.
      * cbn [fst]. rewrite suggests_ru_flag. split; [tauto|].
        intros [H | [H | [_ [tz' [Htz' _]]]]]; [discriminate H | exact H | discriminate Htz'].
Qed.

(** X20. The welcome modal is shown as long as no choice is recorded.
    Closing it records the choice without touching the saved language;
    choosing a language in it records the choice and saves the language, so
    that afterwards the modal stays closed and [detectLanguage] returns the
    language chosen. *)
Theorem welcome_modal_once
    (lang : I18n.Language) (st : State) (env : I18n.Environment) :
  (storage st !! "cliplink_language_selected" = None ->
   showsWelcomeModal (storage st) = true)
  /\ showsWelcomeModal (storage (closeModal st)) = false
  /\ storage (closeModal st) !! "cliplink_language" = storage st !! "cliplink_language"
  /\ currentLanguage (closeModal st) = currentLanguage st
  /\ showsWelcomeModal (storage (handleLanguageSelect lang st)) = false
  /\ currentLanguage (handleLanguageSelect lang st) = lang
  /\ fst (I18n.detectLanguage (withStorage env (storage (handleLanguageSelect lang st))))
     = lang.
Proof.
  split; [|split; [|split; [|split; [|split; [|split]]]]].
  - intros H. unfold showsWelcomeModal, getItem. now rewrite H.
  - unfold showsWelcomeModal, getItem, closeModal, setItem. cbn [storage].
    now rewrite lookup_insert_eq.
  - unfold closeModal, setItem. cbn [storage]. now rewrite lookup_insert_ne.
  - reflexivity.
  - unfold showsWelcomeModal, getItem, handleLanguageSelect, closeModal, setItem.
    cbn [storage]. now rewrite lookup_insert_eq.
  - reflexivity.
  - rewrite (detectLanguage_saved _ lang); [reflexivity|].
    unfold handleLanguageSelect, closeModal, setLanguage, setItem. cbn.
    rewrite !lookup_insert_ne by discriminate. apply lookup_insert_eq.
Qed.

Lemma welcome_modal_once_witness :
  showsWelcomeModal
    (storage {| currentLanguage := I18n.en; storage := ∅; dispatched := [] |}) = true.
Proof.
  destruct (welcome_modal_once I18n.ru
              {| currentLanguage := I18n.en; storage := ∅; dispatched := [] |}
              Examples.kurukhBrowser) as (H & _).
  exact (H eq_refl).
Defined.

(** ** The address carried over from the landing page *)

(** X21. An address typed on the landing page is handed over once: saved
    trimmed under [pendingYouTubeUrl], taken by the dashboard when it
    mounts, and removed, so that the next mount finds nothing.  A blank
    address is not saved at all. *)
Theorem pending_url_taken_once (url : string) (ls : gmap string string) :
  (trim url <> EmptyString ->
   Landing.getPendingUrl (Landing.saveUrlForLater url ls) = Some (trim url)
   /\ fst (Landing.takePendingUrl (Landing.saveUrlForLater url ls)) = Some (trim url)
   /\ Landing.getPendingUrl (snd (Landing.takePendingUrl (Landing.saveUrlForLater url ls)))
      = None
   /\ fst (Landing.takePendingUrl
             (snd (Landing.takePendingUrl (Landing.saveUrlForLater url ls)))) = None)
  /\ (trim url = EmptyString -> Landing.saveUrlForLater url ls = ls)
  /\ (forall k, k <> "pendingYouTubeUrl" ->
        snd (Landing.takePendingUrl (Landing.saveUrlForLater url ls)) !! k = ls !! k).
Proof.
  unfold Landing.saveUrlForLater, Landing.takePendingUrl, Landing.getPendingUrl,
    Landing.clearPendingUrl, getItem, setItem, removeItem.
  split; [|split].
  - intros Hne. apply truthy_string_iff in Hne. rewrite Hne.
    rewrite lookup_insert_eq, Hne. cbn [fst snd].
    rewrite lookup_delete_eq. tauto.
  - intros ->. reflexivity.
  - intros k Hk. destruct (truthy_string (trim url)) eqn:T.
    + rewrite lookup_insert_eq, T. cbn [snd].
      rewrite lookup_delete_ne by congruence. now rewrite lookup_insert_ne by congruence.
    + destruct (ls !! "pendingYouTubeUrl") as [v|] eqn:E; [|reflexivity].
      destruct (truthy_string v); [|reflexivity]. cbn [snd].
      now rewrite lookup_delete_ne by congruence.
Qed.

Lemma pending_url_taken_once_witness :
  fst (Landing.takePendingUrl
         (Landing.saveUrlForLater "  https://youtu.be/dQw4w9WgXcQ " ∅))
  = Some "https://youtu.be/dQw4w9WgXcQ".
Proof.
  destruct (pending_url_taken_once "  https://youtu.be/dQw4w9WgXcQ " ∅) as ((_ & H & _) & _);
    [discriminate|].
  exact H.
Defined.

Lemma setLanguage_then_detect_witness :
  fst (I18n.detectLanguage
         (withStorage Examples.minskBrowser
            (storage (setLanguage I18n.en
                        {| currentLanguage := I18n.ru; storage := ∅; dispatched := [] |}))))
  = I18n.en.
Proof.
  destruct (setLanguage_then_detect I18n.en
              {| currentLanguage := I18n.ru; storage := ∅; dispatched := [] |}
              Examples.minskBrowser) as (_ & _ & H & _).
  now rewrite H.
Defined.

Lemma getSuggestedLanguage_ru_witness :
  fst (getSuggestedLanguage
         {| I18n.localStorage := ∅; I18n.language := "en-US";
            I18n.languages := Some ["en-US"]; I18n.timeZone := Some "Asia/Almaty" |})
  = I18n.ru.
Proof.
  apply (getSuggestedLanguage_ru
           {| I18n.localStorage := ∅; I18n.language := "en-US";
              I18n.languages := Some ["en-US"]; I18n.timeZone := Some "Asia/Almaty" |}).
  right. right. split; [discriminate|].
  exists "Asia/Almaty". split; [reflexivity|]. simpl. tauto.
Defined.
